(** * The RPMsg socket transport ([net/rpmsg/rpmsg_sockif.c])

    A shallow embedding of the connection object, the endpoint bridge, the
    flow-control protocol and the socket interface, followed by the
    properties of the specification that were checked against it.

    Target: 32-bit ARM (STM32L4), so [size_t], [ssize_t], [int] and
    [uint32_t] are all 32 bits wide.  Unsigned quantities are kept as [Z]
    in [0, 2^32) with the wrap-around written out. *)

From Stdlib Require Import ZArith List Bool Lia String.
From Stdlib.Strings Require Import Byte.
From stdpp Require Import base option list gmap.
Import ListNotations.
Local Open Scope Z_scope.

(** ** 32-bit arithmetic *)

Module U32.

Definition modulus : Z := 2 ^ 32.

Definition wrap (z : Z) : Z := z mod modulus.

Definition add (a b : Z) : Z := wrap (a + b).

Definition sub (a b : Z) : Z := wrap (a - b).

Definition in_range (z : Z) : Prop := 0 <= z < modulus.

(** [(ssize_t)x] for a [uint32_t] [x]. *)
Definition to_ssize (x : Z) : Z :=
  if x <? 2 ^ 31 then x else x - modulus.

End U32.

(** ** Constants of the surrounding kernel

    The error numbers and flag bits come from kernel headers outside the
    source file ([include/errno.h], [include/nuttx/net/net.h],
    [include/sys/socket.h], [include/poll.h]).  Nothing below depends on
    the numbers beyond their being distinct. *)

(** Modelled from the spec: success. *)
Definition OK : Z := 0.
(** Modelled from the spec: [EAGAIN], a non-blocking operation would block. *)
Definition EAGAIN : Z := 11.
(** Modelled from the spec: [ENOMEM], an allocation failed. *)
Definition ENOMEM : Z := 12.
(** Modelled from the spec: [EINVAL], bad address, listen without bind. *)
Definition EINVAL : Z := 22.
(** Modelled from the spec: [EFBIG], datagram larger than the peer's window. *)
Definition EFBIG : Z := 27.
(** Modelled from the spec: the error of [listen] on a socket that is no
    stream socket. *)
Definition ENOSYS : Z := 38.
(** Modelled from the spec: [ENOPROTOOPT], unknown socket option. *)
Definition ENOPROTOOPT : Z := 92.
(** Modelled from the spec: [ECONNRESET], endpoint torn down or listener
    closed. *)
Definition ECONNRESET : Z := 104.
(** Modelled from the spec: [EISCONN], connect on a connected socket. *)
Definition EISCONN : Z := 106.
(** Modelled from the spec: [ENOTCONN], send without destination. *)
Definition ENOTCONN : Z := 107.
(** Modelled from the spec: [EINPROGRESS], non-blocking connect awaiting
    SYNC. *)
Definition EINPROGRESS : Z := 115.

(** Modelled from the spec: the non-blocking flag of the socket. *)
Definition _SF_NONBLOCK : Z := 0x08.
(** Modelled from the spec: the flag of a listening socket. *)
Definition _SF_LISTENING : Z := 0x10.
(** Modelled from the spec: the flag of a bound socket. *)
Definition _SF_BOUND : Z := 0x20.
(** Modelled from the spec: the [connected] flag, set by SYNC. *)
Definition _SF_CONNECTED : Z := 0x40.

(** Modelled from the spec: the tests of these flags. *)
Definition _SS_ISNONBLOCK (s : Z) : bool := negb (Z.land s _SF_NONBLOCK =? 0).
(** Modelled from the spec: is the socket listening. *)
Definition _SS_ISLISTENING (s : Z) : bool := negb (Z.land s _SF_LISTENING =? 0).
(** Modelled from the spec: is the socket bound. *)
Definition _SS_ISBOUND (s : Z) : bool := negb (Z.land s _SF_BOUND =? 0).
(** Modelled from the spec: is the socket connected. *)
Definition _SS_ISCONNECTED (s : Z) : bool := negb (Z.land s _SF_CONNECTED =? 0).

(** Modelled from the spec: the two socket types supported. *)
Definition SOCK_STREAM : Z := 1.
(** Modelled from the spec: the datagram type. *)
Definition SOCK_DGRAM : Z := 2.
(** Modelled from the spec: the per-call non-blocking flag. *)
Definition MSG_DONTWAIT : Z := 0x40.

(** Modelled from the spec: the readable event. *)
Definition POLLIN : Z := 0x01.
(** Modelled from the spec: the writable event. *)
Definition POLLOUT : Z := 0x04.

(** From the source file itself. *)

Definition RPMSG_SOCKET_CMD_SYNC : Z := 1.
Definition RPMSG_SOCKET_CMD_DATA : Z := 2.
Definition RPMSG_SOCKET_NAME_PREFIX : string := "sk:".
Definition RPMSG_SOCKET_NAME_PREFIX_LEN : nat := 3.

(** [sizeof(struct rpmsg_socket_data_s)]: three packed [uint32_t] and a
    zero-length array. *)
Definition sizeof_data_s : Z := 12.
Definition sizeof_uint32 : Z := 4.

(** Build-time parameters and sizes of types declared elsewhere. *)

Class config := {
  CONFIG_NET_RPMSG_RXBUF_SIZE : Z;
  CONFIG_RPTUN_LOCAL_CPUNAME : string;
  RPMSG_SOCKET_CPU_SIZE : nat;
  RPMSG_SOCKET_NAME_SIZE : nat;
  AF_RPMSG : Z;
  SOL_SOCKET : Z;
  SO_PEERCRED : Z;
  sizeof_sockaddr_rpmsg : Z;
  sizeof_ucred : Z
}.

(** ** Bytes and little-endian words *)

Definition byte_val (b : byte) : Z := Z.of_N (Byte.to_N b).

Definition byte_of (z : Z) : byte :=
  match Byte.of_N (Z.to_N (z mod 256)) with
  | Some b => b
  | None => x00
  end.

(** The value of a little-endian byte string, as [memcpy] into an integer
    reads it. *)
Fixpoint le_val (l : list byte) : Z :=
  match l with
  | [] => 0
  | b :: l' => byte_val b + 256 * le_val l'
  end.

(** The four bytes of a [uint32_t] in memory. *)
Definition le32_bytes (n : Z) : list byte :=
  [byte_of n; byte_of (n / 256); byte_of (n / 65536); byte_of (n / 16777216)].

(** ** The circular byte buffer

    A kernel primitive outside the source file.  It is a bounded FIFO of
    bytes: a read returns and removes the oldest bytes, as many as are
    there; a write appends as many bytes as fit; a resize allocates, and
    keeps the newest bytes when shrinking. *)

(** Modelled from the spec: the circular byte buffer, its capacity and
    the bytes it holds, oldest first. *)
Record circbuf_s := mk_circbuf {
  cb_size : Z;
  cb_data : list byte
}.

(** Modelled from the spec: [circbuf_init] with no memory, capacity 0. *)
Definition circbuf_init : circbuf_s := mk_circbuf 0 [].

(** Modelled from the spec: [circbuf_size], the capacity. *)
Definition circbuf_size (c : circbuf_s) : Z := cb_size c.

(** Modelled from the spec: [circbuf_used], the bytes readable. *)
Definition circbuf_used (c : circbuf_s) : Z := Z.of_nat (length (cb_data c)).

(** Modelled from the spec: [circbuf_space], the bytes writable. *)
Definition circbuf_space (c : circbuf_s) : Z := circbuf_size c - circbuf_used c.

(** Modelled from the spec: [circbuf_is_empty]. *)
Definition circbuf_is_empty (c : circbuf_s) : bool := circbuf_used c =? 0.

(** Modelled from the spec: [circbuf_read(circ, dst, bytes)], the bytes
    copied to [dst] and the buffer left; the C return value is the number
    of bytes copied. *)
Definition circbuf_read (c : circbuf_s) (bytes : Z) : list byte * circbuf_s :=
  (take (Z.to_nat bytes) (cb_data c),
   mk_circbuf (cb_size c) (drop (Z.to_nat bytes) (cb_data c))).

(** Modelled from the spec: [circbuf_skip(circ, bytes)]. *)
Definition circbuf_skip (c : circbuf_s) (bytes : Z) : circbuf_s :=
  mk_circbuf (cb_size c) (drop (Z.to_nat bytes) (cb_data c)).

(** Modelled from the spec: [circbuf_write(circ, src, bytes)], the number
    of bytes written and the buffer left. *)
Definition circbuf_write (c : circbuf_s) (src : list byte) : Z * circbuf_s :=
  let n := Z.min (Z.of_nat (length src)) (Z.max 0 (circbuf_space c)) in
  (n, mk_circbuf (cb_size c) (cb_data c ++ take (Z.to_nat n) src)).

(** Modelled from the spec: [circbuf_resize(circ, bytes)]; [alloc_ok]
    tells whether the allocator delivers. *)
Definition circbuf_resize (c : circbuf_s) (bytes : Z) (alloc_ok : bool)
  : Z * circbuf_s :=
  if bytes =? cb_size c then (0, c)
  else if negb alloc_ok && negb (bytes =? 0) then (- ENOMEM, c)
  else
    let len := circbuf_used c in
    let kept := if bytes <? len then drop (Z.to_nat (len - bytes)) (cb_data c)
                else cb_data c in
    (0, mk_circbuf bytes kept).

(** ** Data model *)

Record ucred := mk_ucred { pid : Z; uid : Z; gid : Z }.

Record sockaddr_rpmsg := mk_sockaddr {
  rp_family : Z;
  rp_cpu : string;
  rp_name : string
}.

(** The two wire frames.  A frame whose first word is not
    [RPMSG_SOCKET_CMD_SYNC] is taken as DATA by the receiver; [data] is the
    payload after the 12-byte header, so the length the substrate reports is
    [12 + length data]. *)
Inductive frame :=
| SYNC (size pid uid gid : Z)
| DATA (pos len : Z) (data : list byte).

Record rpmsg_socket_conn_s := mk_conn {
  s_flags : Z;  (* sconn.s_flags *)
  s_error : Z;  (* sconn.s_error, written by _SO_CONN_SETERRNO *)
  unbind : bool;
  ept_rdev : option string;  (* ept.rdev: None is NULL, Some cpu the device the endpoint lives on *)
  rpaddr : sockaddr_rpmsg;
  nameid : option Z;  (* None is the empty string, Some id the text ":<id in hex>" *)
  crefs : Z;
  sendsem : Z;  (* count of the semaphore *)
  recvsem : Z;  (* count of the semaphore *)
  recvdata : option N;  (* None is NULL *)
  recvlen : Z;
  recvbuf : circbuf_s;
  backlog : Z;
  cred : ucred;
  sendsize : Z;
  sendpos : Z;
  ackpos : Z;
  recvpos : Z;
  lastpos : Z
}.

(** Field updates ([conn->f = v]). *)

Definition set_s_flags (v : Z) (c : rpmsg_socket_conn_s) : rpmsg_socket_conn_s :=
  mk_conn v (s_error c) (unbind c) (ept_rdev c) (rpaddr c) (nameid c) (crefs c) (sendsem c) (recvsem c) (recvdata c) (recvlen c) (recvbuf c) (backlog c) (cred c) (sendsize c) (sendpos c) (ackpos c) (recvpos c) (lastpos c).

Definition set_s_error (v : Z) (c : rpmsg_socket_conn_s) : rpmsg_socket_conn_s :=
  mk_conn (s_flags c) v (unbind c) (ept_rdev c) (rpaddr c) (nameid c) (crefs c) (sendsem c) (recvsem c) (recvdata c) (recvlen c) (recvbuf c) (backlog c) (cred c) (sendsize c) (sendpos c) (ackpos c) (recvpos c) (lastpos c).

Definition set_unbind (v : bool) (c : rpmsg_socket_conn_s) : rpmsg_socket_conn_s :=
  mk_conn (s_flags c) (s_error c) v (ept_rdev c) (rpaddr c) (nameid c) (crefs c) (sendsem c) (recvsem c) (recvdata c) (recvlen c) (recvbuf c) (backlog c) (cred c) (sendsize c) (sendpos c) (ackpos c) (recvpos c) (lastpos c).

Definition set_ept_rdev (v : option string) (c : rpmsg_socket_conn_s) : rpmsg_socket_conn_s :=
  mk_conn (s_flags c) (s_error c) (unbind c) v (rpaddr c) (nameid c) (crefs c) (sendsem c) (recvsem c) (recvdata c) (recvlen c) (recvbuf c) (backlog c) (cred c) (sendsize c) (sendpos c) (ackpos c) (recvpos c) (lastpos c).

Definition set_rpaddr (v : sockaddr_rpmsg) (c : rpmsg_socket_conn_s) : rpmsg_socket_conn_s :=
  mk_conn (s_flags c) (s_error c) (unbind c) (ept_rdev c) v (nameid c) (crefs c) (sendsem c) (recvsem c) (recvdata c) (recvlen c) (recvbuf c) (backlog c) (cred c) (sendsize c) (sendpos c) (ackpos c) (recvpos c) (lastpos c).

Definition set_nameid (v : option Z) (c : rpmsg_socket_conn_s) : rpmsg_socket_conn_s :=
  mk_conn (s_flags c) (s_error c) (unbind c) (ept_rdev c) (rpaddr c) v (crefs c) (sendsem c) (recvsem c) (recvdata c) (recvlen c) (recvbuf c) (backlog c) (cred c) (sendsize c) (sendpos c) (ackpos c) (recvpos c) (lastpos c).

Definition set_crefs (v : Z) (c : rpmsg_socket_conn_s) : rpmsg_socket_conn_s :=
  mk_conn (s_flags c) (s_error c) (unbind c) (ept_rdev c) (rpaddr c) (nameid c) v (sendsem c) (recvsem c) (recvdata c) (recvlen c) (recvbuf c) (backlog c) (cred c) (sendsize c) (sendpos c) (ackpos c) (recvpos c) (lastpos c).

Definition set_sendsem (v : Z) (c : rpmsg_socket_conn_s) : rpmsg_socket_conn_s :=
  mk_conn (s_flags c) (s_error c) (unbind c) (ept_rdev c) (rpaddr c) (nameid c) (crefs c) v (recvsem c) (recvdata c) (recvlen c) (recvbuf c) (backlog c) (cred c) (sendsize c) (sendpos c) (ackpos c) (recvpos c) (lastpos c).

Definition set_recvsem (v : Z) (c : rpmsg_socket_conn_s) : rpmsg_socket_conn_s :=
  mk_conn (s_flags c) (s_error c) (unbind c) (ept_rdev c) (rpaddr c) (nameid c) (crefs c) (sendsem c) v (recvdata c) (recvlen c) (recvbuf c) (backlog c) (cred c) (sendsize c) (sendpos c) (ackpos c) (recvpos c) (lastpos c).

Definition set_recvdata (v : option N) (c : rpmsg_socket_conn_s) : rpmsg_socket_conn_s :=
  mk_conn (s_flags c) (s_error c) (unbind c) (ept_rdev c) (rpaddr c) (nameid c) (crefs c) (sendsem c) (recvsem c) v (recvlen c) (recvbuf c) (backlog c) (cred c) (sendsize c) (sendpos c) (ackpos c) (recvpos c) (lastpos c).

Definition set_recvlen (v : Z) (c : rpmsg_socket_conn_s) : rpmsg_socket_conn_s :=
  mk_conn (s_flags c) (s_error c) (unbind c) (ept_rdev c) (rpaddr c) (nameid c) (crefs c) (sendsem c) (recvsem c) (recvdata c) v (recvbuf c) (backlog c) (cred c) (sendsize c) (sendpos c) (ackpos c) (recvpos c) (lastpos c).

Definition set_recvbuf (v : circbuf_s) (c : rpmsg_socket_conn_s) : rpmsg_socket_conn_s :=
  mk_conn (s_flags c) (s_error c) (unbind c) (ept_rdev c) (rpaddr c) (nameid c) (crefs c) (sendsem c) (recvsem c) (recvdata c) (recvlen c) v (backlog c) (cred c) (sendsize c) (sendpos c) (ackpos c) (recvpos c) (lastpos c).

Definition set_backlog (v : Z) (c : rpmsg_socket_conn_s) : rpmsg_socket_conn_s :=
  mk_conn (s_flags c) (s_error c) (unbind c) (ept_rdev c) (rpaddr c) (nameid c) (crefs c) (sendsem c) (recvsem c) (recvdata c) (recvlen c) (recvbuf c) v (cred c) (sendsize c) (sendpos c) (ackpos c) (recvpos c) (lastpos c).

Definition set_cred (v : ucred) (c : rpmsg_socket_conn_s) : rpmsg_socket_conn_s :=
  mk_conn (s_flags c) (s_error c) (unbind c) (ept_rdev c) (rpaddr c) (nameid c) (crefs c) (sendsem c) (recvsem c) (recvdata c) (recvlen c) (recvbuf c) (backlog c) v (sendsize c) (sendpos c) (ackpos c) (recvpos c) (lastpos c).

Definition set_sendsize (v : Z) (c : rpmsg_socket_conn_s) : rpmsg_socket_conn_s :=
  mk_conn (s_flags c) (s_error c) (unbind c) (ept_rdev c) (rpaddr c) (nameid c) (crefs c) (sendsem c) (recvsem c) (recvdata c) (recvlen c) (recvbuf c) (backlog c) (cred c) v (sendpos c) (ackpos c) (recvpos c) (lastpos c).

Definition set_sendpos (v : Z) (c : rpmsg_socket_conn_s) : rpmsg_socket_conn_s :=
  mk_conn (s_flags c) (s_error c) (unbind c) (ept_rdev c) (rpaddr c) (nameid c) (crefs c) (sendsem c) (recvsem c) (recvdata c) (recvlen c) (recvbuf c) (backlog c) (cred c) (sendsize c) v (ackpos c) (recvpos c) (lastpos c).

Definition set_ackpos (v : Z) (c : rpmsg_socket_conn_s) : rpmsg_socket_conn_s :=
  mk_conn (s_flags c) (s_error c) (unbind c) (ept_rdev c) (rpaddr c) (nameid c) (crefs c) (sendsem c) (recvsem c) (recvdata c) (recvlen c) (recvbuf c) (backlog c) (cred c) (sendsize c) (sendpos c) v (recvpos c) (lastpos c).

Definition set_recvpos (v : Z) (c : rpmsg_socket_conn_s) : rpmsg_socket_conn_s :=
  mk_conn (s_flags c) (s_error c) (unbind c) (ept_rdev c) (rpaddr c) (nameid c) (crefs c) (sendsem c) (recvsem c) (recvdata c) (recvlen c) (recvbuf c) (backlog c) (cred c) (sendsize c) (sendpos c) (ackpos c) v (lastpos c).

Definition set_lastpos (v : Z) (c : rpmsg_socket_conn_s) : rpmsg_socket_conn_s :=
  mk_conn (s_flags c) (s_error c) (unbind c) (ept_rdev c) (rpaddr c) (nameid c) (crefs c) (sendsem c) (recvsem c) (recvdata c) (recvlen c) (recvbuf c) (backlog c) (cred c) (sendsize c) (sendpos c) (ackpos c) (recvpos c) v.
(** The callback sets handed to [rpmsg_register_callback] and
    [rpmsg_unregister_callback]. *)
Inductive cbset :=
| CB_CLIENT    (* device_created and device_destroy *)
| CB_ACCEPTED  (* device_destroy only *)
| CB_SERVER.   (* ns_match and ns_bind *)

(** Calls into the substrate and the kernel that leave no mark on the
    connection itself are recorded, in order. *)
Inductive effect :=
| Tx (f : frame)              (* rpmsg_send / rpmsg_sendto_nocopy on conn->ept *)
| PollNotify (eventset : Z)   (* poll_notify on conn->fds *)
| CreateEpt (name : string) (suffix : option Z)   (* rpmsg_create_ept *)
| DestroyEpt                  (* rpmsg_destroy_ept *)
| Register (cb : cbset)
| Unregister (cb : cbset)
| ReleaseTx                   (* rpmsg_release_tx_buffer *)
| Free                        (* rpmsg_socket_free *)
| OnChild (e : effect).       (* the same, on a connection built by ns_bind *)

(** What the functions of one socket work on: its connection, the chain
    hanging off [conn->next] (the accept queue, head first), the user
    memory its buffers point into, the record of outside calls, and the
    file-wide counter [g_rpmsg_id].  [peer_ok] belongs to the model of the
    environment, not to the program: it stays [true] as long as every
    frame delivered to the connection so far followed the wire protocol. *)
Record world := mk_world {
  conn : rpmsg_socket_conn_s;
  next : list rpmsg_socket_conn_s;
  mem : gmap N (list byte);
  trace : list effect;
  g_rpmsg_id : Z;
  peer_ok : bool
}.

Definition set_conn (c : rpmsg_socket_conn_s) (w : world) : world :=
  mk_world c (next w) (mem w) (trace w) (g_rpmsg_id w) (peer_ok w).

Definition set_next (q : list rpmsg_socket_conn_s) (w : world) : world :=
  mk_world (conn w) q (mem w) (trace w) (g_rpmsg_id w) (peer_ok w).

Definition set_mem (m : gmap N (list byte)) (w : world) : world :=
  mk_world (conn w) (next w) m (trace w) (g_rpmsg_id w) (peer_ok w).

Definition set_trace (t : list effect) (w : world) : world :=
  mk_world (conn w) (next w) (mem w) t (g_rpmsg_id w) (peer_ok w).

Definition set_g_rpmsg_id (i : Z) (w : world) : world :=
  mk_world (conn w) (next w) (mem w) (trace w) i (peer_ok w).

Definition set_peer_ok (b : bool) (w : world) : world :=
  mk_world (conn w) (next w) (mem w) (trace w) (g_rpmsg_id w) b.

Definition upd (f : rpmsg_socket_conn_s -> rpmsg_socket_conn_s) (w : world) : world :=
  set_conn (f (conn w)) w.

Definition emit (e : effect) (w : world) : world :=
  set_trace (trace w ++ [e]) w.

(** User memory: [memcpy(p, src, n)] overwrites the first bytes of the
    buffer at [p]; reading [n] bytes at offset [off] of the buffer at [p]
    gives exactly [n] bytes (bytes this model does not hold read as 0). *)
Definition mem_write (p : N) (src : list byte) (m : gmap N (list byte))
  : gmap N (list byte) :=
  match src with
  | [] => m
  | _ => <[p := src ++ drop (length src) (default [] (m !! p))]> m
  end.

(** [strlcpy(dst, src, n)]: at most [n - 1] characters arrive. *)
Definition strlcpy (src : string) (n : nat) : string :=
  String.substring 0 (n - 1) src.

Definition mem_read (p : N) (off n : Z) (m : gmap N (list byte)) : list byte :=
  take (Z.to_nat n)
       (drop (Z.to_nat off) (default [] (m !! p)) ++ repeat x00 (Z.to_nat n)).

Definition ept_alive (c : rpmsg_socket_conn_s) : bool :=
  match ept_rdev c with Some _ => negb (unbind c) | None => false end.

(** ** Private helpers of the source file *)

Section Sockif.

Context `{cfg : config}.

(** [rpmsg_socket_post]: post only while the count is below one. *)
Definition rpmsg_socket_post (semcount : Z) : Z :=
  if semcount <? 1 then semcount + 1 else semcount.

Definition rpmsg_socket_poll_notify (eventset : Z) (w : world) : world :=
  emit (PollNotify eventset) w.

Definition rpmsg_socket_alloc : rpmsg_socket_conn_s :=
  mk_conn 0 0 false None (mk_sockaddr 0 "" "") None 1 0 0 None 0
          circbuf_init 0 (mk_ucred 0 0 0) 0 0 0 0 0.

(** [rpmsg_socket_wakeup].  Its [int] result (that of [rpmsg_send], or 0)
    is dropped by its only caller and is not modelled. *)
Definition rpmsg_socket_wakeup (w : world) : world :=
  let c := conn w in
  if negb (ept_alive c) then w
  else
    let space := U32.sub (recvpos c) (lastpos c) in
    if circbuf_size (recvbuf c) / 2 <? space then
      emit (Tx (DATA (recvpos c) 0 [])) (upd (set_lastpos (recvpos c)) w)
    else w.

Definition rpmsg_socket_get_space (c : rpmsg_socket_conn_s) : Z :=
  U32.sub (sendsize c) (U32.sub (sendpos c) (ackpos c)).

(** The DATA branch of [rpmsg_socket_ept_cb] in its three blocks.  Under
    the send lock: the acknowledged position is taken over, and a waiting
    sender is woken if there is space. *)
Definition ept_cb_ack (pos : Z) (w : world) : world :=
  let w := upd (set_ackpos pos) w in
  if 0 <? rpmsg_socket_get_space (conn w) then
    rpmsg_socket_poll_notify POLLOUT
      (upd (fun c => set_sendsem (rpmsg_socket_post (sendsem c)) c) w)
  else w.

(** Under the recv lock, with a reader waiting ([conn->recvdata = p]): the
    payload [data] of a frame whose length field is [mlen] is copied to
    the reader; the result is the world and the bytes left over. *)
Definition ept_cb_direct (p : N) (mlen : Z) (data : list byte) (w : world)
  : world * list byte :=
  let len := Z.of_nat (length data) in
  let rl := Z.min (recvlen (conn w)) mlen in
  let w := upd (set_recvlen rl) w in
  let wb :=
    if len =? mlen then
      (* SOCK_STREAM *)
      (set_mem (mem_write p (take (Z.to_nat rl) data) (mem w))
         (upd (fun c => set_recvpos (U32.add (recvpos c) rl) c) w),
       drop (Z.to_nat rl) data)
    else
      (* SOCK_DGRAM *)
      (set_mem (mem_write p
                  (take (Z.to_nat rl) (drop (Z.to_nat sizeof_uint32) data))
                  (mem w))
         (upd (fun c => set_recvpos (U32.add (recvpos c) len) c) w),
       []) in
  (upd (fun c => set_recvsem (rpmsg_socket_post (recvsem c)) c)
     (upd (set_recvdata None) (fst wb)),
   snd wb).

(** Still under the recv lock: what is left goes to the circular buffer. *)
Definition ept_cb_store (buf : list byte) (w : world) : world :=
  if 0 <? Z.of_nat (length buf) then
    rpmsg_socket_poll_notify POLLIN
      (upd (set_recvbuf (snd (circbuf_write (recvbuf (conn w)) buf))) w)
  else w.

(** [rpmsg_socket_ept_cb], the inbound dispatch.  The [DEBUGASSERT] on the
    payload length is not compiled into release builds and is not part of
    the function; the copies take what the payload holds. *)
Definition rpmsg_socket_ept_cb (f : frame) (w : world) : world :=
  match f with
  | SYNC size p u g =>
      let w := upd (set_sendsize size) w in
      let w := upd (set_cred (mk_ucred p u g)) w in
      let w := upd (fun c => set_s_flags (Z.lor (s_flags c) _SF_CONNECTED) c) w in
      let w := upd (set_s_error OK) w in
      let w := upd (fun c => set_sendsem (rpmsg_socket_post (sendsem c)) c) w in
      rpmsg_socket_poll_notify POLLOUT w
  | DATA pos mlen data =>
      let w := ept_cb_ack pos w in
      if 0 <? Z.of_nat (length data) then
        let wb :=
          match recvdata (conn w) with
          | Some p => ept_cb_direct p mlen data w
          | None => (w, data)
          end in
        ept_cb_store (snd wb) (fst wb)
      else w
  end.

(** [rpmsg_socket_destroy_ept]; [rpmsg_destroy_ept] leaves [ept.rdev] NULL. *)
Definition rpmsg_socket_destroy_ept (w : world) : world :=
  match ept_rdev (conn w) with
  | Some _ =>
      let w := if negb (backlog (conn w) =? 0)
               then upd (set_backlog (-1)) w else w in
      let w := emit DestroyEpt (upd (set_ept_rdev None) w) in
      let w := upd (fun c => set_sendsem (rpmsg_socket_post (sendsem c)) c) w in
      let w := upd (fun c => set_recvsem (rpmsg_socket_post (recvsem c)) c) w in
      rpmsg_socket_poll_notify (Z.lor POLLIN POLLOUT) w
  | None => w
  end.

(** [rpmsg_socket_ns_bound]: the SYNC frame sent for connection [c] by a
    task with credentials [me]. *)
Definition rpmsg_socket_ns_bound (me : ucred) (c : rpmsg_socket_conn_s) : frame :=
  SYNC (circbuf_size (recvbuf c)) (pid me) (uid me) (gid me).

Definition rpmsg_socket_ns_unbind (w : world) : world :=
  let w := upd (set_unbind true) w in
  let w := upd (fun c => set_sendsem (rpmsg_socket_post (sendsem c)) c) w in
  let w := upd (fun c => set_recvsem (rpmsg_socket_post (recvsem c)) c) w in
  rpmsg_socket_poll_notify (Z.lor POLLIN POLLOUT) w.

(** ["sk:" name], the endpoint name without the suffix. *)
Definition ept_name (c : rpmsg_socket_conn_s) : string :=
  RPMSG_SOCKET_NAME_PREFIX ++ rp_name (rpaddr c).

(** [rpmsg_socket_device_created]; [created] tells whether
    [rpmsg_create_ept] succeeds (its result is not looked at). *)
Definition rpmsg_socket_device_created (cpu : string) (created : bool)
    (w : world) : world :=
  match ept_rdev (conn w) with
  | Some _ => w
  | None =>
      if String.eqb (rp_cpu (rpaddr (conn w))) cpu then
        let w := emit (CreateEpt (ept_name (conn w)) (nameid (conn w))) w in
        if created then upd (set_ept_rdev (Some cpu)) w else w
      else w
  end.

Definition rpmsg_socket_device_destroy (cpu : string) (w : world) : world :=
  if String.eqb (rp_cpu (rpaddr (conn w))) cpu
  then rpmsg_socket_destroy_ept w else w.

(** [rpmsg_socket_ns_match]. *)
Definition rpmsg_socket_ns_match (cpu name : string) (w : world) : bool :=
  if negb (String.prefix (ept_name (conn w)) name) then false
  else if negb (String.eqb (rp_cpu (rpaddr (conn w))) "")
          && negb (String.eqb (rp_cpu (rpaddr (conn w))) cpu) then false
  else true.

(** The walk over the accept queue in [rpmsg_socket_ns_bind]:
    [for (tmp = server; tmp->next; tmp = tmp->next) if (++cnt >= backlog)
    reject;] followed by [tmp->next = new].  [q] is the chain after [tmp],
    [cnt] the count so far; [None] is the rejection. *)
Fixpoint ns_bind_walk (bl cnt : Z) (q : list rpmsg_socket_conn_s)
    (new : rpmsg_socket_conn_s) : option (list rpmsg_socket_conn_s) :=
  match q with
  | [] => Some [new]
  | c :: q' =>
      if bl <=? cnt + 1 then None
      else option_map (cons c) (ns_bind_walk bl (cnt + 1) q' new)
  end.

(** [rpmsg_socket_ns_bind] for a peer endpoint [name] on device [cpu];
    [alloc_ok], [resize_ok] and [create_ok] tell whether the allocation of
    the connection, that of its buffer and [rpmsg_create_ept] succeed, and
    [me] holds the credentials of the running task. *)
Definition rpmsg_socket_ns_bind (cpu name : string) (me : ucred)
    (alloc_ok resize_ok create_ok : bool) (w : world) : world :=
  if negb alloc_ok then w
  else
    let new := rpmsg_socket_alloc in
    let '(ret, rb) :=
      circbuf_resize (recvbuf new) CONFIG_NET_RPMSG_RXBUF_SIZE resize_ok in
    if ret <? 0 then emit (OnChild Free) w
    else
      let new := set_recvbuf rb new in
      let w := emit (OnChild (CreateEpt name None)) w in
      if negb create_ok then emit (OnChild Free) w
      else
        let new := set_ept_rdev (Some cpu) new in
        let new := set_rpaddr
          (mk_sockaddr AF_RPMSG (strlcpy cpu RPMSG_SOCKET_CPU_SIZE)
             (strlcpy
                (String.substring RPMSG_SOCKET_NAME_PREFIX_LEN
                   (String.length name - RPMSG_SOCKET_NAME_PREFIX_LEN) name)
                RPMSG_SOCKET_NAME_SIZE)) new in
        let w := emit (OnChild (Tx (rpmsg_socket_ns_bound me new))) w in
        match ns_bind_walk (backlog (conn w)) 0 (next w) new with
        | None =>
            (* Reject the connection *)
            emit (OnChild Free) (emit (OnChild DestroyEpt) w)
        | Some q =>
            let w := set_next q w in
            let w := upd (fun c => set_recvsem (rpmsg_socket_post (recvsem c)) c) w in
            rpmsg_socket_poll_notify POLLIN w
        end.

(** [rpmsg_socket_getaddr]: the result, and the contents of [*addr] and
    [*addrlen] afterwards ([addr = None] is a NULL pointer). *)
Definition rpmsg_socket_getaddr (c : rpmsg_socket_conn_s)
    (addr : option sockaddr_rpmsg) (addrlen : Z)
  : Z * option sockaddr_rpmsg * Z :=
  match addr with
  | None => (- EINVAL, addr, addrlen)
  | Some _ =>
      if addrlen <? sizeof_sockaddr_rpmsg then (- EINVAL, addr, addrlen)
      else (0, Some (rpaddr c), sizeof_sockaddr_rpmsg)
  end.

(** [rpmsg_socket_setaddr]. *)
Definition rpmsg_socket_setaddr (addr : sockaddr_rpmsg) (addrlen : Z)
    (suffix : bool) (w : world) : Z * world :=
  if negb (rp_family addr =? AF_RPMSG) || (addrlen <? sizeof_sockaddr_rpmsg)
  then (- EINVAL, w)
  else
    let w := upd (set_rpaddr addr) w in
    if suffix then
      (0, set_g_rpmsg_id ((g_rpmsg_id w + 1) mod 2 ^ 64)
            (upd (set_nameid (Some (g_rpmsg_id w))) w))
    else (0, upd (set_nameid None) w).

(** [rpmsg_socket_close]. *)
Definition rpmsg_socket_close (w : world) : Z * world :=
  let c := conn w in
  if 1 <? crefs c then (0, upd (set_crefs (crefs c - 1)) w)
  else
    let w :=
      if backlog c =? -2 then emit (Unregister CB_ACCEPTED) w
      else if negb (backlog c =? 0) then emit (Unregister CB_SERVER) w
      else emit (Unregister CB_CLIENT) w in
    let w := rpmsg_socket_destroy_ept w in
    (0, emit Free w).

(** [rpmsg_socket_getsockopt]; [value_len] is [*value_len] on entry, the
    second component what [*value] holds on return ([None]: untouched). *)
Definition rpmsg_socket_getsockopt (level option_ : Z) (value_len : Z)
    (w : world) : Z * option ucred :=
  if (level =? SOL_SOCKET) && (option_ =? SO_PEERCRED) then
    if negb (value_len =? sizeof_ucred) then (- EINVAL, None)
    else (OK, Some (cred (conn w)))
  else (- ENOPROTOOPT, None).

(** ** The environment of a call

    A call into the socket interface is suspended at its semaphore waits
    and leaves the file at its calls into the substrate.  What happens
    there is given by a script, one item for each such point in turn: the
    callbacks that run meanwhile, and the answers of the outside. *)

Inductive event :=
| EvRecv (f : frame)                 (* rpmsg_socket_ept_cb *)
| EvNsBound (me : ucred)             (* ns_bound_cb of the endpoint *)
| EvNsUnbind                         (* rpmsg_socket_ns_unbind *)
| EvDeviceCreated (cpu : string) (created : bool)
| EvDeviceDestroy (cpu : string)
| EvNsBind (cpu name : string) (me : ucred) (alloc_ok resize_ok create_ok : bool)
| EvChildRecv (i : nat) (f : frame)  (* ept_cb of the i-th queued connection *)
| EvClose.                           (* rpmsg_socket_close from another task *)

(** A connection [c] other than [conn w] gets a world of its own, which
    shares memory and the counter; afterwards its outside calls are
    recorded as [OnChild]. *)
Definition child_world (c : rpmsg_socket_conn_s) (w : world) : world :=
  mk_world c [] (mem w) [] (g_rpmsg_id w) true.

Definition merge_child (w wc : world) : world :=
  mk_world (conn w) (next w) (mem wc) (trace w ++ map OnChild (trace wc))
           (g_rpmsg_id wc) (peer_ok w).

Definition on_child (c : rpmsg_socket_conn_s) (f : world -> world) (w : world)
  : rpmsg_socket_conn_s * world :=
  let wc := f (child_world c w) in
  (conn wc, merge_child w wc).

(** The wire protocol, as the receiver of a frame sees it: SYNC is the
    first frame of the peer and announces a 32-bit size; the position a
    DATA frame acknowledges lies between the last one acknowledged and
    [sendpos]. *)
Definition frame_ok (f : frame) (c : rpmsg_socket_conn_s) : bool :=
  match f with
  | SYNC size _ _ _ =>
      (0 <=? size) && (size <? U32.modulus) && negb (_SS_ISCONNECTED (s_flags c))
  | DATA pos _ _ =>
      U32.sub pos (ackpos c) <=? U32.sub (sendpos c) (ackpos c)
  end.

Definition handle_event (e : event) (w : world) : world :=
  match e with
  | EvRecv f =>
      set_peer_ok (peer_ok w && frame_ok f (conn w)) (rpmsg_socket_ept_cb f w)
  | EvNsBound me => emit (Tx (rpmsg_socket_ns_bound me (conn w))) w
  | EvNsUnbind => rpmsg_socket_ns_unbind w
  | EvDeviceCreated cpu created => rpmsg_socket_device_created cpu created w
  | EvDeviceDestroy cpu => rpmsg_socket_device_destroy cpu w
  | EvNsBind cpu name me a r c => rpmsg_socket_ns_bind cpu name me a r c w
  | EvChildRecv i f =>
      match next w !! i with
      | Some c =>
          let '(c', w') := on_child c (rpmsg_socket_ept_cb f) w in
          set_next (<[i := c']> (next w')) w'
      | None => w
      end
  | EvClose => snd (rpmsg_socket_close w)
  end.

Definition run_events (evs : list event) (w : world) : world :=
  fold_left (fun w e => handle_event e w) evs w.

Record env_item := mk_item {
  ev : list event;          (* callbacks that run at this point *)
  werr : option positive;   (* errno ending a wait that is not posted;
                               None: neither timeout nor signal *)
  alloc_ok : bool;          (* does the allocator deliver *)
  cret : Z;                 (* result of the substrate call *)
  txbuf : option Z          (* TX payload buffer: its size, None is NULL *)
}.

(** A semaphore wait ([net_sem_wait], [net_sem_timedwait]) answered by
    item [it]: the callbacks run; if the count is then positive the wait
    takes it and returns 0, else it fails with the error of the item, or
    never returns ([None]). *)
Definition sem_wait (count : rpmsg_socket_conn_s -> Z)
    (set_count : Z -> rpmsg_socket_conn_s -> rpmsg_socket_conn_s)
    (it : env_item) (w : world) : option (Z * world) :=
  let w := run_events (ev it) w in
  if 0 <? count (conn w) then
    Some (0, upd (set_count (count (conn w) - 1)) w)
  else
    match werr it with
    | Some e => Some (Z.neg e, w)
    | None => None
    end.

(** The result of a call under a script: it returned [a], leaving world [w]
    and the rest of the script, or it is still pending in world [w]. *)
Inductive res (A : Type) :=
| Ret (a : A) (w : world) (env : list env_item)
| Pend (w : world).
#[global] Arguments Ret {A} a w env.
#[global] Arguments Pend {A} w.

Definition M (A : Type) : Type := list env_item -> world -> res A.

#[global] Instance M_ret : MRet M := fun A a env w => Ret a w env.

#[global] Instance M_bind : MBind M := fun A B f m env w =>
  match m env w with
  | Ret a w' env' => f a env' w'
  | Pend w' => Pend w'
  end.

Definition gets {A : Type} (f : world -> A) : M A := fun env w => Ret (f w) w env.

Definition modify (f : world -> world) : M unit := fun env w => Ret tt (f w) env.

(** Take the next item of the script. *)
Definition interact : M env_item := fun env w =>
  match env with
  | [] => Pend w
  | it :: env' => Ret it w env'
  end.

Definition deliver (it : env_item) : M unit := modify (run_events (ev it)).

Definition wait_on (count : rpmsg_socket_conn_s -> Z)
    (set_count : Z -> rpmsg_socket_conn_s -> rpmsg_socket_conn_s) : M Z :=
  fun env w =>
    match env with
    | [] => Pend w
    | it :: env' =>
        match sem_wait count set_count it w with
        | Some (ret, w') => Ret ret w' env'
        | None => Pend (run_events (ev it) w)
        end
    end.

(** ** The socket interface *)

Record iovec := mk_iovec { iov_base : N; iov_len : Z }.

(** [msg_name] is [None] for a NULL pointer, else what the buffer holds. *)
Record msghdr := mk_msghdr {
  msg_name : option sockaddr_rpmsg;
  msg_namelen : Z;
  msg_iov : list iovec;
  msg_iovlen : Z
}.

(** [*msg->msg_iov]; the socket layer hands over at least one entry. *)
Definition msg_iov0 (msg : msghdr) : iovec :=
  hd (mk_iovec 0 0) (msg_iov msg).

(** [rpmsg_socket_listen]; one item answers [rpmsg_register_callback]. *)
Definition rpmsg_socket_listen (s_type bl : Z) : M Z :=
  c ← gets conn;
  if negb (s_type =? SOCK_STREAM) then mret (- ENOSYS)
  else if negb (_SS_ISBOUND (s_flags c)) || (bl <=? 0) then mret (- EINVAL)
  else
    modify (upd (set_backlog bl));;
    modify (emit (Register CB_SERVER));;
    it ← interact;
    deliver it;;
    mret (cret it).

(** [rpmsg_socket_connect_internal]; one item answers the allocation in
    [circbuf_resize] and [rpmsg_register_callback], the next the wait. *)
Definition rpmsg_socket_connect_internal : M Z :=
  it ← interact;
  c ← gets conn;
  let '(ret, rb) :=
    circbuf_resize (recvbuf c) CONFIG_NET_RPMSG_RXBUF_SIZE (alloc_ok it) in
  if ret <? 0 then mret ret
  else
    modify (upd (set_recvbuf rb));;
    modify (emit (Register CB_CLIENT));;
    deliver it;;
    let ret := cret it in
    if ret <? 0 then mret ret
    else
      c ← gets conn;
      if sendsize c =? 0 then
        if _SS_ISNONBLOCK (s_flags c) then mret (- EINPROGRESS)
        else
          ret ← wait_on sendsem set_sendsem;
          (if ret <? 0 then modify (emit (Unregister CB_CLIENT)) else mret tt);;
          mret ret
      else mret ret.

(** [rpmsg_socket_connect]. *)
Definition rpmsg_socket_connect (s_type : Z) (addr : sockaddr_rpmsg)
    (addrlen : Z) : M Z :=
  c ← gets conn;
  if _SS_ISCONNECTED (s_flags c) then mret (- EISCONN)
  else
    fun env w =>
      let '(ret, w') := rpmsg_socket_setaddr addr addrlen (s_type =? SOCK_STREAM) w in
      if ret <? 0 then Ret ret w' env
      else rpmsg_socket_connect_internal env w'.

(** *** Receiving *)

(** The part of [rpmsg_socket_recvmsg] that reads the circular buffer
    under the recv lock; its result is [ret] at [if (ret > 0) goto out].
    [datalen] is read as the little-endian value of the bytes the first
    read delivered. *)
Definition recvmsg_read (s_type : Z) (buf : N) (len : Z) (w : world)
  : Z * world :=
  let c := conn w in
  if negb (s_type =? SOCK_STREAM) then
    let '(hdr, rb1) := circbuf_read (recvbuf c) sizeof_uint32 in
    let ret := Z.of_nat (length hdr) in
    if 0 <? ret then
      let datalen := le_val hdr in
      let '(bytes, rb2) := circbuf_read rb1 (Z.min datalen len) in
      let ret := Z.of_nat (length bytes) in
      let rb3 := if (0 <? ret) && (ret <? datalen)
                 then circbuf_skip rb2 (datalen - ret) else rb2 in
      let w := set_mem (mem_write buf bytes (mem w)) w in
      let w := upd (set_recvbuf rb3) w in
      let w := upd (fun c => set_recvpos
                    (U32.add (recvpos c) (datalen + sizeof_uint32)) c) w in
      (ret, w)
    else (ret, w)
  else
    let '(bytes, rb) := circbuf_read (recvbuf c) len in
    let ret := Z.of_nat (length bytes) in
    let w := set_mem (mem_write buf bytes (mem w)) w in
    let w := upd (set_recvbuf rb) w in
    let w := upd (fun c => set_recvpos
                  (U32.add (recvpos c) (if 0 <? ret then ret else 0)) c) w in
    (ret, w).

(** [rpmsg_socket_recvmsg] from its entry to the label [out]: the value of
    [ret] there. *)
Definition recvmsg_body (s_type : Z) (msg : msghdr) (flags : Z) : M Z :=
  let buf := iov_base (msg_iov0 msg) in
  let len := iov_len (msg_iov0 msg) in
  fun env w =>
    let '(ret, w) := recvmsg_read s_type buf len w in
    if 0 <? ret then Ret ret w env
    else if negb (ept_alive (conn w)) then
      (* return EOF if lower IPC closed *)
      Ret 0 w env
    else if _SS_ISNONBLOCK (s_flags (conn w))
            || negb (Z.land flags MSG_DONTWAIT =? 0) then
      Ret (- EAGAIN) w env
    else
      let w := upd (set_recvdata (Some buf)) w in
      let w := upd (set_recvlen len) w in
      let w := upd (set_recvsem 0) w in
      (ret ← wait_on recvsem set_recvsem;
       c ← gets conn;
       let ret := if negb (ept_alive c) then - ECONNRESET else ret in
       match recvdata c with
       | None => mret (U32.to_ssize (recvlen c))
       | Some _ => modify (upd (set_recvdata None));; mret ret
       end) env w.

(** The message header after [rpmsg_socket_getaddr(conn, from, fromlen)]. *)
Definition msg_with_from (c : rpmsg_socket_conn_s) (msg : msghdr) : msghdr :=
  let '(_, from, fromlen) :=
    rpmsg_socket_getaddr c (msg_name msg) (msg_namelen msg) in
  mk_msghdr from fromlen (msg_iov msg) (msg_iovlen msg).

(** [rpmsg_socket_recvmsg]: the result and the message header as the call
    leaves it. *)
Definition rpmsg_socket_recvmsg (s_type : Z) (msg : msghdr) (flags : Z)
  : M (Z * msghdr) :=
  c ← gets conn;
  ret ← (if negb (s_type =? SOCK_STREAM) && _SS_ISBOUND (s_flags c)
            && negb (_SS_ISCONNECTED (s_flags c))
         then rpmsg_socket_connect_internal else mret 0);
  if ret <? 0 then mret (ret, msg)
  else
    c ← gets conn;
    if negb (_SS_ISCONNECTED (s_flags c)) then mret (- EISCONN, msg)
    else
      ret ← recvmsg_body s_type msg flags;
      if 0 <? ret then
        modify rpmsg_socket_wakeup;;
        c ← gets conn;
        mret (ret, msg_with_from c msg)
      else mret (ret, msg).

(** *** Sending *)

(** [rpmsg_socket_get_iovlen]. *)
Definition rpmsg_socket_get_iovlen (buf : list iovec) (iovcnt : Z) : Z :=
  fold_left (fun len b => U32.add len (iov_len b))
            (take (Z.to_nat iovcnt) buf) 0.

(** [return written ? written : ret] *)
Definition written_or (written ret : Z) : Z :=
  if written =? 0 then ret else U32.to_ssize written.

(** The copy loop of [rpmsg_socket_send_continuous]: [need] bytes are
    taken from the scatter list, starting [offset] bytes into its first
    entry; the result is the bytes, and the list and offset the loop
    leaves behind.  An entry is left as soon as it is used up; the loop
    ends inside an entry only when the block is complete. *)
Fixpoint send_gather (m : gmap N (list byte)) (buf : list iovec)
    (offset need : Z) : list byte * (list iovec * Z) :=
  if need <=? 0 then ([], (buf, offset))
  else
    match buf with
    | [] => ([], ([], offset))
    | b :: rest =>
        let chunk := Z.min need (U32.sub (iov_len b) offset) in
        let bytes := mem_read (iov_base b) offset chunk m in
        let offset' := U32.add offset chunk in
        if offset' =? iov_len b then
          let '(more, st) := send_gather m rest 0 (need - chunk) in
          (bytes ++ more, st)
        else (bytes, (buf, offset'))
    end.

(** The section of [rpmsg_socket_send_continuous] that runs under the send
    lock once a TX buffer of [ipcsize] bytes is there: the block is sized,
    the frame filled, and the positions advanced.  The result is the block
    length, the frame, and the scatter list and offset left. *)
Definition send_continuous_tx (len written : Z) (buf : list iovec)
    (offset ipcsize : Z) (w : world)
  : Z * frame * (list iovec * Z) * world :=
  let block := Z.min (U32.sub len written) (rpmsg_socket_get_space (conn w)) in
  let block := Z.min block (U32.sub ipcsize sizeof_data_s) in
  let '(data, st) := send_gather (mem w) buf offset block in
  let f := DATA (recvpos (conn w)) block data in
  let w := upd (fun c => set_lastpos (recvpos c) c) w in
  let w := upd (fun c => set_sendpos (U32.add (sendpos c) block) c) w in
  (block, f, st, w).

(** The loop of [rpmsg_socket_send_continuous]; each turn that goes on
    takes one item of the script, for the wait or for the TX buffer and the
    result of [rpmsg_sendto_nocopy]. *)
Fixpoint send_continuous_loop (nonblock : bool) (len : Z) (buf : list iovec)
    (offset written ret : Z) (env : list env_item) (w : world) {struct env}
  : res Z :=
  if written <? len then
    let block := Z.min (U32.sub len written) (rpmsg_socket_get_space (conn w)) in
    if block =? 0 then
      if negb nonblock then
        match env with
        | [] => Pend w
        | it :: env' =>
            match sem_wait sendsem set_sendsem it w with
            | None => Pend (run_events (ev it) w)
            | Some (ret, w) =>
                let ret := if negb (ept_alive (conn w)) then - ECONNRESET else ret in
                if ret <? 0 then Ret (written_or written ret) w env'
                else send_continuous_loop nonblock len buf offset written ret env' w
            end
        end
      else Ret (written_or written (- EAGAIN)) w env
    else
      match env with
      | [] => Pend w
      | it :: env' =>
          let w := run_events (ev it) w in
          match txbuf it with
          | None => Ret (written_or written (- EINVAL)) w env'
          | Some ipcsize =>
              let '(block, f, st, w) :=
                send_continuous_tx len written buf offset ipcsize w in
              let ret := cret it in
              if ret <? 0 then
                Ret (written_or written ret) (emit ReleaseTx w) env'
              else
                send_continuous_loop nonblock len (fst st) (snd st)
                  (U32.add written block) ret env' (emit (Tx f) w)
          end
      end
  else Ret (written_or written ret) w env.

Definition rpmsg_socket_send_continuous (buf : list iovec) (iovcnt : Z)
    (nonblock : bool) : M Z :=
  send_continuous_loop nonblock (rpmsg_socket_get_iovlen buf iovcnt) buf 0 0 0.

(** The copy loop of [rpmsg_socket_send_single]. *)
Fixpoint send_single_gather (m : gmap N (list byte)) (buf : list iovec)
    (len written : Z) : list byte :=
  if written <? len then
    match buf with
    | [] => []
    | b :: rest =>
        if U32.sub len written <? iov_len b then
          mem_read (iov_base b) 0 (U32.sub len written) m
        else
          mem_read (iov_base b) 0 (iov_len b) m
            ++ send_single_gather m rest len (U32.add written (iov_len b))
    end
  else [].

(** The wait loop of [rpmsg_socket_send_single]: [None] when the space
    suffices, [Some ret] when the function returns [ret] from the loop. *)
Fixpoint send_single_wait (nonblock : bool) (total : Z)
    (env : list env_item) (w : world) {struct env} : res (option Z) :=
  let space := rpmsg_socket_get_space (conn w) in
  if U32.sub total sizeof_data_s <=? space then Ret None w env
  else if negb nonblock then
    match env with
    | [] => Pend w
    | it :: env' =>
        match sem_wait sendsem set_sendsem it w with
        | None => Pend (run_events (ev it) w)
        | Some (ret, w) =>
            let ret := if negb (ept_alive (conn w)) then - ECONNRESET else ret in
            if ret <? 0 then Ret (Some ret) w env'
            else send_single_wait nonblock total env' w
        end
    end
  else Ret (Some (- EAGAIN)) w env.

(** The section of [rpmsg_socket_send_single] under the send lock, with a
    TX buffer of [ipcsize] bytes: the final [total] and [len], the frame,
    and the world with the positions advanced. *)
Definition send_single_tx (total : Z) (buf : list iovec) (ipcsize : Z)
    (w : world) : Z * Z * frame * world :=
  let space := rpmsg_socket_get_space (conn w) in
  let total := Z.min total (U32.add space sizeof_data_s) in
  let total := Z.min total ipcsize in
  let len := U32.sub (U32.sub total sizeof_data_s) sizeof_uint32 in
  let data := le32_bytes len ++ send_single_gather (mem w) buf len 0 in
  let f := DATA (recvpos (conn w)) len data in
  let w := upd (fun c => set_lastpos (recvpos c) c) w in
  let w := upd (fun c => set_sendpos
                (U32.add (sendpos c) (U32.add len sizeof_uint32)) c) w in
  (total, len, f, w).

(** [rpmsg_socket_send_single]. *)
Definition rpmsg_socket_send_single (buf : list iovec) (iovcnt : Z)
    (nonblock : bool) : M Z :=
  fun env w =>
    let len := rpmsg_socket_get_iovlen buf iovcnt in
    let total := U32.add (U32.add len sizeof_data_s) sizeof_uint32 in
    if sendsize (conn w) <? total then Ret (- EFBIG) w env
    else
      match send_single_wait nonblock total env w with
      | Pend w => Pend w
      | Ret (Some ret) w env => Ret ret w env
      | Ret None w env =>
          match env with
          | [] => Pend w
          | it :: env' =>
              let w := run_events (ev it) w in
              match txbuf it with
              | None => Ret (- EINVAL) w env'
              | Some ipcsize =>
                  let '(_, len, f, w) := send_single_tx total buf ipcsize w in
                  let ret := cret it in
                  if ret <? 0 then Ret ret (emit ReleaseTx w) env'
                  else Ret (if 0 <? ret then U32.to_ssize len else ret)
                           (emit (Tx f) w) env'
              end
          end
      end.

(** [rpmsg_socket_sendmsg]. *)
Definition rpmsg_socket_sendmsg (s_type : Z) (msg : msghdr) (flags : Z) : M Z :=
  c ← gets conn;
  ret ← (if negb (_SS_ISCONNECTED (s_flags c)) then
           match msg_name msg with
           | None => mret (- ENOTCONN)
           | Some to => rpmsg_socket_connect s_type to (msg_namelen msg)
           end
         else mret 0);
  if ret <? 0 then mret ret
  else
    c ← gets conn;
    if negb (ept_alive c) then
      (* return ECONNRESET if lower IPC closed *)
      mret (- ECONNRESET)
    else
      let nonblock := _SS_ISNONBLOCK (s_flags c)
                      || negb (Z.land flags MSG_DONTWAIT =? 0) in
      if s_type =? SOCK_STREAM
      then rpmsg_socket_send_continuous (msg_iov msg) (msg_iovlen msg) nonblock
      else rpmsg_socket_send_single (msg_iov msg) (msg_iovlen msg) nonblock.

(** *** Accepting *)

(** What [rpmsg_socket_accept] leaves in its out-parameters: the
    connection attached to [newsock] (its type is [SOCK_STREAM]), [*addr]
    and [*addrlen]. *)
Record accepted := mk_accepted {
  acc_conn : option rpmsg_socket_conn_s;
  acc_addr : option sockaddr_rpmsg;
  acc_addrlen : Z
}.

(** The loop of [rpmsg_socket_accept]. *)
Fixpoint accept_loop (addr : option sockaddr_rpmsg) (addrlen : Z)
    (env : list env_item) (w : world) {struct env} : res (Z * accepted) :=
  match next w with
  | c :: q =>
      let w := set_next q w in
      let c := set_backlog (-2) c in
      let w := emit (OnChild (Register CB_ACCEPTED)) w in
      let done (c : rpmsg_socket_conn_s) (w : world) (env : list env_item) :=
        let '(_, a, l) := rpmsg_socket_getaddr c addr addrlen in
        Ret (0, mk_accepted (Some c) a l) w env in
      if sendsize c =? 0 then
        match env with
        | [] => Pend w
        | it :: env' =>
            match sem_wait sendsem set_sendsem it (child_world c w) with
            | None => Pend w
            | Some (_, wc) => done (conn wc) (merge_child w wc) env'
            end
        end
      else done c w env
  | [] =>
      if _SS_ISNONBLOCK (s_flags (conn w)) then
        Ret (- EAGAIN, mk_accepted None addr addrlen) w env
      else
        match env with
        | [] => Pend w
        | it :: env' =>
            match sem_wait recvsem set_recvsem it w with
            | None => Pend (run_events (ev it) w)
            | Some (ret, w) =>
                let ret := if backlog (conn w) =? -1 then - ECONNRESET else ret in
                if ret <? 0 then Ret (ret, mk_accepted None addr addrlen) w env'
                else accept_loop addr addrlen env' w
            end
        end
  end.

(** [rpmsg_socket_accept]. *)
Definition rpmsg_socket_accept (addr : option sockaddr_rpmsg) (addrlen : Z)
  : M (Z * accepted) :=
  fun env w =>
    if backlog (conn w) =? -1 then
      Ret (- ECONNRESET, mk_accepted None addr addrlen) w env
    else if negb (_SS_ISLISTENING (s_flags (conn w))) then
      Ret (- EINVAL, mk_accepted None addr addrlen) w env
    else accept_loop addr addrlen env w.

(** The world a call leaves behind, returned or pending. *)
Definition final {A : Type} (r : res A) : world :=
  match r with
  | Ret _ w _ => w
  | Pend w => w
  end.

(** ** Flow control: the invariant and the steps that touch it *)

(** The credit invariant: the bytes in flight, [sendpos - ackpos] in
    32-bit arithmetic, never exceed the window; before the SYNC frame the
    window is empty. *)
Definition flow_inv (c : rpmsg_socket_conn_s) : Prop :=
  U32.in_range (sendsize c)
  /\ U32.sub (sendpos c) (ackpos c) <= sendsize c
  /\ (_SS_ISCONNECTED (s_flags c) = false -> sendsize c = 0).








(** ** The life of a listener *)

(** Which [listen] calls a run contains: all of them, as the program
    allows ([rpmsg_socket_listen] stores whatever positive backlog it is
    given, at every call), or only those whose backlog is no smaller than
    the number of connections queued at the call. *)
Definition any_listen (w : world) (bl : Z) : Prop := True.

Definition roomy_listen (w : world) (bl : Z) : Prop :=
  Z.of_nat (length (next w)) <= bl.

(** Callbacks, [listen] calls and [accept] calls in any order, from a
    socket that has not listened yet; [ok] selects the [listen] calls. *)
Inductive listener_step (ok : world -> Z -> Prop) : world -> world -> Prop :=
| ls_event e w :
    listener_step ok w (handle_event e w)
| ls_listen s_type bl env w :
    ok w bl ->
    listener_step ok w (final (rpmsg_socket_listen s_type bl env w))
| ls_accept addr addrlen env w :
    listener_step ok w (final (rpmsg_socket_accept addr addrlen env w)).

Inductive listener_reach (ok : world -> Z -> Prop) : world -> Prop :=
| lr_init w :
    next w = [] -> backlog (conn w) = 0 -> listener_reach ok w
| lr_step w w' :
    listener_reach ok w -> listener_step ok w w' -> listener_reach ok w'.

(** The bound on the accept queue: a listener holds at most [backlog]
    connections, a socket that never listened at most one. *)
Definition queue_inv (w : world) : Prop :=
  (0 < backlog (conn w) -> Z.of_nat (length (next w)) <= backlog (conn w))
  /\ (backlog (conn w) = 0 -> Z.of_nat (length (next w)) <= 1).

(** What holds of a reader of buffer [buf], length [len], over user memory
    [m0]: before it has published its buffer nobody is known to the bridge
    and memory is untouched; after, either the buffer is still published
    and memory untouched, or the bridge has taken it and written at most
    [len] bytes to it, once. *)
Definition reader_before (m0 : gmap N (list byte)) (w : world) : Prop :=
  Forall (fun c => recvdata c = None) (next w)
  /\ recvdata (conn w) = None
  /\ mem w = m0.

Definition reader_during (buf : N) (len : Z) (m0 : gmap N (list byte))
    (w : world) : Prop :=
  Forall (fun c => recvdata c = None) (next w)
  /\ recvlen (conn w) <= len
  /\ ((recvdata (conn w) = Some buf /\ mem w = m0)
      \/ (recvdata (conn w) = None
          /\ exists bytes, Z.of_nat (length bytes) <= len
               /\ mem w = mem_write buf bytes m0)).

End Sockif.

(** A property of the world that a call keeps, whether it returns or is
    still pending when the script ends. *)
Definition call_keeps {A : Type} (P : world -> Prop) (m : M A) : Prop :=
  forall env w, P w ->
    match m env w with
    | Ret _ w' _ => P w'
    | Pend w' => P w'
    end.

(** ** What the peer sees of the ack helper *)

(** The DATA frames that a connection has handed to its own endpoint, in
    the order of the record. *)
Fixpoint data_frames (t : list effect) : list frame :=
  match t with
  | [] => []
  | Tx (DATA pos len data) :: t' => DATA pos len data :: data_frames t'
  | _ :: t' => data_frames t'
  end.

(** World [w] has sent the DATA frames of [w0] and no other, and reported
    the same receive position last. *)
Definition same_acks (w0 w : world) : Prop :=
  lastpos (conn w) = lastpos (conn w0)
  /\ data_frames (trace w) = data_frames (trace w0).

(** ** Datagram size: the words of the specification *)



(** ** A concrete platform and concrete sockets *)

Definition nucleo : config := {|
  CONFIG_NET_RPMSG_RXBUF_SIZE := 16;
  CONFIG_RPTUN_LOCAL_CPUNAME := "ap";
  RPMSG_SOCKET_CPU_SIZE := 16;
  RPMSG_SOCKET_NAME_SIZE := 16;
  AF_RPMSG := 45;
  SOL_SOCKET := 1;
  SO_PEERCRED := 19;
  sizeof_sockaddr_rpmsg := 34;
  sizeof_ucred := 12
|}.

(** A connected socket with a live endpoint on device ["cp"] and a receive
    buffer of 16 bytes that holds [data]. *)
Definition connected_conn (data : list byte) : rpmsg_socket_conn_s :=
  set_recvbuf (mk_circbuf 16 data)
    (set_ept_rdev (Some "cp"%string)
       (set_s_flags _SF_CONNECTED rpmsg_socket_alloc)).

Definition world_of (c : rpmsg_socket_conn_s) : world :=
  mk_world c [] ∅ [] 0 true.

(** A message header with one buffer, at address 1. *)
Definition msg_of_len (len : Z) : msghdr :=
  mk_msghdr None 0 [mk_iovec 1 len] 1.

(** A bound socket that listens with backlog 2; it has no endpoint, since
    [rpmsg_socket_listen] creates none. *)
Definition listener_conn : rpmsg_socket_conn_s :=
  set_backlog 2
    (set_s_flags (Z.lor _SF_BOUND _SF_LISTENING) rpmsg_socket_alloc).

(** An item of the script with no callback and no error. *)
Definition quiet : env_item := mk_item [] None true 0 None.

Definition ten_bytes : list byte :=
  [x01; x02; x03; x04; x05; x06; x07; x08; x09; x0a].

(** A stream reader with ten bytes buffered whose peer is still there, and
    one whose peer has unbound after sending them. *)
Definition alive_reader : world := world_of (connected_conn ten_bytes).

Definition orphan_reader : world :=
  world_of (set_unbind true (connected_conn ten_bytes)).

(** A message header with two buffers, at addresses 1 and 2, of which
    [msg_iovlen] announces both. *)
Definition msg_two_bufs : msghdr :=
  mk_msghdr None 0 [mk_iovec 1 4; mk_iovec 2 6] 2.

(** A receive buffer holding one datagram, ["abc"] behind its length. *)
Definition dgram_abc : list byte := [x03; x00; x00; x00; x61; x62; x63].

Definition dgram_reader : world := world_of (connected_conn dgram_abc).

(** A connected datagram socket whose peer announced a window of 4096
    bytes and has since unbound, and a message of 8192 bytes. *)
Definition orphan_sender : world :=
  world_of (set_unbind true (set_sendsize 4096 (connected_conn []))).





(** The listener above, with nothing queued, and the script of a blocked
    [accept] during which another task closes the socket, no timeout and
    no signal arriving. *)
Definition listener : world := world_of listener_conn.

Definition closed_meanwhile : list env_item :=
  [mk_item [EvClose] None true 0 None].

(** A fresh client socket with an endpoint, the same after the SYNC frame
    of a peer with a window of 4096 bytes, and after a [sendmsg] of 100
    bytes that got a TX buffer of 496 bytes. *)
Definition fresh_socket : world :=
  world_of (set_ept_rdev (Some "cp"%string) rpmsg_socket_alloc).




Definition one_tx : list env_item := [mk_item [] None true 112 (Some 496)].


(** A bound socket, the same after [listen] with backlog 2, and after a
    peer endpoint ["sk:svc"] on device ["cp"] was then bound to it. *)
Definition bound_socket : world :=
  world_of (set_s_flags _SF_BOUND rpmsg_socket_alloc).

Definition listening_socket : world :=
  final (rpmsg_socket_listen (cfg := nucleo) SOCK_STREAM 2 [quiet] bound_socket).

Definition one_queued : world :=
  handle_event (cfg := nucleo)
    (EvNsBind "cp" "sk:svc" (mk_ucred 7 0 0) true true true) listening_socket.

(** The same after a second peer endpoint was bound to it, and after a
    second [listen], now with backlog 1. *)
Definition two_queued : world :=
  handle_event (cfg := nucleo)
    (EvNsBind "cp" "sk:svc" (mk_ucred 8 0 0) true true true) one_queued.

Definition relistened : world :=
  final (rpmsg_socket_listen (cfg := nucleo) SOCK_STREAM 1 [quiet] two_queued).

(** * The rest of the socket interface

    The functions of the file that the properties of the specification do
    not need: setup, reference counting, the address calls, [poll] and
    [ioctl]; and the vocabulary for what the send and receive paths carry. *)

(** Modelled from the spec: [EBUSY], no free poll slot. *)
Definition EBUSY : Z := 16.
(** Modelled from the spec: [ENOTTY], unknown ioctl command. *)
Definition ENOTTY : Z := 25.
(** Modelled from the spec: the hangup event. *)
Definition POLLHUP : Z := 0x10.
(** Modelled from the spec: the capability that [sockcaps] advertises. *)
Definition SOCKCAP_NONBLOCKING : Z := 1.

(** Modelled from the spec: the three [ioctl] commands the file knows; any
    other command number is [IOC_OTHER]. *)
Inductive ioctl_cmd :=
| FIONREAD
| FIONSPACE
| FIOC_FILEPATH
| IOC_OTHER (cmd : Z).

(** What [ioctl] leaves where [arg] points: an [int], the characters of a
    path ([None]: nothing written), or nothing. *)
Inductive ioctl_out :=
| OutInt (v : Z)
| OutPath (s : option string)
| OutNone.

Definition RPMSG_SOCKET_NAME_ID_LEN : nat := 13.

(** [snprintf(buf, n, ...)] for the formatted text [s]: at most [n - 1]
    characters arrive; with [n = 0] nothing is written. *)
Definition snprintf (n : nat) (s : string) : option string :=
  match n with
  | O => None
  | S k => Some (String.substring 0 k s)
  end.

(** The conversion [%llx] of a 64-bit number: lower-case hexadecimal digits
    without leading zeros. *)
Fixpoint hex_of (fuel : nat) (n : Z) : string :=
  match fuel with
  | O => ""
  | S f =>
      (if n <? 16 then "" else hex_of f (n / 16))
      ++ String.substring (Z.to_nat (n mod 16)) 1 "0123456789abcdef"
  end.

Definition PRIx64 (n : Z) : string := hex_of 16 n.

(** The text in [conn->nameid]: empty, or what
    [snprintf(conn->nameid, sizeof(conn->nameid), ":%llx", id)] left. *)
Definition nameid_text (id : option Z) : string :=
  match id with
  | None => ""
  | Some i => String.substring 0 (RPMSG_SOCKET_NAME_ID_LEN - 1) (":" ++ PRIx64 i)
  end.

(** The first free slot of [conn->fds], as the setup loop of
    [rpmsg_socket_poll] finds it. *)
Fixpoint poll_free_slot (slots : list (option N)) : option nat :=
  match slots with
  | [] => None
  | None :: _ => Some 0%nat
  | Some _ :: rest => option_map S (poll_free_slot rest)
  end.

(** The first slot that holds the poll structure [fds], as the teardown
    loop finds it. *)
Fixpoint poll_slot_of (fds : N) (slots : list (option N)) : option nat :=
  match slots with
  | [] => None
  | s :: rest =>
      if decide (s = Some fds) then Some 0%nat
      else option_map S (poll_slot_of fds rest)
  end.

(** The bytes a scatter list points at, entry after entry. *)
Definition iov_bytes (m : gmap N (list byte)) (buf : list iovec) : list byte :=
  flat_map (fun b => mem_read (iov_base b) 0 (iov_len b) m) buf.

(** What is left of a scatter list from [offset] bytes into its first
    entry. *)
Definition iov_rest (m : gmap N (list byte)) (buf : list iovec) (offset : Z)
  : list byte :=
  match buf with
  | [] => []
  | b :: rest =>
      mem_read (iov_base b) offset (iov_len b - offset) m ++ iov_bytes m rest
  end.

(** The payload bytes of the DATA frames that a connection has handed to
    its own endpoint, in the order of the record. *)
Fixpoint sent_data (t : list effect) : list byte :=
  match t with
  | [] => []
  | Tx (DATA _ _ data) :: t' => data ++ sent_data t'
  | _ :: t' => sent_data t'
  end.

(** A stream DATA frame as the send path builds it: the length field is the
    length of the payload. *)
Definition stream_frame (f : frame) : Prop :=
  match f with
  | SYNC _ _ _ _ => False
  | DATA _ mlen data => mlen = Z.of_nat (length data)
  end.

Definition frame_payload (f : frame) : list byte :=
  match f with
  | SYNC _ _ _ _ => []
  | DATA _ _ data => data
  end.

Section SockifRest.

Context `{cfg : config}.

(** [PATH_MAX], the size of the buffer that [FIOC_FILEPATH] fills. *)
Variable PATH_MAX : nat.

(** [rpmsg_socket_setup]: the result and [psock->s_conn]; [alloc_ok] tells
    whether [kmm_zalloc] delivers. *)
Definition rpmsg_socket_setup (alloc_ok : bool)
  : Z * option rpmsg_socket_conn_s :=
  if alloc_ok then (0, Some rpmsg_socket_alloc) else (- ENOMEM, None).

Definition rpmsg_socket_sockcaps : Z := SOCKCAP_NONBLOCKING.

(** [rpmsg_socket_addref]: [conn->crefs++] on a [uint16_t]. *)
Definition rpmsg_socket_addref (w : world) : world :=
  upd (fun c => set_crefs ((crefs c + 1) mod 2 ^ 16) c) w.

Definition rpmsg_socket_bind (addr : sockaddr_rpmsg) (addrlen : Z) (w : world)
  : Z * world :=
  rpmsg_socket_setaddr addr addrlen false w.

(** [rpmsg_socket_getsockname]: as [rpmsg_socket_getaddr], its result and
    what [*addr] and [*addrlen] hold afterwards. *)
Definition rpmsg_socket_getsockname (c : rpmsg_socket_conn_s)
    (addr : option sockaddr_rpmsg) (addrlen : Z)
  : Z * option sockaddr_rpmsg * Z :=
  let '(ret, a, l) := rpmsg_socket_getaddr c addr addrlen in
  if 0 <=? ret then
    (ret,
     option_map
       (fun a => mk_sockaddr (rp_family a)
                   (strlcpy CONFIG_RPTUN_LOCAL_CPUNAME RPMSG_SOCKET_CPU_SIZE)
                   (rp_name a)) a,
     l)
  else (ret, a, l).

Definition rpmsg_socket_getconnname (c : rpmsg_socket_conn_s)
    (addr : option sockaddr_rpmsg) (addrlen : Z)
  : Z * option sockaddr_rpmsg * Z :=
  rpmsg_socket_getaddr c addr addrlen.

(** [rpmsg_socket_poll].  The slots [conn->fds] are passed along with the
    world: [slots] is the array, [fds] the address of the poll structure and
    [priv] its field [fds->priv] ([Some i] points at slot [i]).  The result
    is the return value, the array and [fds->priv] afterwards, and the
    world. *)
Definition rpmsg_socket_poll (slots : list (option N)) (fds : N)
    (priv : option nat) (setup : bool) (w : world)
  : Z * (list (option N) * option nat) * world :=
  let c := conn w in
  if setup then
    match poll_free_slot slots with
    | None => (- EBUSY, (slots, None), w)
    | Some i =>
        let st := (<[i := Some fds]> slots, Some i) in
        (* Immediately notify on any of the requested events *)
        if _SS_ISLISTENING (s_flags c) then
          if backlog c =? -1 then (- ECONNRESET, st, w)
          else
            let eventset :=
              match next w with
              | [] => 0
              | _ :: _ => Z.lor 0 POLLIN
              end in
            (0, st, rpmsg_socket_poll_notify eventset w)
        else if _SS_ISCONNECTED (s_flags c) then
          let eventset := if negb (ept_alive c) then Z.lor 0 POLLHUP else 0 in
          let eventset := if 0 <? rpmsg_socket_get_space c
                          then Z.lor eventset POLLOUT else eventset in
          let eventset := if negb (circbuf_is_empty (recvbuf c))
                          then Z.lor eventset POLLIN else eventset in
          (0, st, rpmsg_socket_poll_notify eventset w)
        else
          let eventset := if negb (ept_alive c) then Z.lor 0 POLLHUP else 0 in
          (0, st, rpmsg_socket_poll_notify eventset w)
    end
  else
    match priv with
    | Some _ =>
        match poll_slot_of fds slots with
        | Some i => (0, (<[i := None]> slots, None), w)
        | None => (0, (slots, priv), w)
        end
    | None => (0, (slots, priv), w)
    end.

(** [rpmsg_socket_path]: what [snprintf] writes to a buffer of [len]
    characters. *)
Definition rpmsg_socket_path (c : rpmsg_socket_conn_s) (len : nat)
  : option string :=
  if negb (backlog c =? 0) then
    (* Server *)
    snprintf len
      ("rpmsg:[" ++ CONFIG_RPTUN_LOCAL_CPUNAME ++ ":[" ++ rp_name (rpaddr c)
       ++ nameid_text (nameid c) ++ "]<->" ++ rp_cpu (rpaddr c) ++ "]")
  else
    (* Client *)
    snprintf len
      ("rpmsg:[" ++ CONFIG_RPTUN_LOCAL_CPUNAME ++ "<->" ++ rp_cpu (rpaddr c)
       ++ ":[" ++ rp_name (rpaddr c) ++ nameid_text (nameid c) ++ "]]").

(** [rpmsg_socket_ioctl]: the result and what is stored through [arg]; the
    two numbers are stored into an [int]. *)
Definition rpmsg_socket_ioctl (cmd : ioctl_cmd) (w : world) : Z * ioctl_out :=
  match cmd with
  | FIONREAD => (OK, OutInt (U32.to_ssize (circbuf_used (recvbuf (conn w)))))
  | FIONSPACE => (OK, OutInt (U32.to_ssize (rpmsg_socket_get_space (conn w))))
  | FIOC_FILEPATH => (OK, OutPath (rpmsg_socket_path (conn w) PATH_MAX))
  | IOC_OTHER _ => (- ENOTTY, OutNone)
  end.

(** ** The life of any socket of the file *)





End SockifRest.


(** ** More concrete inputs *)

(** An item of the script during which the peer's SYNC frame arrives. *)
Definition sync_item : env_item :=
  mk_item [EvRecv (SYNC 4096 7 0 0)] None true 0 None.

(** Two poll slots, the first taken by the poll structure at address 5. *)
Definition two_slots : list (option N) := [Some 5%N; None].

(** User memory with the five bytes of ["hello"] at address 1, a connected
    stream socket over it whose peer announced a window of 4096 bytes, and
    a message of these five bytes. *)
Definition hello : list byte := [x68; x65; x6c; x6c; x6f].

Definition hello_sender : world :=
  set_mem (<[1%N := hello]> ∅) (world_of (set_sendsize 4096 (connected_conn []))).

Definition hello_msg : msghdr := mk_msghdr None 0 [mk_iovec 1 5] 1.



(** Items of the script that hand out a TX buffer of 496 bytes: with it the
    transmission succeeds, or fails with [ENOMEM]. *)
Definition tx_item : env_item := mk_item [] None true 0 (Some 496).


(** * Properties *)

(** ** Arithmetic facts *)

Lemma u32_wrap_range z : U32.in_range (U32.wrap z).
Proof. unfold U32.in_range, U32.wrap, U32.modulus. apply Z.mod_pos_bound. lia. Qed.

Lemma u32_wrap_small z : U32.in_range z -> U32.wrap z = z.
Proof.
  unfold U32.in_range, U32.wrap, U32.modulus. intros H. apply Z.mod_small. lia.
Qed.


Lemma u32_sub_range a b : U32.in_range (U32.sub a b).
Proof. apply u32_wrap_range. Qed.

Lemma u32_add_0_r a : U32.in_range a -> U32.add a 0 = a.
Proof. intros H. unfold U32.add. rewrite Z.add_0_r. by apply u32_wrap_small. Qed.

(** Advancing a position by [n] moves its distance to any base by [n], as
    long as the new distance still fits. *)
Lemma u32_sub_add_l a b n :
  0 <= n -> U32.sub a b + n < U32.modulus ->
  U32.sub (U32.add a n) b = U32.sub a b + n.
Proof.
  unfold U32.sub, U32.add, U32.wrap, U32.modulus. intros Hn Hlt.
  assert (Hd : 0 <= (a - b) mod 2 ^ 32 < 2 ^ 32) by (apply Z.mod_pos_bound; lia).
  rewrite Zminus_mod_idemp_l.
  replace (a + n - b) with ((a - b) + n) by lia.
  rewrite <- Zplus_mod_idemp_l.
  apply Z.mod_small. lia.
Qed.




Lemma u32_to_ssize_le x : U32.to_ssize x <= x.
Proof. unfold U32.to_ssize, U32.modulus. destruct (x <? 2 ^ 31); lia. Qed.

Lemma byte_val_range b : 0 <= byte_val b < 256.
Proof.
  unfold byte_val. pose proof (Byte.to_N_bounded b). lia.
Qed.


Lemma le_val_range l : 0 <= le_val l < 256 ^ Z.of_nat (length l).
Proof.
  induction l as [|b l IH]; cbn [le_val length].
  - simpl. lia.
  - pose proof (byte_val_range b).
    rewrite Nat2Z.inj_succ, Z.pow_succ_r by lia. nia.
Qed.



(** ** Tactics for the script monad *)

Ltac unfold_m :=
  unfold deliver in *;
  unfold mbind, mret, M_bind, M_ret, gets, modify in *.

Ltac case_if :=
  match goal with
  | |- context [if ?b then _ else _] =>
      let E := fresh "E" in destruct b eqn:E
  end.

(** ** Socket options *)

(** C10: for [SOL_SOCKET]/[SO_PEERCRED], [getsockopt] succeeds and copies
    the stored peer credentials exactly when [*value_len] equals
    [sizeof(struct ucred)]; any other length, larger ones included, is
    answered with [EINVAL] and nothing is copied. *)
Theorem getsockopt_peercred_exact_length `{cfg : config} (value_len : Z) (w : world) :
  (value_len = sizeof_ucred <->
     rpmsg_socket_getsockopt SOL_SOCKET SO_PEERCRED value_len w
       = (OK, Some (cred (conn w))))
  /\ (value_len <> sizeof_ucred <->
     rpmsg_socket_getsockopt SOL_SOCKET SO_PEERCRED value_len w
       = (- EINVAL, None)).
Proof.
  unfold rpmsg_socket_getsockopt. rewrite !Z.eqb_refl. cbn [andb].
  destruct (value_len =? sizeof_ucred) eqn:E; cbn [negb].
  - apply Z.eqb_eq in E. split; split; intros H; try done; try lia.
  - apply Z.eqb_neq in E. split; split; intros H; try done.
Qed.

(** ** Entry checks of recvmsg *)

Lemma circbuf_read_empty (c : circbuf_s) (n : Z) :
  cb_data c = [] -> circbuf_read c n = ([], c).
Proof.
  destruct c as [sz d]. cbn. intros ->. unfold circbuf_read. cbn.
  by rewrite take_nil, drop_nil.
Qed.

(** What the buffer read of [recvmsg] leaves alone. *)
Lemma recvmsg_read_keeps `{cfg : config} (s_type : Z) (buf : N) (len : Z) (w : world) :
  let w1 := snd (recvmsg_read s_type buf len w) in
  s_flags (conn w1) = s_flags (conn w)
  /\ ept_rdev (conn w1) = ept_rdev (conn w)
  /\ unbind (conn w1) = unbind (conn w)
  /\ lastpos (conn w1) = lastpos (conn w)
  /\ recvdata (conn w1) = recvdata (conn w)
  /\ cb_size (recvbuf (conn w1)) = cb_size (recvbuf (conn w))
  /\ (sendsize (conn w1), sendpos (conn w1), ackpos (conn w1))
     = (sendsize (conn w), sendpos (conn w), ackpos (conn w))
  /\ backlog (conn w1) = backlog (conn w)
  /\ trace w1 = trace w /\ next w1 = next w.
Proof.
  unfold recvmsg_read.
  destruct (negb (s_type =? SOCK_STREAM)).
  - destruct (circbuf_read (recvbuf (conn w)) sizeof_uint32) as [hdr rb1] eqn:E1.
    unfold circbuf_read in E1. injection E1 as <- <-.
    destruct (0 <? Z.of_nat (length (take (Z.to_nat sizeof_uint32)
                                          (cb_data (recvbuf (conn w)))))).
    + cbn. case_if; cbn; done.
    + cbn. done.
  - cbn. done.
Qed.

Lemma recvmsg_read_alive `{cfg : config} (s_type : Z) (buf : N) (len : Z) (w : world) :
  ept_alive (conn (snd (recvmsg_read s_type buf len w))) = ept_alive (conn w).
Proof.
  pose proof (recvmsg_read_keeps s_type buf len w) as (_ & Hr & Hu & _).
  cbn zeta in Hr, Hu. unfold ept_alive. by rewrite Hr, Hu.
Qed.

Lemma recvmsg_read_stream_empty `{cfg : config} (buf : N) (len : Z) (w : world) :
  cb_data (recvbuf (conn w)) = [] ->
  fst (recvmsg_read SOCK_STREAM buf len w) = 0
  /\ mem (snd (recvmsg_read SOCK_STREAM buf len w)) = mem w
  /\ recvbuf (conn (snd (recvmsg_read SOCK_STREAM buf len w))) = recvbuf (conn w).
Proof.
  intros Hb. unfold recvmsg_read.
  cbn [SOCK_STREAM Z.eqb Pos.eqb negb].
  rewrite (circbuf_read_empty _ _ Hb). cbn. done.
Qed.

(** On a connected socket [recvmsg] is its body followed by the ack
    helper. *)
Lemma recvmsg_connected `{cfg : config}
    (s_type : Z) (msg : msghdr) (flags : Z) (env : list env_item) (w : world) :
  _SS_ISCONNECTED (s_flags (conn w)) = true ->
  rpmsg_socket_recvmsg s_type msg flags env w =
    match recvmsg_body s_type msg flags env w with
    | Ret ret wm env' =>
        if 0 <? ret
        then Ret (ret, msg_with_from (conn (rpmsg_socket_wakeup wm)) msg)
                 (rpmsg_socket_wakeup wm) env'
        else Ret (ret, msg) wm env'
    | Pend w' => Pend w'
    end.
Proof.
  intros Hc. unfold rpmsg_socket_recvmsg. unfold_m.
  rewrite Hc. cbn [negb]. rewrite andb_false_r. cbn beta iota.
  rewrite Z.ltb_irrefl. rewrite Hc. cbn [negb].
  destruct (recvmsg_body s_type msg flags env w) as [ret wm env'|w']; [|done].
  by destruct (0 <? ret).
Qed.

(** C8: on a connected stream socket whose receive buffer is empty and
    whose endpoint is gone or unbound, [recvmsg] returns 0 at once: it
    takes nothing from the script, so it neither waits nor fails, and
    sends and copies nothing. *)
Theorem recvmsg_stream_eof_when_peer_closed `{cfg : config}
    (msg : msghdr) (flags : Z) (env : list env_item) (w : world) :
  _SS_ISCONNECTED (s_flags (conn w)) = true ->
  cb_data (recvbuf (conn w)) = [] ->
  ept_alive (conn w) = false ->
  exists w',
    rpmsg_socket_recvmsg SOCK_STREAM msg flags env w = Ret (0, msg) w' env
    /\ trace w' = trace w /\ mem w' = mem w /\ next w' = next w
    /\ recvbuf (conn w') = recvbuf (conn w)
    /\ lastpos (conn w') = lastpos (conn w).
Proof.
  intros Hc Hb Ha.
  set (buf := iov_base (msg_iov0 msg)). set (len := iov_len (msg_iov0 msg)).
  pose proof (recvmsg_read_stream_empty buf len w Hb) as (Hret & Hmem & Hrb).
  pose proof (recvmsg_read_keeps SOCK_STREAM buf len w)
    as (Hf & _ & _ & Hl & _ & _ & _ & _ & Ht & Hn).
  pose proof (recvmsg_read_alive SOCK_STREAM buf len w) as Hal.
  cbn zeta in *.
  exists (snd (recvmsg_read SOCK_STREAM buf len w)).
  split; [|done].
  rewrite (recvmsg_connected _ _ _ _ _ Hc).
  unfold recvmsg_body. fold buf len.
  destruct (recvmsg_read SOCK_STREAM buf len w) as [ret w1] eqn:E.
  cbn [fst snd] in *. subst ret. rewrite Z.ltb_irrefl.
  rewrite Hal, Ha. cbn [negb]. rewrite Z.ltb_irrefl. reflexivity.
Qed.

(** The same on a concrete socket: connected, nothing buffered, the peer
    unbound. *)
Lemma recvmsg_stream_eof_when_peer_closed_witness :
  exists w',
    rpmsg_socket_recvmsg (cfg := nucleo) SOCK_STREAM (msg_of_len 10) 0 []
      orphan_sender = Ret (0, msg_of_len 10) w' []
    /\ trace w' = trace orphan_sender /\ mem w' = mem orphan_sender
    /\ next w' = next orphan_sender
    /\ recvbuf (conn w') = recvbuf (conn orphan_sender)
    /\ lastpos (conn w') = lastpos (conn orphan_sender).
Proof.
  apply (recvmsg_stream_eof_when_peer_closed (cfg := nucleo)
           (msg_of_len 10) 0 [] orphan_sender); reflexivity.
Defined.

(** [circbuf_resize] to the configured size, when the allocator delivers. *)
Lemma resize_ok `{cfg : config} (rb : circbuf_s) :
  exists rb', circbuf_resize rb CONFIG_NET_RPMSG_RXBUF_SIZE true = (0, rb')
              /\ cb_size rb' = CONFIG_NET_RPMSG_RXBUF_SIZE.
Proof.
  unfold circbuf_resize.
  destruct (Z.eqb_spec CONFIG_NET_RPMSG_RXBUF_SIZE (cb_size rb)) as [E|E].
  - by exists rb.
  - cbn [negb andb]. eexists. split; [reflexivity|done].
Qed.






(** ** The ack helper *)

(** What the ack helper does, told from outside. *)
Lemma wakeup_spec `{cfg : config} (wm : world) :
  let w' := rpmsg_socket_wakeup wm in
  recvpos (conn w') = recvpos (conn wm)
  /\ mem w' = mem wm /\ next w' = next wm
  /\ (if ept_alive (conn wm)
          && (circbuf_size (recvbuf (conn wm)) / 2
                <? U32.sub (recvpos (conn wm)) (lastpos (conn wm)))
      then lastpos (conn w') = recvpos (conn wm)
           /\ trace w' = trace wm ++ [Tx (DATA (recvpos (conn wm)) 0 [])]
      else lastpos (conn w') = lastpos (conn wm) /\ trace w' = trace wm).
Proof.
  unfold rpmsg_socket_wakeup.
  destruct (ept_alive (conn wm)); cbn [negb andb]; [|done].
  case_if; cbn; done.
Qed.

(** ** Datagram receive *)


(** C3 at a buffer of length 0: the code deviates from the claim there.
    A datagram socket holds the datagram ["abc"] behind its length prefix;
    [recvmsg] with [iov_len = 0] and [MSG_DONTWAIT] advances [recvpos] by
    [3 + 4 = 7] but does not drop the three bytes: they stay in the
    receive buffer, where the next call will read them as a length prefix
    ([ret > 0] guards the [circbuf_skip], and [ret] is 0 here). *)
Theorem recvmsg_dgram_zero_length_leaves_payload :
  exists w',
    rpmsg_socket_recvmsg (cfg := nucleo) SOCK_DGRAM (msg_of_len 0) MSG_DONTWAIT
      [] dgram_reader = Ret (- EAGAIN, msg_of_len 0) w' []
    /\ recvpos (conn w') = U32.add (recvpos (conn dgram_reader)) (3 + 4)
    /\ cb_data (recvbuf (conn w')) = [x61; x62; x63]
    /\ cb_data (recvbuf (conn w')) <> [].
Proof.
  eexists. split; [vm_compute; reflexivity|].
  vm_compute. repeat split; congruence.
Qed.

(** ** Datagram send: the size check *)

Lemma fold_add_le (l : list iovec) (acc : Z) :
  Forall (fun b => 0 <= iov_len b) l ->
  acc <= fold_left (fun len b => len + iov_len b) l acc.
Proof.
  revert acc. induction l as [|b l IH]; intros acc Hl; cbn [fold_left]; [lia|].
  inversion Hl as [|? ? Hb Hl']; subst.
  specialize (IH (acc + iov_len b) Hl'). lia.
Qed.

Lemma fold_add32_exact (l : list iovec) (acc : Z) :
  0 <= acc ->
  Forall (fun b => 0 <= iov_len b) l ->
  fold_left (fun len b => len + iov_len b) l acc < U32.modulus ->
  fold_left (fun len b => U32.add len (iov_len b)) l acc
  = fold_left (fun len b => len + iov_len b) l acc.
Proof.
  revert acc. induction l as [|b l IH]; intros acc Ha Hl Hlt; cbn [fold_left] in *;
    [done|].
  inversion Hl as [|? ? Hb Hl']; subst.
  pose proof (fold_add_le l (acc + iov_len b) Hl').
  unfold U32.add at 2. rewrite u32_wrap_small by (unfold U32.in_range; lia).
  apply IH; [lia|done|done].
Qed.


(** On a connected socket with a live endpoint [sendmsg] is the send path
    of its type. *)
Lemma sendmsg_connected_alive `{cfg : config}
    (s_type : Z) (msg : msghdr) (flags : Z) (env : list env_item) (w : world) :
  _SS_ISCONNECTED (s_flags (conn w)) = true ->
  ept_alive (conn w) = true ->
  rpmsg_socket_sendmsg s_type msg flags env w =
    (if s_type =? SOCK_STREAM
     then rpmsg_socket_send_continuous (msg_iov msg) (msg_iovlen msg)
     else rpmsg_socket_send_single (msg_iov msg) (msg_iovlen msg))
      (_SS_ISNONBLOCK (s_flags (conn w))
       || negb (Z.land flags MSG_DONTWAIT =? 0)) env w.
Proof.
  intros Hc Ha. unfold rpmsg_socket_sendmsg. unfold_m.
  rewrite Hc. cbn [negb]. rewrite Z.ltb_irrefl. rewrite Ha. cbn [negb].
  by destruct (s_type =? SOCK_STREAM).
Qed.






(** ** accept and the closing of a listener *)

(** [accept] on a socket tagged listen-closed returns [ECONNRESET] at
    entry. *)
Lemma accept_listen_closed_at_entry `{cfg : config}
    (addr : option sockaddr_rpmsg) (addrlen : Z) (env : list env_item) (w : world) :
  backlog (conn w) = -1 ->
  rpmsg_socket_accept addr addrlen env w
  = Ret (- ECONNRESET, mk_accepted None addr addrlen) w env.
Proof. intros Hb. unfold rpmsg_socket_accept. by rewrite Hb. Qed.

(** [accept] on a socket that is not listening returns [EINVAL]. *)
Lemma accept_not_listening `{cfg : config}
    (addr : option sockaddr_rpmsg) (addrlen : Z) (env : list env_item) (w : world) :
  backlog (conn w) <> -1 ->
  _SS_ISLISTENING (s_flags (conn w)) = false ->
  rpmsg_socket_accept addr addrlen env w
  = Ret (- EINVAL, mk_accepted None addr addrlen) w env.
Proof.
  intros Hb Hl. unfold rpmsg_socket_accept.
  apply Z.eqb_neq in Hb. by rewrite Hb, Hl.
Qed.

(** A blocked [accept] that wakes up and finds the tag listen-closed
    returns [ECONNRESET], whatever the wait returned. *)
Lemma accept_listen_closed_after_wake `{cfg : config}
    (addr : option sockaddr_rpmsg) (addrlen : Z) (it : env_item)
    (env : list env_item) (w w1 : world) (ret : Z) :
  backlog (conn w) <> -1 ->
  _SS_ISLISTENING (s_flags (conn w)) = true ->
  _SS_ISNONBLOCK (s_flags (conn w)) = false ->
  next w = [] ->
  sem_wait recvsem set_recvsem it w = Some (ret, w1) ->
  backlog (conn w1) = -1 ->
  rpmsg_socket_accept addr addrlen (it :: env) w
  = Ret (- ECONNRESET, mk_accepted None addr addrlen) w1 env.
Proof.
  intros Hb Hl Hnb Hq Hw Hb1. unfold rpmsg_socket_accept.
  apply Z.eqb_neq in Hb. rewrite Hb, Hl. cbn [negb accept_loop].
  by rewrite Hq, Hnb, Hw, Hb1.
Qed.

(** Closing the last reference of a socket that owns an endpoint and has a
    non-zero tag sets the tag to -1 and posts both semaphores. *)
Lemma close_with_endpoint_tags_and_posts `{cfg : config} (w : world) (cpu : string) :
  crefs (conn w) <= 1 ->
  ept_rdev (conn w) = Some cpu ->
  backlog (conn w) <> 0 ->
  backlog (conn (snd (rpmsg_socket_close w))) = -1
  /\ recvsem (conn (snd (rpmsg_socket_close w)))
     = rpmsg_socket_post (recvsem (conn w))
  /\ sendsem (conn (snd (rpmsg_socket_close w)))
     = rpmsg_socket_post (sendsem (conn w)).
Proof.
  intros Hc Hr Hb. unfold rpmsg_socket_close.
  destruct (1 <? crefs (conn w)) eqn:E; [lia|].
  assert (Hd : forall w0, ept_rdev (conn w0) = Some cpu -> backlog (conn w0) <> 0 ->
    backlog (conn (rpmsg_socket_destroy_ept w0)) = -1
    /\ recvsem (conn (rpmsg_socket_destroy_ept w0))
       = rpmsg_socket_post (recvsem (conn w0))
    /\ sendsem (conn (rpmsg_socket_destroy_ept w0))
       = rpmsg_socket_post (sendsem (conn w0))).
  { intros w0 Hr0 Hb0. unfold rpmsg_socket_destroy_ept. rewrite Hr0.
    apply Z.eqb_neq in Hb0. rewrite Hb0. cbn. done. }
  cbn [snd].
  destruct (backlog (conn w) =? -2);
    [|destruct (negb (backlog (conn w) =? 0))];
    exact (Hd (emit _ w) Hr Hb).
Qed.

(** Closing a socket that owns no endpoint touches neither the tag nor the
    semaphores. *)
Lemma close_without_endpoint_keeps_tag `{cfg : config} (w : world) :
  ept_rdev (conn w) = None ->
  backlog (conn (snd (rpmsg_socket_close w))) = backlog (conn w)
  /\ recvsem (conn (snd (rpmsg_socket_close w))) = recvsem (conn w)
  /\ sendsem (conn (snd (rpmsg_socket_close w))) = sendsem (conn w).
Proof.
  intros Hr. unfold rpmsg_socket_close.
  destruct (1 <? crefs (conn w)); [cbn; done|].
  cbn [snd].
  destruct (backlog (conn w) =? -2);
    [|destruct (negb (backlog (conn w) =? 0))];
    unfold rpmsg_socket_destroy_ept; cbn; rewrite Hr; cbn; done.
Qed.

(** [listen] gives the socket no endpoint. *)
Lemma listen_creates_no_endpoint `{cfg : config} (s_type bl : Z)
    (it : env_item) (env : list env_item) (w : world) :
  ev it = [] ->
  ept_rdev (conn (final (rpmsg_socket_listen s_type bl (it :: env) w)))
  = ept_rdev (conn w).
Proof.
  intros He. unfold rpmsg_socket_listen. unfold_m. unfold interact.
  destruct (negb (s_type =? SOCK_STREAM)); [done|].
  destruct (negb (_SS_ISBOUND (s_flags (conn w))) || (bl <=? 0)); [done|].
  cbn. rewrite He. cbn. done.
Qed.

(** C7 at a listener: the code deviates from the claim there.  A bound
    socket listening with backlog 2 owns no endpoint, so closing it runs
    past the guard [if (conn->ept.rdev)]: the tag stays 2 instead of
    becoming -1 and the recv semaphore is not posted, and an [accept]
    blocked meanwhile, with neither timeout nor signal, stays blocked
    instead of returning [ECONNRESET]. *)
Theorem close_listener_leaves_accept_blocked :
  exists w1 w2,
    rpmsg_socket_close listener = (0, w1)
    /\ backlog (conn w1) = 2
    /\ recvsem (conn w1) = recvsem (conn listener)
    /\ rpmsg_socket_accept (cfg := nucleo) None 0 closed_meanwhile listener
       = Pend w2
    /\ backlog (conn w2) = 2
    /\ recvsem (conn w2) = 0.
Proof.
  eexists _, _. split; [vm_compute; reflexivity|].
  split; [reflexivity|]. split; [reflexivity|].
  split; [vm_compute; reflexivity|]. split; reflexivity.
Qed.

(** ** The accept queue *)

Ltac break_if :=
  match goal with
  | |- context [if ?b then _ else _] =>
      lazymatch b with
      | context [if _ then _ else _] => fail
      | context [match _ with _ => _ end] => fail
      | _ => destruct b eqn:?
      end
  end.

Ltac break_opt :=
  match goal with
  | |- context [match ?o with Some _ => _ | None => _ end] =>
      lazymatch o with
      | context [if _ then _ else _] => fail
      | context [match _ with _ => _ end] => fail
      | _ => destruct o eqn:?
      end
  end.

Lemma ns_bind_walk_some (bl cnt : Z) (q q' : list rpmsg_socket_conn_s)
    (new : rpmsg_socket_conn_s) :
  ns_bind_walk bl cnt q new = Some q' ->
  q' = q ++ [new] /\ (q = [] \/ cnt + Z.of_nat (length q) < bl).
Proof.
  revert cnt q'. induction q as [|c q IH]; intros cnt q' H; cbn [ns_bind_walk] in H.
  - injection H as <-. by split; [|left].
  - destruct (bl <=? cnt + 1) eqn:E; [discriminate|].
    destruct (ns_bind_walk bl (cnt + 1) q new) as [q''|] eqn:Ew; [|discriminate].
    injection H as <-. destruct (IH _ _ Ew) as (-> & Hq).
    split; [done|]. right. cbn [length].
    destruct Hq as [-> | Hq]; cbn [length]; lia.
Qed.

Lemma ns_bind_walk_none (bl cnt : Z) (q : list rpmsg_socket_conn_s)
    (new : rpmsg_socket_conn_s) :
  ns_bind_walk bl cnt q new = None ->
  q <> [] /\ bl <= cnt + Z.of_nat (length q).
Proof.
  revert cnt. induction q as [|c q IH]; intros cnt H; cbn [ns_bind_walk] in H.
  - discriminate.
  - split; [done|]. cbn [length].
    destruct (bl <=? cnt + 1) eqn:E; [lia|].
    destruct (ns_bind_walk bl (cnt + 1) q new) eqn:Ew; [discriminate|].
    destruct (IH _ Ew). lia.
Qed.

(** With room in the queue the walk appends. *)
Lemma ns_bind_walk_room (bl cnt : Z) (q : list rpmsg_socket_conn_s)
    (new : rpmsg_socket_conn_s) :
  cnt + Z.of_nat (length q) < bl ->
  ns_bind_walk bl cnt q new = Some (q ++ [new]).
Proof.
  intros Hroom.
  destruct (ns_bind_walk bl cnt q new) as [q'|] eqn:E.
  - by destruct (ns_bind_walk_some _ _ _ _ _ E) as (-> & _).
  - destruct (ns_bind_walk_none _ _ _ _ E). lia.
Qed.

(** [ns_bind] keeps the tag, and either leaves the queue or appends to it
    within the backlog. *)
Lemma ns_bind_queue `{cfg : config} (cpu name : string) (me : ucred)
    (a r c : bool) (w : world) :
  let w' := rpmsg_socket_ns_bind cpu name me a r c w in
  backlog (conn w') = backlog (conn w)
  /\ (next w' = next w
      \/ exists new, next w' = next w ++ [new]
           /\ (next w = [] \/ Z.of_nat (length (next w)) < backlog (conn w))).
Proof.
  unfold rpmsg_socket_ns_bind.
  destruct (negb a); [by split; [|left]|].
  destruct (circbuf_resize _ _ r) as [ret rb].
  destruct (ret <? 0); [by split; [|left]|].
  destruct (negb c); [by split; [|left]|].
  cbn [conn emit set_trace next].
  match goal with |- context [ns_bind_walk ?bl 0 ?q ?n] =>
    destruct (ns_bind_walk bl 0 q n) as [q'|] eqn:Ew end.
  - destruct (ns_bind_walk_some _ _ _ _ _ Ew) as (-> & Hq).
    cbn. split; [done|]. right. eexists. split; [done|].
    destruct Hq; [by left|right; lia].
  - cbn. by split; [|left].
Qed.

Lemma ept_cb_ack_keeps (pos : Z) (w : world) :
  let w' := ept_cb_ack pos w in
  next w' = next w /\ mem w' = mem w
  /\ backlog (conn w') = backlog (conn w)
  /\ recvdata (conn w') = recvdata (conn w)
  /\ recvlen (conn w') = recvlen (conn w)
  /\ s_flags (conn w') = s_flags (conn w)
  /\ sendsize (conn w') = sendsize (conn w)
  /\ sendpos (conn w') = sendpos (conn w)
  /\ ackpos (conn w') = pos.
Proof. unfold ept_cb_ack. cbn zeta. break_if; cbn; done. Qed.

Lemma ept_cb_direct_keeps (p : N) (mlen : Z) (data : list byte) (w : world) :
  let w' := fst (ept_cb_direct p mlen data w) in
  next w' = next w
  /\ backlog (conn w') = backlog (conn w)
  /\ s_flags (conn w') = s_flags (conn w)
  /\ sendsize (conn w') = sendsize (conn w)
  /\ sendpos (conn w') = sendpos (conn w)
  /\ ackpos (conn w') = ackpos (conn w).
Proof. unfold ept_cb_direct. cbn zeta. break_if; cbn; done. Qed.

Lemma ept_cb_store_keeps (buf : list byte) (w : world) :
  let w' := ept_cb_store buf w in
  next w' = next w /\ mem w' = mem w
  /\ backlog (conn w') = backlog (conn w)
  /\ recvdata (conn w') = recvdata (conn w)
  /\ recvlen (conn w') = recvlen (conn w)
  /\ s_flags (conn w') = s_flags (conn w)
  /\ sendsize (conn w') = sendsize (conn w)
  /\ sendpos (conn w') = sendpos (conn w)
  /\ ackpos (conn w') = ackpos (conn w).
Proof. unfold ept_cb_store. break_if; cbn; done. Qed.

Lemma ept_cb_keeps_queue `{cfg : config} (f : frame) (w : world) :
  next (rpmsg_socket_ept_cb f w) = next w
  /\ backlog (conn (rpmsg_socket_ept_cb f w)) = backlog (conn w).
Proof.
  unfold rpmsg_socket_ept_cb. destruct f as [size p u g | pos mlen data].
  - cbn. done.
  - cbn zeta.
    pose proof (ept_cb_ack_keeps pos w) as (Hn & _ & Hb & _). cbn zeta in *.
    break_if; [|done].
    destruct (recvdata (conn (ept_cb_ack pos w))) as [p|].
    + pose proof (ept_cb_direct_keeps p mlen data (ept_cb_ack pos w))
        as (Hn1 & Hb1 & _).
      pose proof (ept_cb_store_keeps (snd (ept_cb_direct p mlen data (ept_cb_ack pos w)))
                    (fst (ept_cb_direct p mlen data (ept_cb_ack pos w))))
        as (Hn2 & _ & Hb2 & _).
      cbn zeta in *. split; congruence.
    + pose proof (ept_cb_store_keeps data (ept_cb_ack pos w)) as (Hn2 & _ & Hb2 & _).
      cbn zeta in *. cbn [fst snd]. split; congruence.
Qed.

Lemma destroy_ept_queue `{cfg : config} (w : world) :
  next (rpmsg_socket_destroy_ept w) = next w
  /\ (backlog (conn (rpmsg_socket_destroy_ept w)) = backlog (conn w)
      \/ backlog (conn (rpmsg_socket_destroy_ept w)) = -1).
Proof.
  unfold rpmsg_socket_destroy_ept.
  repeat (cbn; first [break_if | break_opt]); cbn; auto.
Qed.

Lemma handle_event_queue_inv `{cfg : config} (e : event) (w : world) :
  queue_inv w -> queue_inv (handle_event e w).
Proof.
  intros (Hpos & Hzero). unfold queue_inv.
  destruct e as [f|me| |cpu created|cpu|cpu name me a r c|i f| ];
    cbn [handle_event].
  - cbn [set_peer_ok conn next].
    destruct (ept_cb_keeps_queue f w) as (-> & ->). done.
  - cbn. done.
  - cbn. done.
  - unfold rpmsg_socket_device_created.
    repeat (cbn; first [break_if | break_opt]); cbn; done.
  - unfold rpmsg_socket_device_destroy. break_if; [|done].
    destruct (destroy_ept_queue w) as (-> & [-> | ->]); [done|]. split; lia.
  - destruct (ns_bind_queue cpu name me a r c w) as (Hb & Hq). cbn zeta in *.
    rewrite Hb. destruct Hq as [-> | (new & -> & Hroom)]; [done|].
    rewrite length_app. cbn [length].
    destruct Hroom as [-> | Hroom]; cbn [length]; split; lia.
  - destruct (next w !! i) as [c|] eqn:Ei; [|done].
    unfold on_child.
    destruct (ept_cb_keeps_queue f (child_world c w))
      as (_ & _).
    cbn. rewrite length_insert. done.
  - unfold rpmsg_socket_close. break_if; [cbn; done|]. cbn [snd].
    assert (Hd : forall w0, next w0 = next w -> backlog (conn w0) = backlog (conn w) ->
              queue_inv (rpmsg_socket_destroy_ept w0)).
    { intros w0 Hn0 Hb0. unfold queue_inv.
      destruct (destroy_ept_queue w0) as (-> & [-> | ->]);
        rewrite Hn0, ?Hb0; [done|split; lia]. }
    assert (Hfree : forall w0, queue_inv w0 -> queue_inv (emit Free w0)) by done.
    apply Hfree. repeat break_if; by apply Hd.
Qed.

Lemma run_events_queue_inv `{cfg : config} (evs : list event) (w : world) :
  queue_inv w -> queue_inv (run_events evs w).
Proof.
  revert w. induction evs as [|e evs IH]; intros w Hq; [done|].
  cbn [run_events fold_left]. apply IH. by apply handle_event_queue_inv.
Qed.

Lemma sem_wait_queue_inv `{cfg : config}
    (count : rpmsg_socket_conn_s -> Z)
    (set_count : Z -> rpmsg_socket_conn_s -> rpmsg_socket_conn_s)
    (it : env_item) (w w1 : world) (ret : Z) :
  (forall v c, backlog (set_count v c) = backlog c) ->
  queue_inv w ->
  sem_wait count set_count it w = Some (ret, w1) ->
  queue_inv w1.
Proof.
  intros Hset Hq H. unfold sem_wait in H.
  pose proof (run_events_queue_inv (ev it) w Hq) as Hq'.
  destruct (0 <? count (conn (run_events (ev it) w))).
  - injection H as _ <-. unfold queue_inv in *. cbn. by rewrite Hset.
  - destruct (werr it); [|discriminate]. by injection H as _ <-.
Qed.

Lemma accept_loop_queue_inv `{cfg : config}
    (addr : option sockaddr_rpmsg) (addrlen : Z) (env : list env_item) (w : world) :
  queue_inv w -> queue_inv (final (accept_loop addr addrlen env w)).
Proof.
  revert w. induction env as [|it env IH]; intros w Hq.
  - cbn [accept_loop]. destruct (next w) as [|c q] eqn:Eq.
    + break_if; cbn; done.
    + assert (queue_inv (set_next q w)).
      { unfold queue_inv in *. cbn. rewrite Eq in Hq. cbn [length] in Hq.
        destruct Hq. split; lia. }
      cbn zeta. break_if; [cbn; done|].
      destruct (rpmsg_socket_getaddr _ _ _) as [[? ?] ?]. cbn. done.
  - cbn [accept_loop]. destruct (next w) as [|c q] eqn:Eq.
    + break_if; [cbn; done|].
      destruct (sem_wait recvsem set_recvsem it w) as [[ret w1]|] eqn:Ew.
      * assert (queue_inv w1) by (by eapply sem_wait_queue_inv; [| |exact Ew]).
        cbn zeta. repeat break_if; first [by apply IH | cbn; done].
      * cbn. by apply run_events_queue_inv.
    + assert (Hq1 : queue_inv (set_next q w)).
      { unfold queue_inv in *. cbn. rewrite Eq in Hq. cbn [length] in Hq.
        destruct Hq. split; lia. }
      cbn zeta. break_if.
      * destruct (sem_wait sendsem set_sendsem it _) as [[ret wc]|]; [|cbn; done].
        destruct (rpmsg_socket_getaddr _ _ _) as [[? ?] ?]. cbn. done.
      * destruct (rpmsg_socket_getaddr _ _ _) as [[? ?] ?]. cbn. done.
Qed.

Lemma listener_step_queue_inv `{cfg : config} (w w' : world) :
  listener_step roomy_listen w w' -> queue_inv w -> queue_inv w'.
Proof.
  intros Hs Hq. destruct Hs as [e w|s_type bl env w Hb|addr addrlen env w].
  - by apply handle_event_queue_inv.
  - unfold rpmsg_socket_listen. unfold_m. unfold interact.
    break_if; [cbn; done|]. break_if; [cbn; done|].
    assert (Hq1 : queue_inv (emit (Register CB_SERVER) (upd (set_backlog bl) w))).
    { unfold queue_inv, roomy_listen in *. cbn.
      apply orb_false_iff in Heqb0 as (_ & Hbl). split; lia. }
    destruct env as [|it env]; [cbn; done|].
    cbn. by apply run_events_queue_inv.
  - unfold rpmsg_socket_accept. break_if; [cbn; done|]. break_if; [cbn; done|].
    by apply accept_loop_queue_inv.
Qed.

Lemma listener_reach_queue_inv `{cfg : config} (w : world) :
  listener_reach roomy_listen w -> queue_inv w.
Proof.
  induction 1 as [w Hn Hb | w w' _ IH Hs].
  - unfold queue_inv. rewrite Hn, Hb. cbn. split; lia.
  - by eapply listener_step_queue_inv.
Qed.

Lemma ns_bind_walk_full (bl cnt : Z) (q : list rpmsg_socket_conn_s)
    (new : rpmsg_socket_conn_s) :
  q <> [] -> bl <= cnt + Z.of_nat (length q) ->
  ns_bind_walk bl cnt q new = None.
Proof.
  intros Hq Hfull.
  destruct (ns_bind_walk bl cnt q new) as [q'|] eqn:E; [|done].
  destruct (ns_bind_walk_some _ _ _ _ _ E) as (_ & [? | ?]); [done|lia].
Qed.

(** C6, as the code has it: for a listener (a socket with a positive
    backlog, reached by callbacks, [listen] calls and [accept] calls in any
    order) that never calls [listen] with a backlog smaller than the number
    of connections queued at that moment, the accept queue never holds more
    than [backlog] connections.  The name-service bind appends the new
    connection only if the queue then still is within the backlog; when
    the new connection was built and there is room, it is appended, the
    recv semaphore is posted and readable is signalled; when there is no
    room, its endpoint is destroyed, it is freed, and the queue and the
    listener stay as they were. *)
Theorem accept_queue_never_exceeds_backlog `{cfg : config} (w : world) :
  listener_reach roomy_listen w ->
  0 < backlog (conn w) ->
  Z.of_nat (length (next w)) <= backlog (conn w)
  /\ (forall cpu name me a r c,
        let w' := rpmsg_socket_ns_bind cpu name me a r c w in
        next w' = next w
        \/ exists new, next w' = next w ++ [new]
             /\ Z.of_nat (length (next w')) <= backlog (conn w))
  /\ (forall cpu name me,
        let w' := rpmsg_socket_ns_bind cpu name me true true true w in
        let sync := SYNC CONFIG_NET_RPMSG_RXBUF_SIZE (pid me) (uid me) (gid me) in
        if Z.of_nat (length (next w)) + 1 <=? backlog (conn w)
        then (exists new, next w' = next w ++ [new])
             /\ recvsem (conn w') = rpmsg_socket_post (recvsem (conn w))
             /\ trace w' = trace w ++ [OnChild (CreateEpt name None);
                                       OnChild (Tx sync); PollNotify POLLIN]
        else next w' = next w /\ conn w' = conn w
             /\ trace w' = trace w ++ [OnChild (CreateEpt name None);
                                       OnChild (Tx sync); OnChild DestroyEpt;
                                       OnChild Free]).
Proof.
  intros Hreach Hpos.
  destruct (listener_reach_queue_inv w Hreach) as (Hinv & _).
  specialize (Hinv Hpos).
  split; [done|]. split.
  - intros cpu name me a r c.
    destruct (ns_bind_queue cpu name me a r c w) as (_ & [Hq | (new & Hq & Hroom)]);
      cbn zeta in *; [by left|].
    right. exists new. split; [done|]. rewrite Hq, length_app. cbn [length].
    destruct Hroom as [Hnil | Hroom]; [rewrite Hnil; cbn [length]|]; lia.
  - intros cpu name me. cbn zeta.
    unfold rpmsg_socket_ns_bind. cbn [negb].
    assert (Hrs : circbuf_resize (recvbuf rpmsg_socket_alloc)
                    CONFIG_NET_RPMSG_RXBUF_SIZE true
                  = (0, mk_circbuf CONFIG_NET_RPMSG_RXBUF_SIZE [])).
    { unfold circbuf_resize, circbuf_used.
      cbn [recvbuf rpmsg_socket_alloc circbuf_init cb_size cb_data length
           Z.of_nat negb andb].
      destruct (CONFIG_NET_RPMSG_RXBUF_SIZE =? 0) eqn:E.
      - apply Z.eqb_eq in E. rewrite E. reflexivity.
      - destruct (CONFIG_NET_RPMSG_RXBUF_SIZE <? Z.of_nat 0); by rewrite ?drop_nil. }
    rewrite Hrs. cbn [Z.ltb Z.compare conn emit set_trace next].
    destruct (Z.of_nat (length (next w)) + 1 <=? backlog (conn w)) eqn:Eroom.
    + apply Z.leb_le in Eroom. rewrite ns_bind_walk_room by lia.
      cbn. rewrite <- !app_assoc. cbn. split; [eauto|done].
    + rewrite ns_bind_walk_full.
      * cbn. rewrite <- !app_assoc. cbn.
        destruct w as [c q m t g ok]. cbn. done.
      * intros Hnil. apply Z.leb_gt in Eroom. rewrite Hnil in Eroom.
        cbn [length] in Eroom. lia.
      * apply Z.leb_gt in Eroom. lia.
Qed.

(** The same for the concrete listener with backlog 2 and one connection
    queued. *)
Lemma accept_queue_never_exceeds_backlog_witness :
  listener_reach (cfg := nucleo) roomy_listen one_queued
  /\ 0 < backlog (conn one_queued)
  /\ Z.of_nat (length (next one_queued)) <= backlog (conn one_queued).
Proof.
  assert (Hreach : listener_reach (cfg := nucleo) roomy_listen one_queued).
  { unfold one_queued, listening_socket.
    eapply lr_step; [|apply ls_event].
    eapply lr_step; [|apply ls_listen; unfold roomy_listen; cbn; lia].
    apply lr_init; reflexivity. }
  assert (Hpos : 0 < backlog (conn one_queued)) by reflexivity.
  split; [exact Hreach|]. split; [exact Hpos|].
  exact (proj1 (accept_queue_never_exceeds_backlog (cfg := nucleo)
                  one_queued Hreach Hpos)).
Defined.

(** C6 as stated fails for a listener that listens again: after [listen]
    with backlog 2 two peer endpoints are bound and queued; a second
    [listen] with backlog 1 stores the new backlog and leaves both
    connections queued, so the queue holds 2 under a backlog of 1. *)
Lemma accept_queue_relisten_counterexample :
  listener_reach (cfg := nucleo) any_listen relistened
  /\ backlog (conn relistened) = 1
  /\ length (next relistened) = 2%nat
  /\ ~ Z.of_nat (length (next relistened)) <= backlog (conn relistened).
Proof.
  split.
  { unfold relistened, two_queued, one_queued, listening_socket.
    eapply lr_step; [|by apply ls_listen].
    eapply lr_step; [|apply ls_event].
    eapply lr_step; [|apply ls_event].
    eapply lr_step; [|by apply ls_listen].
    apply lr_init; reflexivity. }
  vm_compute. repeat split; congruence.
Qed.

(** ** Flow control *)


(** Under the invariant the space helper computes the plain difference. *)
Lemma get_space_exact (c : rpmsg_socket_conn_s) :
  flow_inv c ->
  rpmsg_socket_get_space c = sendsize c - U32.sub (sendpos c) (ackpos c)
  /\ 0 <= U32.sub (sendpos c) (ackpos c) <= sendsize c.
Proof.
  intros (Hr & Hd & _). unfold rpmsg_socket_get_space.
  pose proof (u32_sub_range (sendpos c) (ackpos c)) as Hrange.
  set (d := U32.sub (sendpos c) (ackpos c)) in *.
  split; [|unfold U32.in_range in *; lia].
  unfold U32.sub at 1. apply u32_wrap_small. unfold U32.in_range in *. lia.
Qed.

Lemma isconnected_lor (f : Z) : _SS_ISCONNECTED (Z.lor f _SF_CONNECTED) = true.
Proof.
  unfold _SS_ISCONNECTED. rewrite Z.land_lor_distr_l.
  change (Z.land _SF_CONNECTED _SF_CONNECTED) with _SF_CONNECTED.
  destruct (Z.lor (Z.land f _SF_CONNECTED) _SF_CONNECTED =? 0) eqn:E; [|done].
  apply Z.eqb_eq, Z.lor_eq_0_iff in E as (_ & E). discriminate.
Qed.












(** *** The calls of the interface *)











































(** ** recvmsg and the scatter list *)

(** [recvmsg] looks at the first entry of the scatter list, at [msg_name]
    and at [msg_namelen]: two headers that agree on these give the same
    result, the same world and the same rest of the script. *)
Lemma recvmsg_ignores_iov_tail `{cfg : config}
    (s_type : Z) (msg msg2 : msghdr) (flags : Z) (env : list env_item) (w : world) :
  msg_iov0 msg2 = msg_iov0 msg ->
  msg_name msg2 = msg_name msg ->
  msg_namelen msg2 = msg_namelen msg ->
  final (rpmsg_socket_recvmsg s_type msg2 flags env w)
    = final (rpmsg_socket_recvmsg s_type msg flags env w)
  /\ (forall ret msg' w' env',
        rpmsg_socket_recvmsg s_type msg flags env w = Ret (ret, msg') w' env' ->
        exists msg2',
          rpmsg_socket_recvmsg s_type msg2 flags env w = Ret (ret, msg2') w' env'
          /\ msg_name msg2' = msg_name msg'
          /\ msg_namelen msg2' = msg_namelen msg')
  /\ (forall w',
        rpmsg_socket_recvmsg s_type msg flags env w = Pend w' ->
        rpmsg_socket_recvmsg s_type msg2 flags env w = Pend w').
Proof.
  intros H0 Hn Hl.
  assert (Hbody : recvmsg_body s_type msg2 flags = recvmsg_body s_type msg flags).
  { unfold recvmsg_body. by rewrite H0. }
  assert (Hfrom : forall c, msg_name (msg_with_from c msg2) = msg_name (msg_with_from c msg)
                      /\ msg_namelen (msg_with_from c msg2)
                         = msg_namelen (msg_with_from c msg)).
  { intros c. unfold msg_with_from. rewrite Hn, Hl.
    by destruct (rpmsg_socket_getaddr c (msg_name msg) (msg_namelen msg)) as [[? ?] ?]. }
  unfold rpmsg_socket_recvmsg. unfold_m. rewrite Hbody.
  set (sel := negb (s_type =? SOCK_STREAM) && _SS_ISBOUND (s_flags (conn w))
              && negb (_SS_ISCONNECTED (s_flags (conn w)))).
  set (first := (if sel then rpmsg_socket_connect_internal
                 else fun env0 w0 => Ret 0 w0 env0) env w).
  destruct first as [r w1 env1|w1]; [|split; [done|split; [intros; discriminate|done]]].
  destruct (r <? 0); cbn beta.
  { split; [done|]. split; [|intros; discriminate].
    intros ret msg' w' env' [= <- <- <- <-]. by eexists. }
  destruct (negb (_SS_ISCONNECTED (s_flags (conn w1)))); cbn beta.
  { split; [done|]. split; [|intros; discriminate].
    intros ret msg' w' env' [= <- <- <- <-]. by eexists. }
  destruct (recvmsg_body s_type msg flags env1 w1) as [a w3 env3|w3];
    [|split; [done|split; [intros; discriminate|done]]].
  destruct (0 <? a); cbn beta.
  - split; [done|]. split; [|intros; discriminate].
    intros ret msg' w' env' [= <- <- <- <-]. eexists. split; [done|].
    apply Hfrom.
  - split; [done|]. split; [|intros; discriminate].
    intros ret msg' w' env' [= <- <- <- <-]. by eexists.
Qed.

(** The direct copy takes the published buffer back and writes at most
    [recvlen] bytes to it. *)
Lemma ept_cb_direct_reader (p : N) (mlen : Z) (data : list byte) (w : world) :
  let w' := fst (ept_cb_direct p mlen data w) in
  recvdata (conn w') = None
  /\ recvlen (conn w') = Z.min (recvlen (conn w)) mlen
  /\ next w' = next w
  /\ exists bytes,
       Z.of_nat (length bytes) <= Z.max 0 (recvlen (conn w))
       /\ mem w' = mem_write p bytes (mem w).
Proof.
  unfold ept_cb_direct. cbn zeta.
  break_if; cbn; (split; [done|]); (split; [done|]); (split; [done|]);
    eexists; (split; [|reflexivity]); rewrite length_take; lia.
Qed.

(** The inbound dispatch, seen by a reader: with no buffer published it
    leaves user memory alone; with buffer [p] published it either leaves
    everything as it is or takes the buffer and writes to it once. *)
Lemma ept_cb_reader `{cfg : config} (f : frame) (w : world) :
  let w' := rpmsg_socket_ept_cb f w in
  next w' = next w
  /\ match recvdata (conn w) with
     | None =>
         recvdata (conn w') = None /\ recvlen (conn w') = recvlen (conn w)
         /\ mem w' = mem w
     | Some p =>
         (recvdata (conn w') = Some p /\ recvlen (conn w') = recvlen (conn w)
          /\ mem w' = mem w)
         \/ (recvdata (conn w') = None
             /\ recvlen (conn w') <= recvlen (conn w)
             /\ exists bytes,
                  Z.of_nat (length bytes) <= Z.max 0 (recvlen (conn w))
                  /\ mem w' = mem_write p bytes (mem w))
     end.
Proof.
  unfold rpmsg_socket_ept_cb. destruct f as [size pd u g | pos mlen data].
  - cbn. split; [done|]. destruct (recvdata (conn w)); [left|]; done.
  - cbn zeta.
    pose proof (ept_cb_ack_keeps pos w) as (Hn & Hm & _ & Hd & Hl & _).
    cbn zeta in *.
    break_if.
    2:{ rewrite Hn, Hm, Hd, Hl. split; [done|].
        destruct (recvdata (conn w)); [left|]; done. }
    rewrite Hd. destruct (recvdata (conn w)) as [p|] eqn:Er.
    + pose proof (ept_cb_direct_reader p mlen data (ept_cb_ack pos w))
        as (Hd1 & Hl1 & Hn1 & bytes & Hlen & Hm1).
      pose proof (ept_cb_store_keeps (snd (ept_cb_direct p mlen data (ept_cb_ack pos w)))
                    (fst (ept_cb_direct p mlen data (ept_cb_ack pos w))))
        as (Hn2 & Hm2 & _ & Hd2 & Hl2 & _).
      cbn zeta in *. split; [congruence|]. right.
      rewrite Hd2, Hl2, Hm2, Hd1, Hl1, Hm1, Hl, Hm.
      split; [done|]. split; [lia|]. exists bytes. by rewrite <- Hl.
    + pose proof (ept_cb_store_keeps data (ept_cb_ack pos w))
        as (Hn2 & Hm2 & _ & Hd2 & Hl2 & _).
      cbn zeta in *. cbn [fst snd]. split; [congruence|].
      rewrite Hd2, Hl2, Hm2, Hd, Hl, Hm. done.
Qed.

Lemma destroy_ept_reader (w : world) :
  let w' := rpmsg_socket_destroy_ept w in
  next w' = next w /\ mem w' = mem w
  /\ recvdata (conn w') = recvdata (conn w)
  /\ recvlen (conn w') = recvlen (conn w).
Proof.
  unfold rpmsg_socket_destroy_ept.
  destruct (ept_rdev (conn w)); [|done]. break_if; cbn; done.
Qed.

Lemma ns_bind_reader `{cfg : config} (cpu name : string) (me : ucred)
    (a r c : bool) (w : world) :
  let w' := rpmsg_socket_ns_bind cpu name me a r c w in
  (Forall (fun c => recvdata c = None) (next w) ->
   Forall (fun c => recvdata c = None) (next w'))
  /\ mem w' = mem w
  /\ recvdata (conn w') = recvdata (conn w)
  /\ recvlen (conn w') = recvlen (conn w).
Proof.
  unfold rpmsg_socket_ns_bind.
  destruct (negb a); [done|].
  destruct (circbuf_resize _ _ r) as [ret rb].
  destruct (ret <? 0); [done|].
  destruct (negb c); [done|].
  cbn [conn emit set_trace next].
  match goal with |- context [ns_bind_walk ?bl 0 ?q ?n] =>
    destruct (ns_bind_walk bl 0 q n) as [q'|] eqn:Ew end.
  - destruct (ns_bind_walk_some _ _ _ _ _ Ew) as (-> & _).
    cbn. split; [|done]. intros Hq. apply Forall_app. split; [done|].
    by constructor.
  - cbn. done.
Qed.

Lemma classic_event_recv (e : event) :
  (exists f, e = EvRecv f) \/ (forall f, e <> EvRecv f).
Proof. destruct e; try (right; intros; discriminate). left. by eexists. Qed.

(** Callbacks other than the inbound dispatch of this connection leave
    the reader's view. *)
Lemma handle_event_reader `{cfg : config} (e : event) (w : world) :
  (forall f, e <> EvRecv f) ->
  Forall (fun c => recvdata c = None) (next w) ->
  let w' := handle_event e w in
  Forall (fun c => recvdata c = None) (next w')
  /\ mem w' = mem w
  /\ recvdata (conn w') = recvdata (conn w)
  /\ recvlen (conn w') = recvlen (conn w).
Proof.
  intros Hne Hq.
  destruct e as [f|me| |cpu created|cpu|cpu name me a r c|i f| ];
    cbn [handle_event].
  - by destruct (Hne f).
  - cbn. done.
  - cbn. done.
  - unfold rpmsg_socket_device_created.
    destruct (ept_rdev (conn w)); [done|]. repeat break_if; cbn; done.
  - unfold rpmsg_socket_device_destroy. break_if; [|done].
    pose proof (destroy_ept_reader w) as (Hn & H). cbn zeta in *.
    by rewrite Hn.
  - pose proof (ns_bind_reader cpu name me a r c w) as (Hn & H). cbn zeta in *.
    split; [by apply Hn|done].
  - destruct (next w !! i) as [c|] eqn:Ei; [|done].
    assert (Hc : recvdata c = None).
    { rewrite Forall_forall in Hq. apply Hq.
      by eapply list_elem_of_lookup_2. }
    unfold on_child.
    pose proof (ept_cb_reader f (child_world c w))
      as (_ & Hr). cbn zeta in Hr. cbn [conn child_world] in Hr. rewrite Hc in Hr.
    destruct Hr as (Hd & _ & Hm). cbn in Hm. cbn.
    split; [|done]. by apply Forall_insert.
  - unfold rpmsg_socket_close. break_if; [cbn; done|]. cbn [snd].
    assert (Hd : forall w0, next w0 = next w -> mem w0 = mem w -> conn w0 = conn w ->
      let w' := emit Free (rpmsg_socket_destroy_ept w0) in
      Forall (fun c => recvdata c = None) (next w')
      /\ mem w' = mem w
      /\ recvdata (conn w') = recvdata (conn w)
      /\ recvlen (conn w') = recvlen (conn w)).
    { intros w0 Hn0 Hm0 Hc0.
      pose proof (destroy_ept_reader w0) as (Hn1 & Hm1 & Hd1 & Hl1).
      cbn zeta in *. cbn. rewrite Hn1, Hm1, Hd1, Hl1, Hn0, Hm0, Hc0. done. }
    repeat break_if; by apply Hd.
Qed.

Lemma handle_event_reader_before `{cfg : config} (m0 : gmap N (list byte))
    (e : event) (w : world) :
  reader_before m0 w -> reader_before m0 (handle_event e w).
Proof.
  intros (Hq & Hd & Hm). unfold reader_before.
  destruct (classic_event_recv e) as [(f & ->) | Hne].
  - cbn [handle_event set_peer_ok conn next mem].
    pose proof (ept_cb_reader f w) as (Hn & Hr). cbn zeta in *.
    rewrite Hd in Hr. destruct Hr as (Hd' & _ & Hm').
    rewrite Hn, Hm'. done.
  - pose proof (handle_event_reader e w Hne Hq) as (Hq' & Hm' & Hd' & _).
    cbn zeta in *. rewrite Hm', Hd'. done.
Qed.

Lemma handle_event_reader_during `{cfg : config} (buf : N) (len : Z)
    (m0 : gmap N (list byte)) (e : event) (w : world) :
  0 <= len ->
  reader_during buf len m0 w -> reader_during buf len m0 (handle_event e w).
Proof.
  intros Hlen (Hq & Hl & Hst). unfold reader_during.
  destruct (classic_event_recv e) as [(f & ->) | Hne].
  - cbn [handle_event set_peer_ok conn next mem].
    pose proof (ept_cb_reader f w) as (Hn & Hr). cbn zeta in *. rewrite Hn.
    split; [done|].
    destruct Hst as [(Hd & Hm) | (Hd & bytes & Hb & Hm)]; rewrite Hd in Hr.
    + destruct Hr as [(Hd' & Hl' & Hm') | (Hd' & Hl' & bytes & Hb & Hm')].
      * split; [lia|]. left. by rewrite Hd', Hm'.
      * split; [lia|]. right. split; [done|]. exists bytes.
        split; [lia|]. by rewrite Hm', Hm.
    + destruct Hr as (Hd' & Hl' & Hm'). split; [lia|]. right.
      split; [done|]. exists bytes. by rewrite Hm'.
  - pose proof (handle_event_reader e w Hne Hq) as (Hq' & Hm' & Hd' & Hl').
    cbn zeta in *. rewrite Hm', Hd', Hl'. done.
Qed.

Lemma run_events_reader_before `{cfg : config} (m0 : gmap N (list byte))
    (evs : list event) (w : world) :
  reader_before m0 w -> reader_before m0 (run_events evs w).
Proof.
  revert w. induction evs as [|e evs IH]; intros w H; [done|].
  cbn [run_events fold_left]. apply IH. by apply handle_event_reader_before.
Qed.

Lemma run_events_reader_during `{cfg : config} (buf : N) (len : Z)
    (m0 : gmap N (list byte)) (evs : list event) (w : world) :
  0 <= len ->
  reader_during buf len m0 w -> reader_during buf len m0 (run_events evs w).
Proof.
  intros Hlen. revert w. induction evs as [|e evs IH]; intros w H; [done|].
  cbn [run_events fold_left]. apply IH. by apply handle_event_reader_during.
Qed.

(** A wait returns 0 or a negative error. *)
Lemma sem_wait_nonpos `{cfg : config}
    (count : rpmsg_socket_conn_s -> Z)
    (set_count : Z -> rpmsg_socket_conn_s -> rpmsg_socket_conn_s)
    (it : env_item) (w w1 : world) (ret : Z) :
  sem_wait count set_count it w = Some (ret, w1) -> ret <= 0.
Proof.
  unfold sem_wait. break_if.
  - intros [= <- _]. lia.
  - destruct (werr it); [|discriminate]. intros [= <- _]. lia.
Qed.

(** [rpmsg_socket_connect_internal] does not touch user memory. *)
Lemma connect_internal_reader_before `{cfg : config} (m0 : gmap N (list byte))
    (env : list env_item) (w : world) :
  reader_before m0 w ->
  reader_before m0 (final (rpmsg_socket_connect_internal env w)).
Proof.
  intros H. unfold rpmsg_socket_connect_internal. unfold_m. unfold interact.
  destruct env as [|it env]; [done|].
  destruct (circbuf_resize _ _ (alloc_ok it)) as [ret rb].
  destruct (ret <? 0); [done|]. cbn beta iota.
  set (w1 := run_events (ev it) (emit (Register CB_CLIENT) (upd (set_recvbuf rb) w))).
  assert (H1 : reader_before m0 w1).
  { apply run_events_reader_before. by destruct H as (? & ? & ?). }
  destruct (cret it <? 0); [cbn; done|].
  destruct (sendsize (conn w1) =? 0); [|cbn; done].
  destruct (_SS_ISNONBLOCK (s_flags (conn w1))); [cbn; done|].
  unfold wait_on. destruct env as [|it2 env]; [cbn; done|].
  unfold sem_wait.
  pose proof (run_events_reader_before m0 (ev it2) w1 H1) as H2.
  destruct (0 <? sendsem (conn (run_events (ev it2) w1))).
  - cbn. by destruct H2 as (? & ? & ?).
  - destruct (werr it2); [|done]. cbn.
    destruct (Z.neg p <? 0); cbn; by destruct H2 as (? & ? & ?).
Qed.

(** The buffer read writes what it returns, at most [len] bytes, to the
    buffer of the first entry. *)
Lemma recvmsg_read_mem `{cfg : config} (s_type : Z) (buf : N) (len : Z) (w : world) :
  0 <= len ->
  exists bytes,
    fst (recvmsg_read s_type buf len w) = Z.of_nat (length bytes)
    /\ Z.of_nat (length bytes) <= len
    /\ mem (snd (recvmsg_read s_type buf len w)) = mem_write buf bytes (mem w).
Proof.
  intros Hlen. unfold recvmsg_read.
  destruct (negb (s_type =? SOCK_STREAM)).
  - unfold circbuf_read. cbn [fst snd].
    break_if.
    + eexists. cbn [fst snd mem upd set_conn set_mem].
      split; [reflexivity|]. split; [|reflexivity].
      rewrite length_take. lia.
    + exists []. cbn. split; [|done]. lia.
  - unfold circbuf_read. eexists. cbn [fst snd mem upd set_conn set_mem].
    split; [reflexivity|]. split; [|reflexivity].
    rewrite length_take. lia.
Qed.

Lemma mem_write_nil (p : N) (m : gmap N (list byte)) : mem_write p [] m = m.
Proof. reflexivity. Qed.

Lemma mem_write_other (p q : N) (bytes : list byte) (m : gmap N (list byte)) :
  q <> p -> mem_write p bytes m !! q = m !! q.
Proof.
  intros Hne. unfold mem_write. destruct bytes; [done|].
  by rewrite lookup_insert_ne.
Qed.

(** The part of [recvmsg] up to [out] over user memory [mem w]. *)
Lemma recvmsg_body_mem `{cfg : config} (s_type : Z) (msg : msghdr) (flags : Z)
    (env : list env_item) (w : world) :
  0 <= iov_len (msg_iov0 msg) ->
  reader_before (mem w) w ->
  (exists bytes,
     Z.of_nat (length bytes) <= iov_len (msg_iov0 msg)
     /\ mem (final (recvmsg_body s_type msg flags env w))
        = mem_write (iov_base (msg_iov0 msg)) bytes (mem w))
  /\ (forall ret w' env',
        recvmsg_body s_type msg flags env w = Ret ret w' env' ->
        ret <= iov_len (msg_iov0 msg)).
Proof.
  intros Hlen (Hq & Hd & _). unfold recvmsg_body.
  set (buf := iov_base (msg_iov0 msg)). set (len := iov_len (msg_iov0 msg)) in *.
  destruct (recvmsg_read_mem s_type buf len w Hlen) as (bytes & Hret & Hb & Hm).
  pose proof (recvmsg_read_keeps s_type buf len w)
    as (_ & _ & _ & _ & Hd1 & _ & _ & _ & _ & Hn1).
  cbn zeta in *.
  destruct (recvmsg_read s_type buf len w) as [ret w1]. cbn [fst snd] in *.
  assert (Hnow : exists bytes0, Z.of_nat (length bytes0) <= len
                   /\ mem w1 = mem_write buf bytes0 (mem w)) by eauto.
  destruct (0 <? ret) eqn:Epos.
  { split; [done|]. intros ? ? ? [= <- _ _]. lia. }
  assert (Hnil : bytes = []) by (destruct bytes; [done|cbn [length] in *; lia]).
  subst bytes. rewrite mem_write_nil in Hm.
  destruct (negb (ept_alive (conn w1))).
  { split; [done|]. intros ? ? ? [= <- _ _]. lia. }
  break_if.
  { split; [done|]. intros ? ? ? [= <- _ _]. unfold EAGAIN. lia. }
  set (w2 := upd (set_recvsem 0) (upd (set_recvlen len) (upd (set_recvdata (Some buf)) w1))).
  assert (H2 : reader_during buf len (mem w) w2).
  { unfold reader_during. subst w2. cbn. rewrite Hn1.
    split; [done|]. split; [lia|]. left. done. }
  unfold_m. unfold wait_on.
  destruct env as [|it env].
  { cbn. split; [|intros; discriminate]. exists []. split; [cbn; lia|done]. }
  pose proof (run_events_reader_during buf len (mem w) (ev it) w2 Hlen H2) as H3.
  destruct (sem_wait recvsem set_recvsem it w2) as [[r w3]|] eqn:Ew.
  2:{ cbn. split; [|intros; discriminate].
      destruct H3 as (_ & _ & [(_ & Hm3) | (_ & bs & Hbs & Hm3)]).
      - exists []. split; [cbn; lia|done].
      - by exists bs. }
  pose proof (sem_wait_nonpos _ _ _ _ _ _ Ew) as Hr.
  assert (H4 : reader_during buf len (mem w) w3).
  { unfold sem_wait in Ew. destruct (0 <? recvsem (conn (run_events (ev it) w2))).
    - injection Ew as _ <-. unfold reader_during in *. cbn. done.
    - destruct (werr it); [|discriminate]. by injection Ew as _ <-. }
  destruct H4 as (_ & Hl4 & Hst4).
  destruct (recvdata (conn w3)) as [p|] eqn:Ed.
  - cbn. split.
    + destruct Hst4 as [(_ & Hm4) | (? & _)]; [|discriminate].
      exists []. split; [cbn; lia|done].
    + intros ? ? ? [= <- _ _]. destruct (negb (ept_alive (conn w3)));
        unfold ECONNRESET; lia.
  - cbn. split.
    + destruct Hst4 as [(? & _) | (_ & bs & Hbs & Hm4)]; [discriminate|].
      by exists bs.
    + intros ? ? ? [= <- _ _]. pose proof (u32_to_ssize_le (recvlen (conn w3))). lia.
Qed.

(** C9: [recvmsg] takes the destination and its length from [msg_iov[0]]
    alone.  Headers that agree on the first entry (and on [msg_name] and
    [msg_namelen]) give the same result, whatever the other entries and
    [msg_iovlen] are; user memory changes by one write of at most
    [msg_iov[0].iov_len] bytes at [msg_iov[0].iov_base], done by the call
    or by the bridge on its behalf, so every other buffer keeps its
    contents; and the count returned never exceeds [msg_iov[0].iov_len].
    No other reader has a buffer published when the call starts. *)
Theorem recvmsg_uses_first_iovec_only `{cfg : config}
    (s_type : Z) (msg : msghdr) (flags : Z) (env : list env_item) (w : world) :
  recvdata (conn w) = None ->
  Forall (fun c => recvdata c = None) (next w) ->
  0 <= iov_len (msg_iov0 msg) ->
  (forall msg2,
     msg_iov0 msg2 = msg_iov0 msg ->
     msg_name msg2 = msg_name msg ->
     msg_namelen msg2 = msg_namelen msg ->
     final (rpmsg_socket_recvmsg s_type msg2 flags env w)
       = final (rpmsg_socket_recvmsg s_type msg flags env w)
     /\ (forall ret msg' w' env',
           rpmsg_socket_recvmsg s_type msg flags env w = Ret (ret, msg') w' env' ->
           exists msg2',
             rpmsg_socket_recvmsg s_type msg2 flags env w
               = Ret (ret, msg2') w' env'
             /\ msg_name msg2' = msg_name msg'
             /\ msg_namelen msg2' = msg_namelen msg')
     /\ (forall w',
           rpmsg_socket_recvmsg s_type msg flags env w = Pend w' ->
           rpmsg_socket_recvmsg s_type msg2 flags env w = Pend w'))
  /\ (exists bytes,
        Z.of_nat (length bytes) <= iov_len (msg_iov0 msg)
        /\ mem (final (rpmsg_socket_recvmsg s_type msg flags env w))
           = mem_write (iov_base (msg_iov0 msg)) bytes (mem w))
  /\ (forall q,
        q <> iov_base (msg_iov0 msg) ->
        mem (final (rpmsg_socket_recvmsg s_type msg flags env w)) !! q
          = mem w !! q)
  /\ (forall ret msg' w' env',
        rpmsg_socket_recvmsg s_type msg flags env w = Ret (ret, msg') w' env' ->
        ret <= iov_len (msg_iov0 msg)).
Proof.
  intros Hd Hq Hlen.
  split; [intros msg2; apply recvmsg_ignores_iov_tail|].
  assert (Hmain :
    (exists bytes,
        Z.of_nat (length bytes) <= iov_len (msg_iov0 msg)
        /\ mem (final (rpmsg_socket_recvmsg s_type msg flags env w))
           = mem_write (iov_base (msg_iov0 msg)) bytes (mem w))
    /\ (forall ret msg' w' env',
        rpmsg_socket_recvmsg s_type msg flags env w = Ret (ret, msg') w' env' ->
        ret <= iov_len (msg_iov0 msg))).
  { assert (Hbefore : reader_before (mem w) w) by done.
    assert (Hnil : exists bytes : list byte,
               Z.of_nat (length bytes) <= iov_len (msg_iov0 msg)
               /\ mem w = mem_write (iov_base (msg_iov0 msg)) bytes (mem w)).
    { exists []. split; [cbn; lia|done]. }
    unfold rpmsg_socket_recvmsg. unfold_m.
    set (sel := negb (s_type =? SOCK_STREAM) && _SS_ISBOUND (s_flags (conn w))
                && negb (_SS_ISCONNECTED (s_flags (conn w)))).
    set (first := (if sel then rpmsg_socket_connect_internal
                   else fun env0 w0 => Ret 0 w0 env0) env w).
    assert (Hfirst : reader_before (mem w) (final first)).
    { subst first. destruct sel; [|done].
      by apply connect_internal_reader_before. }
    destruct first as [r w1 env1|w1]; cbn [final] in Hfirst.
    2:{ destruct Hfirst as (_ & _ & Hm1). cbn [final]. rewrite Hm1.
        split; [done|]. intros; discriminate. }
    pose proof Hfirst as (_ & _ & Hm1).
    destruct (r <? 0) eqn:Er; cbn beta iota.
    { cbn [final]. rewrite Hm1. split; [done|].
      intros ? ? ? ? [= <- _ _ _]. lia. }
    destruct (negb (_SS_ISCONNECTED (s_flags (conn w1)))); cbn beta iota.
    { cbn [final]. rewrite Hm1. split; [done|].
      intros ? ? ? ? [= <- _ _ _]. unfold EISCONN. lia. }
    rewrite <- Hm1 in Hfirst.
    destruct (recvmsg_body_mem s_type msg flags env1 w1 Hlen Hfirst)
      as ((bytes & Hb & Hm) & Hret).
    rewrite Hm1 in Hm.
    destruct (recvmsg_body s_type msg flags env1 w1) as [a w3 env3|w3];
      cbn [final] in *.
    2:{ split; [by exists bytes|]. intros; discriminate. }
    specialize (Hret a w3 env3 eq_refl).
    destruct (0 <? a); cbn beta iota; cbn [final].
    - pose proof (wakeup_spec w3) as (_ & Hmw & _). cbn zeta in Hmw.
      rewrite Hmw. split; [by exists bytes|].
      by intros ? ? ? ? [= <- _ _ _].
    - split; [by exists bytes|]. by intros ? ? ? ? [= <- _ _ _]. }
  destruct Hmain as ((bytes & Hb & Hm) & Hret).
  split; [by exists bytes|]. split; [|done].
  intros q Hne. rewrite Hm. by apply mem_write_other.
Qed.

(** The same on a concrete call: ten bytes wait in the receive buffer and
    the header names two buffers, one of 4 bytes at address 1 and one of 6
    at address 2; 4 bytes arrive and the second buffer stays untouched. *)
Lemma recvmsg_uses_first_iovec_only_witness :
  exists msg' w',
    rpmsg_socket_recvmsg (cfg := nucleo) SOCK_STREAM msg_two_bufs 0 []
      alive_reader = Ret (4, msg') w' []
    /\ 4 <= iov_len (msg_iov0 msg_two_bufs)
    /\ mem w' !! 2%N = mem alive_reader !! 2%N.
Proof.
  destruct (recvmsg_uses_first_iovec_only (cfg := nucleo) SOCK_STREAM
              msg_two_bufs 0 [] alive_reader)
    as (_ & _ & Hother & Hret).
  - reflexivity.
  - constructor.
  - vm_compute. congruence.
  - eexists _, _. split; [vm_compute; reflexivity|].
    split.
    + exact (Hret 4 _ _ _ eq_refl).
    + exact (Hother 2%N ltac:(vm_compute; congruence)).
Defined.

(** ** The ack helper, seen from outside *)

Lemma call_keeps_ret {A : Type} (P : world -> Prop) (a : A) :
  call_keeps P (mret a).
Proof. intros env w H. cbn. done. Qed.

Lemma call_keeps_bind {A B : Type} (P : world -> Prop) (m : M A) (f : A -> M B) :
  call_keeps P m -> (forall a, call_keeps P (f a)) -> call_keeps P (m ≫= f).
Proof.
  intros Hm Hf env w H. unfold mbind, M_bind.
  specialize (Hm env w H).
  destruct (m env w) as [a w' env'|w']; [|done]. by apply Hf.
Qed.

Lemma call_keeps_gets {A : Type} (P : world -> Prop) (f : world -> A) :
  call_keeps P (gets f).
Proof. intros env w H. cbn. done. Qed.

Lemma call_keeps_modify (P : world -> Prop) (f : world -> world) :
  (forall w, P w -> P (f w)) -> call_keeps P (modify f).
Proof. intros Hf env w H. cbn. by apply Hf. Qed.

Lemma call_keeps_interact (P : world -> Prop) : call_keeps P interact.
Proof. intros env w H. unfold interact. by destruct env. Qed.


Lemma data_frames_app (t1 t2 : list effect) :
  data_frames (t1 ++ t2) = data_frames t1 ++ data_frames t2.
Proof.
  induction t1 as [|e t1 IH]; [done|].
  destruct e as [f| | | | | | | |e']; cbn; try done.
  destruct f; cbn; [done|]. by rewrite IH.
Qed.

Lemma data_frames_on_child (t : list effect) : data_frames (map OnChild t) = [].
Proof. induction t as [|e t IH]; [done|]. cbn. done. Qed.

(** A step that leaves [lastpos] and adds no DATA frame of the connection
    to the record. *)
Lemma same_acks_step (w0 w w' : world) :
  lastpos (conn w') = lastpos (conn w) ->
  data_frames (trace w') = data_frames (trace w) ->
  same_acks w0 w -> same_acks w0 w'.
Proof. intros Hl Ht (H1 & H2). split; congruence. Qed.

Lemma data_frames_emit (e : effect) (w : world) :
  data_frames [e] = [] ->
  data_frames (trace (emit e w)) = data_frames (trace w).
Proof. intros He. cbn. by rewrite data_frames_app, He, app_nil_r. Qed.

Lemma ept_cb_acks `{cfg : config} (f : frame) (w : world) :
  lastpos (conn (rpmsg_socket_ept_cb f w)) = lastpos (conn w)
  /\ data_frames (trace (rpmsg_socket_ept_cb f w)) = data_frames (trace w).
Proof.
  destruct f as [size p u g | pos mlen data].
  - cbn. by rewrite data_frames_app, app_nil_r.
  - unfold rpmsg_socket_ept_cb.
    assert (Hack : lastpos (conn (ept_cb_ack pos w)) = lastpos (conn w)
                   /\ data_frames (trace (ept_cb_ack pos w)) = data_frames (trace w)).
    { unfold ept_cb_ack, rpmsg_socket_poll_notify. destruct (0 <? _); [|done].
      by rewrite data_frames_emit. }
    destruct Hack as (Hl & Ht).
    destruct (0 <? Z.of_nat (length data)); [|done].
    assert (Hstore : forall buf w0,
      lastpos (conn (ept_cb_store buf w0)) = lastpos (conn w0)
      /\ data_frames (trace (ept_cb_store buf w0)) = data_frames (trace w0)).
    { intros buf w0. unfold ept_cb_store, rpmsg_socket_poll_notify.
      destruct (0 <? _); [|done]. by rewrite data_frames_emit. }
    match goal with |- context [ept_cb_store ?b ?x] =>
      destruct (Hstore b x) as (-> & ->) end.
    destruct (recvdata (conn (ept_cb_ack pos w))) as [ptr|]; cbn [fst]; [|done].
    unfold ept_cb_direct. by destruct (_ =? mlen).
Qed.

Lemma destroy_ept_acks (w : world) :
  lastpos (conn (rpmsg_socket_destroy_ept w)) = lastpos (conn w)
  /\ data_frames (trace (rpmsg_socket_destroy_ept w)) = data_frames (trace w).
Proof.
  unfold rpmsg_socket_destroy_ept, rpmsg_socket_poll_notify.
  destruct (ept_rdev (conn w)); [|done].
  rewrite data_frames_emit by done.
  cbn [upd set_conn trace emit set_trace].
  rewrite data_frames_app, app_nil_r. by destruct (negb _).
Qed.

Lemma close_acks (w : world) :
  lastpos (conn (snd (rpmsg_socket_close w))) = lastpos (conn w)
  /\ data_frames (trace (snd (rpmsg_socket_close w))) = data_frames (trace w).
Proof.
  unfold rpmsg_socket_close. break_if; [done|]. cbn [snd].
  rewrite data_frames_emit by done.
  cbn [emit set_trace conn].
  match goal with |- context [rpmsg_socket_destroy_ept ?x] =>
    destruct (destroy_ept_acks x) as (-> & ->) end.
  repeat break_if; by rewrite data_frames_emit.
Qed.

(** No callback sends a DATA frame on the connection or moves [lastpos]. *)
Lemma handle_event_acks `{cfg : config} (e : event) (w : world) :
  lastpos (conn (handle_event e w)) = lastpos (conn w)
  /\ data_frames (trace (handle_event e w)) = data_frames (trace w).
Proof.
  destruct e as [f|me| |cpu created|cpu|cpu name me a r c|i f| ];
    cbn [handle_event].
  - cbn [set_peer_ok trace conn]. apply ept_cb_acks.
  - by rewrite data_frames_emit.
  - unfold rpmsg_socket_ns_unbind, rpmsg_socket_poll_notify.
    by rewrite data_frames_emit.
  - unfold rpmsg_socket_device_created.
    destruct (ept_rdev (conn w)); [done|]. repeat break_if; try done;
      cbn [upd set_conn trace conn]; by rewrite data_frames_emit.
  - unfold rpmsg_socket_device_destroy. break_if; [|done].
    apply destroy_ept_acks.
  - unfold rpmsg_socket_ns_bind, rpmsg_socket_poll_notify.
    destruct (negb a); [done|].
    destruct (circbuf_resize _ _ r) as [ret rb].
    destruct (ret <? 0); [by rewrite data_frames_emit|].
    destruct (negb c); [by rewrite !data_frames_emit|].
    match goal with
    | |- context [match ?x with Some _ => _ | None => _ end] => destruct x
    end; cbn [upd set_conn set_next trace emit set_trace conn];
      rewrite ?data_frames_app; cbn [data_frames]; by rewrite ?app_nil_r.
  - destruct (next w !! i); [|done]. cbn.
    by rewrite data_frames_app, data_frames_on_child, app_nil_r.
  - apply close_acks.
Qed.

Lemma run_events_acks `{cfg : config} (w0 : world) (evs : list event) (w : world) :
  same_acks w0 w -> same_acks w0 (run_events evs w).
Proof.
  revert w. induction evs as [|e evs IH]; intros w H; [done|].
  cbn [run_events fold_left]. apply IH.
  destruct (handle_event_acks e w) as (Hl & Ht).
  by apply (same_acks_step w0 w).
Qed.

Lemma wait_on_acks `{cfg : config} (w0 : world)
    (count : rpmsg_socket_conn_s -> Z)
    (set_count : Z -> rpmsg_socket_conn_s -> rpmsg_socket_conn_s) :
  (forall v c, lastpos (set_count v c) = lastpos c) ->
  call_keeps (same_acks w0) (wait_on count set_count).
Proof.
  intros Hset env w H. unfold wait_on, sem_wait.
  destruct env as [|it env]; [done|].
  pose proof (run_events_acks w0 (ev it) w H) as H1.
  destruct (0 <? count (conn (run_events (ev it) w))).
  - apply (same_acks_step w0 (run_events (ev it) w)); [cbn; apply Hset|done|done].
  - by destruct (werr it).
Qed.

Lemma same_acks_emit (w0 : world) (e : effect) (w : world) :
  data_frames [e] = [] -> same_acks w0 w -> same_acks w0 (emit e w).
Proof.
  intros He. apply same_acks_step; [done|by apply data_frames_emit].
Qed.

Lemma connect_internal_acks `{cfg : config} (w0 : world) :
  call_keeps (same_acks w0) rpmsg_socket_connect_internal.
Proof.
  unfold rpmsg_socket_connect_internal, deliver.
  apply call_keeps_bind; [apply call_keeps_interact|intros it].
  apply call_keeps_bind; [apply call_keeps_gets|intros c].
  destruct (circbuf_resize _ _ _) as [ret rb].
  destruct (ret <? 0); [apply call_keeps_ret|].
  apply call_keeps_bind;
    [apply call_keeps_modify; intros w; by apply same_acks_step|intros ?].
  apply call_keeps_bind;
    [apply call_keeps_modify; intros w; by apply same_acks_emit|intros ?].
  apply call_keeps_bind;
    [apply call_keeps_modify; intros w; apply run_events_acks|intros ?].
  destruct (cret it <? 0); [apply call_keeps_ret|].
  apply call_keeps_bind; [apply call_keeps_gets|intros c'].
  destruct (sendsize c' =? 0); [|apply call_keeps_ret].
  destruct (_SS_ISNONBLOCK _); [apply call_keeps_ret|].
  apply call_keeps_bind; [by apply wait_on_acks|intros r].
  apply call_keeps_bind; [|intros ?; apply call_keeps_ret].
  destruct (r <? 0); [|apply call_keeps_ret].
  apply call_keeps_modify; intros w; by apply same_acks_emit.
Qed.

Lemma recvmsg_read_acks `{cfg : config} (s_type : Z) (buf : N) (len : Z)
    (w : world) :
  lastpos (conn (snd (recvmsg_read s_type buf len w))) = lastpos (conn w)
  /\ trace (snd (recvmsg_read s_type buf len w)) = trace w.
Proof.
  unfold recvmsg_read.
  destruct (negb (s_type =? SOCK_STREAM)).
  - destruct (circbuf_read (recvbuf (conn w)) sizeof_uint32) as [hdr rb1].
    destruct (0 <? Z.of_nat (length hdr)); [|done].
    by destruct (circbuf_read rb1 _) as [bytes rb2].
  - by destruct (circbuf_read _ _) as [bytes rb].
Qed.

(** Up to the label [out], [recvmsg] sends no DATA frame and leaves
    [lastpos]. *)
Lemma recvmsg_body_acks `{cfg : config} (w0 : world) (s_type : Z)
    (msg : msghdr) (flags : Z) :
  call_keeps (same_acks w0) (recvmsg_body s_type msg flags).
Proof.
  intros env w H. unfold recvmsg_body. cbn zeta.
  pose proof (recvmsg_read_acks s_type (iov_base (msg_iov0 msg))
                (iov_len (msg_iov0 msg)) w) as (Hl & Ht).
  destruct (recvmsg_read _ _ _ w) as [ret w1]. cbn [snd] in Hl, Ht.
  assert (H1 : same_acks w0 w1).
  { apply (same_acks_step w0 w); [done|by rewrite Ht|done]. }
  destruct (0 <? ret); [done|].
  destruct (negb (ept_alive (conn w1))); [done|].
  destruct (_ || _); [done|].
  match goal with
  | |- match ?m env ?w2 with _ => _ end =>
      assert (Hk : call_keeps (same_acks w0) m); [|apply Hk]
  end.
  - apply call_keeps_bind; [by apply wait_on_acks|intros r].
    apply call_keeps_bind; [apply call_keeps_gets|intros c].
    destruct (recvdata c); [|apply call_keeps_ret].
    apply call_keeps_bind; [|intros ?; apply call_keeps_ret].
    apply call_keeps_modify; intros w2; by apply same_acks_step.
  - by apply (same_acks_step w0 w1).
Qed.

(** A call of [recvmsg] that returns a positive count went through the
    label [out] and the ack helper; until then it has sent no DATA frame
    and has left [lastpos]. *)
Lemma recvmsg_positive_out `{cfg : config}
    (s_type : Z) (msg : msghdr) (flags : Z) (env : list env_item) (w : world)
    (ret : Z) (msg' : msghdr) (w' : world) (env' : list env_item) :
  rpmsg_socket_recvmsg s_type msg flags env w = Ret (ret, msg') w' env' ->
  0 < ret ->
  exists wm, w' = rpmsg_socket_wakeup wm /\ same_acks w wm.
Proof.
  unfold rpmsg_socket_recvmsg. unfold_m. intros H Hpos.
  set (sel := negb (s_type =? SOCK_STREAM) && _SS_ISBOUND (s_flags (conn w))
              && negb (_SS_ISCONNECTED (s_flags (conn w)))) in H.
  assert (Hk : forall r w1 env1,
    same_acks w w1 ->
    (if r <? 0 then fun env0 w0 => Ret (r, msg) w0 env0
     else fun env0 w0 =>
       (if negb (_SS_ISCONNECTED (s_flags (conn w0)))
        then fun env2 w2 => Ret (- EISCONN, msg) w2 env2
        else fun env2 w2 =>
          match recvmsg_body s_type msg flags env2 w2 with
          | Ret a w3 env3 =>
              (if 0 <? a
               then fun env4 w4 =>
                 Ret (a, msg_with_from (conn (rpmsg_socket_wakeup w4)) msg)
                     (rpmsg_socket_wakeup w4) env4
               else fun env4 w4 => Ret (a, msg) w4 env4) env3 w3
          | Pend w3 => Pend w3
          end) env0 w0) env1 w1 = Ret (ret, msg') w' env' ->
    exists wm, w' = rpmsg_socket_wakeup wm /\ same_acks w wm).
  { intros r w1 env1 H1 Hr.
    destruct (r <? 0) eqn:Er.
    { injection Hr as -> _ _ _. lia. }
    destruct (negb (_SS_ISCONNECTED (s_flags (conn w1)))).
    { injection Hr as <- _ _ _. unfold EISCONN in Hpos. lia. }
    pose proof (recvmsg_body_acks w s_type msg flags env1 w1 H1) as Hb.
    destruct (recvmsg_body s_type msg flags env1 w1) as [a w3 env3|w3] eqn:Eb;
      [|discriminate].
    destruct (0 <? a) eqn:Ea.
    - injection Hr as -> <- <- <-. by exists w3.
    - injection Hr as -> _ _ _. lia. }
  assert (H0 : same_acks w w) by done.
  destruct sel.
  - pose proof (connect_internal_acks w env w H0) as Hc.
    destruct (rpmsg_socket_connect_internal env w) as [r w1 env1|w1];
      [|discriminate].
    by apply (Hk r w1 env1).
  - by apply (Hk 0 w env).
Qed.

(** C2, as the code has it: a [recvmsg] call that returns a positive count
    has sent, as its last step and while the endpoint is alive (the device
    is there and the peer has not unbound), one DATA frame of length 0
    carrying [recvpos] exactly when [recvpos - lastpos] exceeds half the
    size of the receive buffer (the window announced to the peer), and has
    then set [lastpos] to [recvpos]; otherwise, and always once the
    endpoint is gone or unbound, it has sent no DATA frame and [lastpos] is
    what it was.  [w] is the world before the call, [w'] the world after
    it; [lastpos] does not move before the ack helper runs. *)
Theorem recvmsg_ack_when_endpoint_alive `{cfg : config}
    (s_type : Z) (msg : msghdr) (flags : Z) (env : list env_item) (w : world)
    (ret : Z) (msg' : msghdr) (w' : world) (env' : list env_item) :
  rpmsg_socket_recvmsg s_type msg flags env w = Ret (ret, msg') w' env' ->
  0 < ret ->
  if ept_alive (conn w')
     && (circbuf_size (recvbuf (conn w')) / 2
           <? U32.sub (recvpos (conn w')) (lastpos (conn w)))
  then lastpos (conn w') = recvpos (conn w')
       /\ data_frames (trace w')
          = data_frames (trace w) ++ [DATA (recvpos (conn w')) 0 []]
       /\ exists t, trace w' = t ++ [Tx (DATA (recvpos (conn w')) 0 [])]
  else lastpos (conn w') = lastpos (conn w)
       /\ data_frames (trace w') = data_frames (trace w).
Proof.
  intros H Hpos.
  destruct (recvmsg_positive_out _ _ _ _ _ _ _ _ _ H Hpos)
    as (wm & -> & Hl & Ht).
  pose proof (wakeup_spec wm) as (Hr & _ & _ & Hw). cbn zeta in *.
  assert (Hsame : ept_alive (conn (rpmsg_socket_wakeup wm)) = ept_alive (conn wm)
                  /\ recvbuf (conn (rpmsg_socket_wakeup wm)) = recvbuf (conn wm)).
  { unfold rpmsg_socket_wakeup. destruct (negb (ept_alive (conn wm))); [done|].
    destruct (_ <? _); [|done]. unfold ept_alive. cbn. done. }
  destruct Hsame as (-> & ->). rewrite Hr, <- Hl.
  destruct (ept_alive (conn wm)
            && (circbuf_size (recvbuf (conn wm)) / 2
                  <? U32.sub (recvpos (conn wm)) (lastpos (conn wm)))).
  - destruct Hw as (Hl' & Ht'). split; [done|]. split; [|by exists (trace wm)].
    rewrite Ht', data_frames_app, Ht. done.
  - destruct Hw as (Hl' & Ht'). split; [done|]. by rewrite Ht'.
Qed.

(** The same call on a concrete socket: ten bytes are read from a buffer
    of 16, so [recvpos - lastpos] is 10 and exceeds 8, and the frame goes
    out. *)
Lemma recvmsg_ack_when_endpoint_alive_witness :
  exists w',
    rpmsg_socket_recvmsg (cfg := nucleo) SOCK_STREAM (msg_of_len 10) 0 []
      alive_reader = Ret (10, msg_of_len 10) w' []
    /\ lastpos (conn w') = 10
    /\ data_frames (trace w') = [DATA 10 0 []].
Proof.
  eexists. split; [vm_compute; reflexivity|].
  pose proof (recvmsg_ack_when_endpoint_alive (cfg := nucleo)
                SOCK_STREAM (msg_of_len 10) 0 [] alive_reader 10
                (msg_of_len 10) _ [] eq_refl ltac:(lia)) as H.
  vm_compute in H. destruct H as (H1 & H2 & _).
  split; [exact H1|exact H2].
Defined.

(** C2 as stated fails when the peer has unbound: ten bytes are delivered
    from a buffer of 16, [recvpos - lastpos] is 10 and exceeds 8, yet no
    frame is sent and [lastpos] stays 0. *)
Lemma recvmsg_ack_counterexample :
  exists msg' w',
    rpmsg_socket_recvmsg (cfg := nucleo) SOCK_STREAM (msg_of_len 10) 0 []
      orphan_reader = Ret (10, msg') w' []
    /\ circbuf_size (recvbuf (conn w')) / 2
       < U32.sub (recvpos (conn w')) (lastpos (conn orphan_reader))
    /\ trace w' = trace orphan_reader
    /\ lastpos (conn w') = lastpos (conn orphan_reader)
    /\ lastpos (conn w') <> recvpos (conn w').
Proof.
  eexists _, _. split; [vm_compute; reflexivity|].
  vm_compute. repeat split; congruence.
Qed.

(** * Further properties of the code *)

(** ** Addresses *)

Lemma strlcpy_length (src : string) (n : nat) :
  (String.length (strlcpy src n) <= n - 1)%nat.
Proof.
  unfold strlcpy. generalize (n - 1)%nat as k. clear n.
  induction src as [|a src IH]; intros k.
  - destruct k; cbn; lia.
  - destruct k as [|k]; cbn; [lia|]. specialize (IH k). lia.
Qed.

(** [bind] stores the address it is given and clears the name suffix:
    afterwards [getconnname] returns that address and the size of the
    structure, and [getsockname] returns it with the CPU field replaced by
    the local CPU name, cut to fit the field. *)
Theorem bind_then_getname_round_trip `{cfg : config}
    (addr buf : sockaddr_rpmsg) (addrlen buflen : Z) (w : world) :
  rp_family addr = AF_RPMSG ->
  sizeof_sockaddr_rpmsg <= addrlen ->
  sizeof_sockaddr_rpmsg <= buflen ->
  exists w',
    rpmsg_socket_bind addr addrlen w = (0, w')
    /\ nameid (conn w') = None
    /\ rpmsg_socket_getconnname (conn w') (Some buf) buflen
       = (0, Some addr, sizeof_sockaddr_rpmsg)
    /\ rpmsg_socket_getsockname (conn w') (Some buf) buflen
       = (0,
          Some (mk_sockaddr AF_RPMSG
                  (strlcpy CONFIG_RPTUN_LOCAL_CPUNAME RPMSG_SOCKET_CPU_SIZE)
                  (rp_name addr)),
          sizeof_sockaddr_rpmsg)
    /\ (String.length (strlcpy CONFIG_RPTUN_LOCAL_CPUNAME RPMSG_SOCKET_CPU_SIZE)
        <= RPMSG_SOCKET_CPU_SIZE - 1)%nat.
Proof.
  intros Hf Hl Hb.
  unfold rpmsg_socket_bind, rpmsg_socket_setaddr.
  rewrite Hf, Z.eqb_refl. cbn [negb orb].
  destruct (addrlen <? sizeof_sockaddr_rpmsg) eqn:E;
    [apply Z.ltb_lt in E; lia|].
  eexists. split; [reflexivity|]. split; [reflexivity|].
  unfold rpmsg_socket_getsockname, rpmsg_socket_getconnname, rpmsg_socket_getaddr.
  destruct (buflen <? sizeof_sockaddr_rpmsg) eqn:E2;
    [apply Z.ltb_lt in E2; lia|].
  cbn. rewrite Hf. split; [done|]. split; [done|]. apply strlcpy_length.
Qed.

Lemma bind_then_getname_round_trip_witness :
  exists w',
    rpmsg_socket_bind (cfg := nucleo) (mk_sockaddr 45 "cp" "svc") 34 fresh_socket
      = (0, w')
    /\ rpmsg_socket_getsockname (cfg := nucleo) (conn w')
         (Some (mk_sockaddr 0 "" "")) 40
       = (0, Some (mk_sockaddr 45 "ap" "svc"), 34).
Proof.
  destruct (bind_then_getname_round_trip (cfg := nucleo)
              (mk_sockaddr 45 "cp" "svc") (mk_sockaddr 0 "" "") 34 40 fresh_socket)
    as (w' & Hb & _ & _ & Hs & _); [reflexivity|cbn; lia|cbn; lia|].
  exists w'. split; [exact Hb|exact Hs].
Defined.

(** ** Name matching *)

Lemma string_prefix_app (p s : string) :
  String.prefix p s = true <-> exists rest, s = (p ++ rest)%string.
Proof.
  revert p. induction s as [|b s IH]; intros p.
  - destruct p as [|a p]; cbn.
    + split; [intros _; by exists ""%string|done].
    + split; [discriminate|]. intros (rest & H). discriminate.
  - destruct p as [|a p]; cbn.
    + split; [intros _; by exists (String b s)|done].
    + destruct (Ascii.ascii_dec a b) as [->|Hne].
      * rewrite IH. split.
        -- intros (rest & ->). by exists rest.
        -- intros (rest & H). injection H as ->. by exists rest.
      * split; [discriminate|]. intros (rest & H). injection H as -> _. done.
Qed.

(** The match callback of a listener accepts exactly the endpoint names
    that begin with ["sk:"] and the service name the listener is bound to
    (whatever follows, a suffix or a longer name), and, when the listener is
    bound to a CPU, only on that CPU. *)
Theorem ns_match_accepts_prefix `{cfg : config} (cpu name : string) (w : world) :
  rpmsg_socket_ns_match cpu name w = true
  <-> (exists rest,
         name = ("sk:" ++ rp_name (rpaddr (conn w)) ++ rest)%string)
      /\ (rp_cpu (rpaddr (conn w)) = ""%string
          \/ rp_cpu (rpaddr (conn w)) = cpu).
Proof.
  unfold rpmsg_socket_ns_match.
  destruct (String.prefix (ept_name (conn w)) name) eqn:Ep; cbn [negb].
  - apply string_prefix_app in Ep as (rest & Hn).
    assert (Hex : exists rest0,
      name = ("sk:" ++ rp_name (rpaddr (conn w)) ++ rest0)%string).
    { exists rest. rewrite Hn. unfold ept_name, RPMSG_SOCKET_NAME_PREFIX.
      reflexivity. }
    destruct (String.eqb (rp_cpu (rpaddr (conn w))) "") eqn:E1; cbn [negb andb].
    + apply String.eqb_eq in E1. split; [intros _; split; [done|by left]|done].
    + destruct (String.eqb (rp_cpu (rpaddr (conn w))) cpu) eqn:E2; cbn [negb].
      * apply String.eqb_eq in E2. split; [intros _; split; [done|by right]|done].
      * apply String.eqb_neq in E1, E2. split; [discriminate|].
        intros (_ & [H|H]); done.
  - split; [discriminate|]. intros ((rest & Hn) & _).
    assert (String.prefix (ept_name (conn w)) name = true); [|congruence].
    apply string_prefix_app. exists rest. rewrite Hn.
    unfold ept_name, RPMSG_SOCKET_NAME_PREFIX. reflexivity.
Qed.

(** ** The accept queue: order *)

(** Case analysis on the integer comparisons of a goal. *)
Ltac zcases :=
  repeat match goal with
  | |- context [?a <=? ?b] => destruct (Z.leb_spec a b)
  | |- context [?a <? ?b] => destruct (Z.ltb_spec a b)
  | |- context [?a =? ?b] => destruct (Z.eqb_spec a b)
  end.

Lemma ns_bind_walk_spec (bl cnt : Z) (q : list rpmsg_socket_conn_s)
    (new : rpmsg_socket_conn_s) :
  q <> [] ->
  ns_bind_walk bl cnt q new
  = if cnt + Z.of_nat (length q) <? bl then Some (q ++ [new]) else None.
Proof.
  revert cnt. induction q as [|c q IH]; intros cnt Hq; [done|].
  cbn [ns_bind_walk].
  destruct q as [|c' q].
  - cbn [ns_bind_walk length option_map app]. zcases; try done; lia.
  - rewrite IH by done. cbn [length] in *.
    replace (cnt + 1 + Z.of_nat (S (length q)))
      with (cnt + Z.of_nat (S (S (length q)))) by lia.
    zcases; try done; lia.
Qed.

(** When a peer endpoint is bound to a listener and the allocations
    succeed, the new connection is announced to the peer with a SYNC frame
    that carries the configured receive-buffer size; it is then appended
    behind everything already queued if the queue holds fewer than
    [backlog] connections, and the listener is woken; otherwise the queue
    stays as it is and the new connection's endpoint is destroyed and the
    connection freed. *)
Theorem ns_bind_appends_or_rejects `{cfg : config} (cpu name : string) (me : ucred)
    (w : world) :
  0 < backlog (conn w) ->
  exists new,
    ept_rdev new = Some cpu
    /\ circbuf_size (recvbuf new) = CONFIG_NET_RPMSG_RXBUF_SIZE
    /\ rpaddr new
       = mk_sockaddr AF_RPMSG (strlcpy cpu RPMSG_SOCKET_CPU_SIZE)
           (strlcpy
              (String.substring RPMSG_SOCKET_NAME_PREFIX_LEN
                 (String.length name - RPMSG_SOCKET_NAME_PREFIX_LEN) name)
              RPMSG_SOCKET_NAME_SIZE)
    /\ sendsize new = 0 /\ sendsem new = 0 /\ backlog new = 0
    /\ recvdata new = None
    /\ let w' := rpmsg_socket_ns_bind cpu name me true true true w in
       let announced :=
         [OnChild (CreateEpt name None);
          OnChild (Tx (SYNC CONFIG_NET_RPMSG_RXBUF_SIZE (pid me) (uid me) (gid me)))] in
       if Z.of_nat (length (next w)) <? backlog (conn w) then
         next w' = next w ++ [new]
         /\ recvsem (conn w') = rpmsg_socket_post (recvsem (conn w))
         /\ trace w' = trace w ++ announced ++ [PollNotify POLLIN]
       else
         next w' = next w
         /\ conn w' = conn w
         /\ trace w' = trace w ++ announced ++ [OnChild DestroyEpt; OnChild Free].
Proof.
  intros Hbl. unfold rpmsg_socket_ns_bind. cbn [negb].
  destruct (circbuf_resize (recvbuf rpmsg_socket_alloc)
              CONFIG_NET_RPMSG_RXBUF_SIZE true) as [ret rb] eqn:Er.
  assert (Hrb : ret = 0 /\ circbuf_size rb = CONFIG_NET_RPMSG_RXBUF_SIZE).
  { unfold circbuf_resize in Er. cbn in Er.
    destruct (CONFIG_NET_RPMSG_RXBUF_SIZE =? 0) eqn:E0.
    - injection Er as <- <-. apply Z.eqb_eq in E0. done.
    - injection Er as <- <-. done. }
  destruct Hrb as (-> & Hsz). cbn [Z.ltb Z.compare].
  eexists. split; [|split; [|split; [|split; [|split; [|split; [|split]]]]]];
    cycle 7.
  - cbn zeta.
    assert (Hsync : forall c0, recvbuf c0 = rb ->
      rpmsg_socket_ns_bound me c0
      = SYNC CONFIG_NET_RPMSG_RXBUF_SIZE (pid me) (uid me) (gid me)).
    { intros c0 Hc0. unfold rpmsg_socket_ns_bound. by rewrite Hc0, Hsz. }
    rewrite Hsync by reflexivity.
    cbn [emit set_trace conn next trace].
    destruct (next w) as [|c q] eqn:En.
    + cbn [ns_bind_walk length].
      destruct (Z.ltb_spec (Z.of_nat 0) (backlog (conn w))); [|lia].
      unfold rpmsg_socket_poll_notify. cbn.
      split; [done|]. split; [done|]. rewrite <- ?app_assoc. done.
    + rewrite ns_bind_walk_spec by done. rewrite Z.add_0_l.
      destruct (Z.of_nat (length (c :: q)) <? backlog (conn w)).
      * unfold rpmsg_socket_poll_notify. cbn.
        split; [done|]. split; [done|]. rewrite <- ?app_assoc. done.
      * cbn. rewrite ?En.
        split; [done|]. split; [done|]. rewrite <- ?app_assoc. done.
  - reflexivity.
  - exact Hsz.
  - reflexivity.
  - reflexivity.
  - reflexivity.
  - reflexivity.
  - reflexivity.
Qed.

Lemma ns_bind_appends_or_rejects_witness :
  exists new,
    ept_rdev new = Some "cp"%string
    /\ rp_name (rpaddr new) = "svc"%string
    /\ next (rpmsg_socket_ns_bind (cfg := nucleo) "cp" "sk:svc" (mk_ucred 7 0 0)
               true true true listening_socket) = [new].
Proof.
  destruct (ns_bind_appends_or_rejects (cfg := nucleo) "cp" "sk:svc"
              (mk_ucred 7 0 0) listening_socket)
    as (new & Hr & _ & Ha & _ & _ & _ & _ & Hq); [reflexivity|].
  exists new. split; [exact Hr|]. split; [by rewrite Ha|].
  cbn zeta in Hq.
  change (Z.of_nat (length (next listening_socket))
            <? backlog (conn listening_socket)) with true in Hq.
  destruct Hq as (Hq & _). exact Hq.
Defined.

(** A peer endpoint bound to a listener with an empty queue is what the
    next [accept] hands out, once the peer's SYNC frame has reached it: the
    accepted connection is named after the peer endpoint without the
    ["sk:"] prefix, lives on the peer's CPU, carries the peer's window and
    credentials, is connected and marked as accepted; [accept] registers
    its device-destroy callback, empties the queue and fills in the
    address. *)
Theorem accept_hands_out_bound_connection `{cfg : config}
    (cpu name : string) (me : ucred) (size p u g : Z)
    (buf : sockaddr_rpmsg) (buflen : Z)
    (it : env_item) (env : list env_item) (w : world) :
  _SS_ISLISTENING (s_flags (conn w)) = true ->
  0 < backlog (conn w) ->
  next w = [] ->
  ev it = [EvRecv (SYNC size p u g)] ->
  sizeof_sockaddr_rpmsg <= buflen ->
  exists c w',
    rpmsg_socket_accept (Some buf) buflen (it :: env)
      (rpmsg_socket_ns_bind cpu name me true true true w)
    = Ret (0, mk_accepted (Some c) (Some (rpaddr c)) sizeof_sockaddr_rpmsg) w' env
    /\ rpaddr c
       = mk_sockaddr AF_RPMSG (strlcpy cpu RPMSG_SOCKET_CPU_SIZE)
           (strlcpy
              (String.substring RPMSG_SOCKET_NAME_PREFIX_LEN
                 (String.length name - RPMSG_SOCKET_NAME_PREFIX_LEN) name)
              RPMSG_SOCKET_NAME_SIZE)
    /\ sendsize c = size
    /\ cred c = mk_ucred p u g
    /\ _SS_ISCONNECTED (s_flags c) = true
    /\ backlog c = -2
    /\ ept_rdev c = Some cpu
    /\ next w' = []
    /\ In (OnChild (Register CB_ACCEPTED)) (trace w').
Proof.
  intros Hl Hbl Hn Hev Hlen.
  destruct w as [c0 q m t gid ok]. cbn in Hl, Hbl, Hn. subst q.
  unfold rpmsg_socket_ns_bind. cbn [negb].
  destruct (circbuf_resize (recvbuf rpmsg_socket_alloc)
              CONFIG_NET_RPMSG_RXBUF_SIZE true) as [ret rb] eqn:Er.
  assert (Hret : ret = 0).
  { unfold circbuf_resize in Er. cbn in Er.
    destruct (CONFIG_NET_RPMSG_RXBUF_SIZE =? 0); by injection Er as <- _. }
  subst ret. cbn [Z.ltb Z.compare].
  cbn [emit set_trace conn next trace ns_bind_walk].
  unfold rpmsg_socket_accept, rpmsg_socket_poll_notify.
  cbn [emit set_trace conn next trace upd set_conn set_next backlog set_recvsem
       s_flags].
  destruct (Z.eqb_spec (backlog c0) (-1)); [lia|]. rewrite Hl. cbn [negb].
  cbn [accept_loop emit set_trace conn next trace upd set_conn set_next
       set_backlog sendsize set_rpaddr set_ept_rdev set_recvbuf rpmsg_socket_alloc].
  cbn [Z.eqb]. unfold sem_wait. rewrite Hev.
  cbn [run_events fold_left handle_event child_world conn peer_ok].
  cbn.
  unfold rpmsg_socket_getaddr.
  destruct (Z.ltb_spec buflen sizeof_sockaddr_rpmsg); [lia|].
  eexists _, _. split; [reflexivity|]. cbn.
  split; [done|]. split; [done|]. split; [done|].
  split; [apply isconnected_lor|]. split; [done|]. split; [done|].
  split; [done|]. apply in_or_app. left. apply in_or_app. right. left. done.
Qed.

Lemma accept_hands_out_bound_connection_witness :
  exists c w',
    rpmsg_socket_accept (cfg := nucleo) (Some (mk_sockaddr 0 "" "")) 34 [sync_item]
      (rpmsg_socket_ns_bind (cfg := nucleo) "cp" "sk:svc" (mk_ucred 7 0 0)
         true true true listener)
    = Ret (0, mk_accepted (Some c) (Some (rpaddr c)) 34) w' []
    /\ rp_name (rpaddr c) = "svc"%string
    /\ sendsize c = 4096.
Proof.
  destruct (accept_hands_out_bound_connection (cfg := nucleo) "cp" "sk:svc"
              (mk_ucred 7 0 0) 4096 7 0 0 (mk_sockaddr 0 "" "") 34 sync_item []
              listener)
    as (c & w' & Ha & Hr & Hs & _);
    [reflexivity|reflexivity|reflexivity|reflexivity|cbn; lia|].
  exists c, w'. split; [exact Ha|]. split; [by rewrite Hr|exact Hs].
Defined.

(** ** Poll *)

Lemma poll_free_slot_lookup (slots : list (option N)) (i : nat) :
  poll_free_slot slots = Some i -> slots !! i = Some None.
Proof.
  revert i. induction slots as [|s slots IH]; intros i H; [discriminate|].
  destruct s as [x|].
  - cbn [poll_free_slot] in H.
    destruct (poll_free_slot slots) as [i'|] eqn:E; [|discriminate].
    injection H as <-. by apply IH.
  - by injection H as <-.
Qed.

Lemma poll_slot_of_fresh (slots : list (option N)) (i : nat) (fds : N) :
  poll_free_slot slots = Some i ->
  Some fds ∉ slots ->
  poll_slot_of fds (<[i := Some fds]> slots) = Some i.
Proof.
  revert i. induction slots as [|s slots IH]; intros i H Hnot; [discriminate|].
  apply not_elem_of_cons in Hnot as (Hne & Hnot).
  destruct s as [x|].
  - cbn [poll_free_slot] in H.
    destruct (poll_free_slot slots) as [i'|] eqn:E; [|discriminate].
    injection H as <-. cbn.
    destruct (decide (Some x = Some fds)) as [Heq|_]; [congruence|].
    exact (f_equal (option_map S) (IH i' eq_refl Hnot)).
  - injection H as <-. cbn. by destruct (decide (Some fds = Some fds)).
Qed.

Lemma poll_free_slot_spec (slots : list (option N)) (i : nat) (fds : N) :
  poll_free_slot slots = Some i ->
  slots !! i = Some None
  /\ length (<[i := Some fds]> slots) = length slots
  /\ <[i := None]> (<[i := Some fds]> slots) = slots
  /\ (forall j x, slots !! j = Some (Some x) ->
        <[i := Some fds]> slots !! j = Some (Some x))
  /\ (Some fds ∉ slots -> poll_slot_of fds (<[i := Some fds]> slots) = Some i).
Proof.
  intros H. pose proof (poll_free_slot_lookup slots i H) as Hi.
  split; [done|]. split; [apply length_insert|].
  split; [rewrite list_insert_insert_eq; by apply list_insert_id|].
  split; [|by apply poll_slot_of_fresh].
  intros j x Hj. destruct (decide (i = j)) as [->|Hne]; [congruence|].
  by rewrite list_lookup_insert_ne.
Qed.

Lemma poll_free_slot_none (slots : list (option N)) :
  poll_free_slot slots = None <-> Forall (fun s => s <> None) slots.
Proof.
  induction slots as [|s slots IH]; cbn.
  - split; [constructor|done].
  - destruct s as [x|].
    + destruct (poll_free_slot slots) as [i|]; cbn.
      * split; [discriminate|]. intros H. apply Forall_inv_tail in H.
        apply IH in H. discriminate.
      * split; [|done]. intros _. constructor; [done|]. by apply IH.
    + split; [discriminate|]. intros H. apply Forall_inv in H. done.
Qed.

(** A poll structure that is not yet registered with the connection is
    registered by the setup call and removed again by the teardown call:
    after the two calls the slot array is what it was, and [fds->priv] is
    NULL.  This holds also when the setup call fails: with [EBUSY] it binds
    nothing, and with [ECONNRESET] on a closed listener the slot it has
    bound is cleared by the teardown. *)
Theorem poll_setup_teardown_round_trip
    (slots : list (option N)) (fds : N) (priv : option nat) (w : world) :
  Some fds ∉ slots ->
  let r1 := rpmsg_socket_poll slots fds priv true w in
  let r2 := rpmsg_socket_poll (fst (snd (fst r1))) fds (snd (snd (fst r1)))
              false (snd r1) in
  fst (fst r2) = 0
  /\ fst (snd (fst r2)) = slots
  /\ snd (snd (fst r2)) = None
  /\ snd r2 = snd r1.
Proof.
  intros Hnot. cbn zeta.
  destruct (poll_free_slot slots) as [i|] eqn:Ef.
  - destruct (poll_free_slot_spec slots i fds Ef) as (_ & _ & Hback & _ & Hfind).
    specialize (Hfind Hnot).
    assert (Hr1 : exists ret w1,
      rpmsg_socket_poll slots fds priv true w
      = (ret, (<[i := Some fds]> slots, Some i), w1)).
    { unfold rpmsg_socket_poll. rewrite Ef. repeat break_if; eauto. }
    destruct Hr1 as (ret & w1 & ->). cbn [fst snd].
    unfold rpmsg_socket_poll. rewrite Hfind. cbn [fst snd]. done.
  - assert (Hr1 : rpmsg_socket_poll slots fds priv true w
                  = (- EBUSY, (slots, None), w)).
    { unfold rpmsg_socket_poll. by rewrite Ef. }
    rewrite Hr1. cbn. done.
Qed.

Lemma poll_setup_teardown_round_trip_witness :
  let r1 := rpmsg_socket_poll two_slots 9%N None true alive_reader in
  fst (snd (fst r1)) = [Some 5%N; Some 9%N]
  /\ fst (snd (fst (rpmsg_socket_poll (fst (snd (fst r1))) 9%N
                      (snd (snd (fst r1))) false (snd r1)))) = two_slots.
Proof.
  split; [reflexivity|].
  apply (poll_setup_teardown_round_trip two_slots 9%N None
           alive_reader).
  intros H. apply elem_of_cons in H as [H|H]; [discriminate|].
  apply elem_of_cons in H as [H|H]; [discriminate|].
  by apply elem_of_nil in H.
Defined.

(** The setup call of [poll] fails with [EBUSY] exactly when every slot is
    taken, and then changes nothing and notifies nobody; in every case it
    keeps the length of the slot array and every waiter registered
    before. *)
Theorem poll_setup_busy_iff_full
    (slots : list (option N)) (fds : N) (priv : option nat) (w : world) :
  let r := rpmsg_socket_poll slots fds priv true w in
  (fst (fst r) = - EBUSY <-> Forall (fun s => s <> None) slots)
  /\ (fst (fst r) = - EBUSY -> r = (- EBUSY, (slots, None), w))
  /\ length (fst (snd (fst r))) = length slots
  /\ (forall j x, slots !! j = Some (Some x) ->
        fst (snd (fst r)) !! j = Some (Some x)).
Proof.
  cbn zeta. unfold rpmsg_socket_poll.
  destruct (poll_free_slot slots) as [i|] eqn:Ef.
  - destruct (poll_free_slot_spec slots i fds Ef) as (_ & Hlen & _ & Hkeep & _).
    assert (Hfull : ~ Forall (fun s => s <> None) slots).
    { intros H. apply poll_free_slot_none in H. congruence. }
    repeat break_if; cbn [fst snd];
      (split; [split; [unfold EBUSY, ECONNRESET; lia|done]|]);
      (split; [unfold EBUSY, ECONNRESET; lia|]); done.
  - cbn [fst snd]. split; [|done]. split; [|done].
    intros _. by apply poll_free_slot_none.
Qed.

(** On a socket that is not listening, the setup call of [poll] that finds
    a free slot succeeds and notifies the waiters with an event set in which
    hangup is set exactly when the endpoint is gone or the peer has
    unbound, writable exactly when the socket is connected and the send
    space is positive, and readable exactly when the socket is connected
    and the receive buffer holds bytes. *)
Theorem poll_reports_readiness
    (slots : list (option N)) (fds : N) (priv : option nat) (w : world) (i : nat) :
  poll_free_slot slots = Some i ->
  _SS_ISLISTENING (s_flags (conn w)) = false ->
  exists e,
    rpmsg_socket_poll slots fds priv true w
    = (0, (<[i := Some fds]> slots, Some i), emit (PollNotify e) w)
    /\ (Z.land e POLLHUP <> 0 <-> ept_alive (conn w) = false)
    /\ (Z.land e POLLOUT <> 0
        <-> _SS_ISCONNECTED (s_flags (conn w)) = true
            /\ 0 < rpmsg_socket_get_space (conn w))
    /\ (Z.land e POLLIN <> 0
        <-> _SS_ISCONNECTED (s_flags (conn w)) = true
            /\ circbuf_used (recvbuf (conn w)) <> 0).
Proof.
  intros Hf Hl. unfold rpmsg_socket_poll, rpmsg_socket_poll_notify.
  rewrite Hf, Hl. cbn zeta. unfold circbuf_is_empty.
  destruct (_SS_ISCONNECTED (s_flags (conn w)));
    destruct (ept_alive (conn w)); cbn [negb];
    destruct (Z.ltb_spec 0 (rpmsg_socket_get_space (conn w)));
    destruct (Z.eqb_spec (circbuf_used (recvbuf (conn w))) 0); cbn [negb];
    (eexists; split; [reflexivity|]);
    repeat split; try done; try (intros (? & ?)); try lia;
    try (intros _; vm_compute; discriminate);
    try (intros H'; vm_compute in H'; congruence).
Qed.

Lemma poll_reports_readiness_witness :
  exists e,
    rpmsg_socket_poll two_slots 9%N None true alive_reader
    = (0, ([Some 5%N; Some 9%N], Some 1%nat), emit (PollNotify e) alive_reader)
    /\ Z.land e POLLIN <> 0
    /\ Z.land e POLLOUT = 0.
Proof.
  destruct (poll_reports_readiness two_slots 9%N None alive_reader 1)
    as (e & Hp & _ & Hout & Hin); [reflexivity|reflexivity|].
  exists e. split; [exact Hp|]. split.
  - apply Hin. split; [reflexivity|]. vm_compute. discriminate.
  - destruct (Z.eq_dec (Z.land e POLLOUT) 0) as [H0|Hn]; [exact H0|].
    apply Hout in Hn as (_ & Hn). vm_compute in Hn. discriminate.
Defined.

(** On a listening socket, the setup call of [poll] that finds a free slot
    fails with [ECONNRESET] when the listener is closed, notifying nobody
    although the slot stays bound; otherwise it succeeds and notifies the
    waiters with readable exactly when a connection waits in the accept
    queue, and never with writable or hangup. *)
Theorem poll_reports_listener_readiness
    (slots : list (option N)) (fds : N) (priv : option nat) (w : world) (i : nat) :
  poll_free_slot slots = Some i ->
  _SS_ISLISTENING (s_flags (conn w)) = true ->
  (backlog (conn w) = -1 ->
   rpmsg_socket_poll slots fds priv true w
   = (- ECONNRESET, (<[i := Some fds]> slots, Some i), w))
  /\ (backlog (conn w) <> -1 ->
      exists e,
        rpmsg_socket_poll slots fds priv true w
        = (0, (<[i := Some fds]> slots, Some i), emit (PollNotify e) w)
        /\ (Z.land e POLLIN <> 0 <-> next w <> [])
        /\ Z.land e POLLOUT = 0
        /\ Z.land e POLLHUP = 0).
Proof.
  intros Hf Hl. unfold rpmsg_socket_poll, rpmsg_socket_poll_notify.
  rewrite Hf, Hl. cbn zeta. split.
  - intros ->. done.
  - intros Hb. destruct (Z.eqb_spec (backlog (conn w)) (-1)); [done|].
    destruct (next w) as [|c q]; (eexists; split; [reflexivity|]).
    + split; [|done]. split; [intros H; by vm_compute in H|done].
    + split; [|split; reflexivity]. split; [done|]. intros _. vm_compute. discriminate.
Qed.

Lemma poll_reports_listener_readiness_witness :
  exists e,
    rpmsg_socket_poll two_slots 9%N None true listener
    = (0, ([Some 5%N; Some 9%N], Some 1%nat), emit (PollNotify e) listener)
    /\ Z.land e POLLIN = 0.
Proof.
  destruct (poll_reports_listener_readiness two_slots 9%N None listener 1)
    as (_ & H); [reflexivity|reflexivity|].
  destruct H as (e & Hp & Hin & _); [vm_compute; discriminate|].
  exists e. split; [exact Hp|].
  destruct (Z.eq_dec (Z.land e POLLIN) 0) as [H0|Hn]; [exact H0|].
  apply Hin in Hn. by destruct Hn.
Defined.

(** ** Reference counting *)

Lemma close_after_addref (w : world) :
  1 <= crefs (conn w) -> crefs (conn w) + 1 < 2 ^ 16 ->
  rpmsg_socket_close (rpmsg_socket_addref w) = (0, w).
Proof.
  intros H1 H2. unfold rpmsg_socket_close, rpmsg_socket_addref.
  cbn [upd set_conn conn crefs set_crefs].
  rewrite Z.mod_small by lia.
  destruct (Z.ltb_spec 1 (crefs (conn w) + 1)); [|lia].
  replace (crefs (conn w) + 1 - 1) with (crefs (conn w)) by lia.
  f_equal. destruct w as [c q m t g ok]. by destruct c.
Qed.

Lemma addref_iter_crefs (n : nat) (w : world) :
  0 <= crefs (conn w) -> crefs (conn w) + Z.of_nat n < 2 ^ 16 ->
  crefs (conn (Nat.iter n rpmsg_socket_addref w)) = crefs (conn w) + Z.of_nat n.
Proof.
  intros H0. induction n as [|n IH]; intros Hn; [cbn; lia|].
  rewrite Nat.iter_succ. unfold rpmsg_socket_addref at 1.
  cbn [upd set_conn conn crefs set_crefs].
  rewrite IH by lia. rewrite Z.mod_small by lia. lia.
Qed.

(** As many [close] calls as there were [addref] calls before them leave
    the socket exactly as it was: each of them only takes its reference
    back, nothing is unregistered, destroyed or freed.  (The counter is 16
    bits wide; the references must fit it.)  The [close] that finds the
    counter at one unregisters the callbacks and frees the connection. *)
Theorem addref_close_balance (n : nat) (w : world) :
  1 <= crefs (conn w) ->
  crefs (conn w) + Z.of_nat n < 2 ^ 16 ->
  Nat.iter n (fun w => snd (rpmsg_socket_close w))
    (Nat.iter n rpmsg_socket_addref w) = w
  /\ (crefs (conn w) = 1 ->
      exists cb t,
        trace (snd (rpmsg_socket_close w))
        = trace w ++ [Unregister cb] ++ t ++ [Free]).
Proof.
  intros H1 Hn. split.
  - induction n as [|n IH]; [done|].
    rewrite Nat.iter_succ_r, Nat.iter_succ.
    rewrite close_after_addref.
    + cbn [snd]. apply IH. lia.
    + rewrite addref_iter_crefs by lia. lia.
    + rewrite addref_iter_crefs by lia. lia.
  - intros Hc. unfold rpmsg_socket_close. rewrite Hc.
    change (1 <? 1) with false. cbn [snd].
    assert (Hd : forall w0 cb, trace w0 = trace w ++ [Unregister cb] ->
      exists cb0 t, trace (emit Free (rpmsg_socket_destroy_ept w0))
                    = trace w ++ [Unregister cb0] ++ t ++ [Free]).
    { intros w0 cb Hw0. exists cb. unfold rpmsg_socket_destroy_ept.
      destruct (ept_rdev (conn w0)).
      - exists [DestroyEpt; PollNotify (Z.lor POLLIN POLLOUT)].
        unfold rpmsg_socket_poll_notify.
        destruct (negb (backlog (conn w0) =? 0)); cbn; rewrite Hw0;
          rewrite <- !app_assoc; cbn; reflexivity.
      - exists []. cbn. rewrite Hw0. rewrite <- app_assoc. done. }
    repeat break_if; eapply Hd; reflexivity.
Qed.

Lemma addref_close_balance_witness :
  Nat.iter 3 (fun w => snd (rpmsg_socket_close w))
    (Nat.iter 3 rpmsg_socket_addref alive_reader) = alive_reader.
Proof.
  apply (addref_close_balance 3 alive_reader); vm_compute; [discriminate|reflexivity].
Defined.

(** ** The semaphores stay binary *)


































(** ** User memory and scatter lists *)

Lemma repeat_replicate {A : Type} (x : A) (n : nat) : repeat x n = replicate n x.
Proof. induction n as [|n IH]; cbn; [done|by rewrite IH]. Qed.

(** Reading [n] bytes gives what is there, padded with zeros. *)
Lemma mem_read_pad (p : N) (off n : Z) (m : gmap N (list byte)) :
  mem_read p off n m
  = take (Z.to_nat n) (drop (Z.to_nat off) (default [] (m !! p)))
    ++ replicate (Z.to_nat n - length (drop (Z.to_nat off) (default [] (m !! p)))) x00.
Proof.
  unfold mem_read. rewrite repeat_replicate.
  set (D := drop (Z.to_nat off) (default [] (m !! p))).
  rewrite take_app. rewrite take_replicate. f_equal. f_equal. lia.
Qed.

Lemma mem_read_length (p : N) (off n : Z) (m : gmap N (list byte)) :
  length (mem_read p off n m) = Z.to_nat n.
Proof.
  rewrite mem_read_pad. rewrite length_app, length_take, length_replicate. lia.
Qed.

Lemma mem_read_split (p : N) (off a b : Z) (m : gmap N (list byte)) :
  0 <= off -> 0 <= a -> 0 <= b ->
  mem_read p off (a + b) m = mem_read p off a m ++ mem_read p (off + a) b m.
Proof.
  intros Ho Ha Hb. rewrite !mem_read_pad.
  replace (Z.to_nat (off + a)) with (Z.to_nat off + Z.to_nat a)%nat by lia.
  rewrite <- drop_drop.
  set (D := drop (Z.to_nat off) (default [] (m !! p))).
  replace (Z.to_nat (a + b)) with (Z.to_nat a + Z.to_nat b)%nat by lia.
  generalize (Z.to_nat a) as x, (Z.to_nat b) as y. intros x y.
  rewrite length_drop.
  destruct (le_lt_dec x (length D)) as [Hle|Hgt].
  - replace (x - length D)%nat with 0%nat by lia. cbn [replicate].
    rewrite app_nil_r. rewrite <- take_take_drop.
    rewrite <- app_assoc. f_equal. f_equal. f_equal. lia.
  - rewrite (take_ge D (x + y)) by lia. rewrite (take_ge D x) by lia.
    rewrite (drop_ge D x) by lia. rewrite take_nil. cbn [app length].
    rewrite <- app_assoc. f_equal. rewrite <- replicate_add. f_equal. lia.
Qed.


Lemma iov_bytes_length (m : gmap N (list byte)) (buf : list iovec) (acc : Z) :
  Forall (fun b => 0 <= iov_len b) buf ->
  acc + Z.of_nat (length (iov_bytes m buf))
  = fold_left (fun len b => len + iov_len b) buf acc.
Proof.
  revert acc. induction buf as [|b buf IH]; intros acc H; cbn; [lia|].
  inversion H as [|? ? Hb Hbuf]; subst.
  rewrite <- (IH (acc + iov_len b) Hbuf).
  unfold iov_bytes. rewrite length_app, mem_read_length. lia.
Qed.

Lemma iov_rest_0 (m : gmap N (list byte)) (buf : list iovec) :
  iov_rest m buf 0 = iov_bytes m buf.
Proof. destruct buf as [|b buf]; [done|]. cbn. by rewrite Z.sub_0_r. Qed.

(** The copy loop of the stream path takes the next [need] bytes of the
    scatter list and leaves the list at the byte after them. *)
Lemma send_gather_spec (m : gmap N (list byte)) (buf : list iovec)
    (offset need : Z) :
  Forall (fun b => 0 <= iov_len b < U32.modulus) buf ->
  0 <= offset ->
  (forall b r, buf = b :: r -> offset <= iov_len b) ->
  0 <= need <= Z.of_nat (length (iov_rest m buf offset)) ->
  exists buf' offset',
    send_gather m buf offset need
    = (take (Z.to_nat need) (iov_rest m buf offset), (buf', offset'))
    /\ iov_rest m buf' offset' = drop (Z.to_nat need) (iov_rest m buf offset)
    /\ Forall (fun b => 0 <= iov_len b < U32.modulus) buf'
    /\ 0 <= offset'
    /\ (forall b r, buf' = b :: r -> offset' <= iov_len b).
Proof.
  revert offset need. induction buf as [|b r IH]; intros offset need Hv Ho Hh Hn.
  - exists [], offset. cbn in *. rewrite take_nil, drop_nil.
    destruct (need <=? 0); done.
  - cbn [send_gather].
    destruct (Z.leb_spec need 0) as [H0|Hpos].
    { exists (b :: r), offset. assert (need = 0) as -> by lia. cbn. done. }
    inversion Hv as [|? ? Hb Hr]; subst.
    specialize (Hh b r eq_refl).
    assert (Hsub : U32.sub (iov_len b) offset = iov_len b - offset).
    { unfold U32.sub. apply u32_wrap_small. unfold U32.in_range. lia. }
    rewrite Hsub.
    set (H := mem_read (iov_base b) offset (iov_len b - offset) m).
    assert (HlenH : length H = Z.to_nat (iov_len b - offset))
      by apply mem_read_length.
    change (iov_rest m (b :: r) offset) with (H ++ iov_bytes m r) in *.
    rewrite length_app in Hn.
    destruct (Z.le_gt_cases (iov_len b - offset) need) as [Hle|Hgt].
    + rewrite Z.min_r by lia.
      assert (Hadd : U32.add offset (iov_len b - offset) = iov_len b).
      { unfold U32.add. replace (offset + (iov_len b - offset)) with (iov_len b) by lia.
        apply u32_wrap_small. unfold U32.in_range. lia. }
      rewrite Hadd, Z.eqb_refl. fold H.
      destruct (IH 0 (need - (iov_len b - offset)) Hr ltac:(lia))
        as (buf' & offset' & Hg & Hrest & Hv' & Ho' & Hh').
      { intros b0 r0 ->. inversion Hr; subst. lia. }
      { rewrite iov_rest_0. lia. }
      exists buf', offset'. rewrite Hg. rewrite iov_rest_0 in *.
      split; [|split; [|done]].
      * f_equal. rewrite take_app. rewrite (take_ge H) by lia. f_equal. f_equal. lia.
      * rewrite Hrest. rewrite drop_app. rewrite (drop_ge H) by lia. cbn [app].
        f_equal. lia.
    + rewrite Z.min_l by lia.
      assert (Hadd : U32.add offset need = offset + need).
      { unfold U32.add. apply u32_wrap_small. unfold U32.in_range. lia. }
      rewrite Hadd. destruct (Z.eqb_spec (offset + need) (iov_len b)); [lia|].
      exists (b :: r), (offset + need).
      assert (Hsplit : H = mem_read (iov_base b) offset need m
                           ++ mem_read (iov_base b) (offset + need)
                                (iov_len b - (offset + need)) m).
      { subst H. rewrite <- mem_read_split by lia. f_equal. lia. }
      split; [|split; [|split; [done|split; [lia|]]]].
      * f_equal. rewrite Hsplit. rewrite <- app_assoc.
        rewrite take_app_length'; [done|]. by rewrite mem_read_length.
      * cbn [iov_rest]. rewrite Hsplit. rewrite <- app_assoc.
        rewrite drop_app_length'; [done|]. by rewrite mem_read_length.
      * intros b0 r0 [= <- <-]. lia.
Qed.

(** ** What the stream path sends *)

Lemma sent_data_app (t1 t2 : list effect) :
  sent_data (t1 ++ t2) = sent_data t1 ++ sent_data t2.
Proof.
  induction t1 as [|e t1 IH]; [done|].
  destruct e as [f| | | | | | | |e']; cbn; try done.
  destruct f; cbn; [done|]. by rewrite IH, app_assoc.
Qed.

Lemma sent_data_on_child (t : list effect) : sent_data (map OnChild t) = [].
Proof. induction t as [|e t IH]; [done|]. cbn. done. Qed.

(** Appending an effect that is no DATA frame of the connection itself. *)
Lemma sent_data_emit (e : effect) (w : world) :
  sent_data [e] = [] ->
  sent_data (trace (emit e w)) = sent_data (trace w).
Proof. intros He. cbn. by rewrite sent_data_app, He, app_nil_r. Qed.

Lemma ept_cb_sent_data `{cfg : config} (f : frame) (w : world) :
  sent_data (trace (rpmsg_socket_ept_cb f w)) = sent_data (trace w).
Proof.
  destruct f as [size p u g | pos mlen data].
  - cbn. by rewrite sent_data_app, app_nil_r.
  - unfold rpmsg_socket_ept_cb.
    assert (Hack : sent_data (trace (ept_cb_ack pos w)) = sent_data (trace w)).
    { unfold ept_cb_ack, rpmsg_socket_poll_notify. destruct (0 <? _); [|done].
      by rewrite sent_data_emit. }
    destruct (0 <? Z.of_nat (length data)); [|done].
    assert (Hstore : forall buf w0,
      sent_data (trace (ept_cb_store buf w0)) = sent_data (trace w0)).
    { intros buf w0. unfold ept_cb_store, rpmsg_socket_poll_notify.
      destruct (0 <? _); [|done]. by rewrite sent_data_emit. }
    rewrite Hstore.
    destruct (recvdata (conn (ept_cb_ack pos w))) as [ptr|]; cbn [fst]; [|done].
    unfold ept_cb_direct. by destruct (_ =? mlen).
Qed.

Lemma destroy_ept_sent_data (w : world) :
  sent_data (trace (rpmsg_socket_destroy_ept w)) = sent_data (trace w).
Proof.
  unfold rpmsg_socket_destroy_ept, rpmsg_socket_poll_notify.
  destruct (ept_rdev (conn w)); [|done].
  rewrite sent_data_emit by done.
  cbn [upd set_conn trace emit set_trace].
  rewrite sent_data_app, app_nil_r. by destruct (negb _).
Qed.

Lemma close_sent_data (w : world) :
  sent_data (trace (snd (rpmsg_socket_close w))) = sent_data (trace w).
Proof.
  unfold rpmsg_socket_close. break_if; [done|]. cbn [snd].
  rewrite sent_data_emit by done. rewrite destroy_ept_sent_data.
  repeat break_if; by rewrite sent_data_emit.
Qed.

(** No callback sends a DATA frame on the connection. *)
Lemma handle_event_sent_data `{cfg : config} (e : event) (w : world) :
  sent_data (trace (handle_event e w)) = sent_data (trace w).
Proof.
  destruct e as [f|me| |cpu created|cpu|cpu name me a r c|i f| ];
    cbn [handle_event].
  - cbn [set_peer_ok trace]. apply ept_cb_sent_data.
  - by rewrite sent_data_emit.
  - unfold rpmsg_socket_ns_unbind, rpmsg_socket_poll_notify.
    by rewrite sent_data_emit.
  - unfold rpmsg_socket_device_created.
    destruct (ept_rdev (conn w)); [done|]. repeat break_if; try done;
      cbn [upd set_conn trace]; by rewrite sent_data_emit.
  - unfold rpmsg_socket_device_destroy. break_if; [|done].
    apply destroy_ept_sent_data.
  - unfold rpmsg_socket_ns_bind, rpmsg_socket_poll_notify.
    destruct (negb a); [done|].
    destruct (circbuf_resize _ _ r) as [ret rb].
    destruct (ret <? 0); [by rewrite sent_data_emit|].
    destruct (negb c); [by rewrite !sent_data_emit|].
    match goal with
    | |- context [match ?x with Some _ => _ | None => _ end] => destruct x
    end; cbn [upd set_conn set_next trace emit set_trace];
      rewrite ?sent_data_app; cbn [sent_data]; by rewrite ?app_nil_r.
  - destruct (next w !! i); [|done]. cbn.
    by rewrite sent_data_app, sent_data_on_child, app_nil_r.
  - apply close_sent_data.
Qed.

Lemma run_events_sent_data `{cfg : config} (evs : list event) (w : world) :
  sent_data (trace (run_events evs w)) = sent_data (trace w).
Proof.
  revert w. induction evs as [|e evs IH]; intros w; [done|].
  cbn [run_events fold_left]. fold (run_events evs (handle_event e w)).
  by rewrite IH, handle_event_sent_data.
Qed.

(** A wait neither sends nor touches user memory while no reader is
    published. *)
Lemma sem_wait_quiet `{cfg : config}
    (count : rpmsg_socket_conn_s -> Z)
    (set_count : Z -> rpmsg_socket_conn_s -> rpmsg_socket_conn_s)
    (it : env_item) (w w' : world) (ret : Z) (m0 : gmap N (list byte)) :
  (forall v c, recvdata (set_count v c) = recvdata c) ->
  sem_wait count set_count it w = Some (ret, w') ->
  reader_before m0 w ->
  reader_before m0 w'
  /\ sent_data (trace w') = sent_data (trace w)
  /\ ret <= 0.
Proof.
  intros Hset H Hr. unfold sem_wait in H.
  pose proof (run_events_reader_before m0 (ev it) w Hr) as (Hq & Hd & Hm).
  pose proof (run_events_sent_data (ev it) w) as Ht.
  destruct (0 <? count (conn (run_events (ev it) w))).
  - injection H as <- <-. split; [|split; [done|lia]].
    split; [done|]. split; [|done]. cbn. by rewrite Hset.
  - destruct (werr it) as [e|]; [|done]. injection H as <- <-.
    split; [done|]. split; [done|]. lia.
Qed.

Lemma written_or_spec (written ret : Z) :
  0 <= written < 2 ^ 31 -> (written = 0 -> ret <= 0) ->
  (0 < written /\ written_or written ret = written)
  \/ (written = 0 /\ written_or written ret <= 0).
Proof.
  intros Hw Hr. unfold written_or, U32.to_ssize.
  destruct (Z.eqb_spec written 0); [right; split; [done|by apply Hr]|].
  left. split; [lia|].
  destruct (Z.ltb_spec written (2 ^ 31)); lia.
Qed.

Ltac exit_now H :=
  apply H; try done; try (unfold EAGAIN, ECONNRESET, EINVAL; lia).

(** The loop of the stream path, from any turn on: what has gone out so
    far is a prefix of the user's bytes, and so it stays. *)
Lemma send_continuous_loop_prefix `{cfg : config} (nonblock : bool)
    (m0 : gmap N (list byte)) (all sent0 : list byte)
    (env : list env_item) (buf : list iovec) (offset written ret : Z) (w : world) :
  let len := Z.of_nat (length all) in
  len < 2 ^ 31 ->
  reader_before m0 w ->
  Forall (fun b => 0 <= iov_len b < U32.modulus) buf ->
  0 <= offset ->
  (forall b r, buf = b :: r -> offset <= iov_len b) ->
  0 <= written <= len ->
  iov_rest m0 buf offset = drop (Z.to_nat written) all ->
  sent_data (trace w) = sent0 ++ take (Z.to_nat written) all ->
  0 < len \/ ret <= 0 ->
  match send_continuous_loop nonblock len buf offset written ret env w with
  | Ret r w' _ =>
      reader_before m0 w'
      /\ exists n, 0 <= n <= len
           /\ sent_data (trace w') = sent0 ++ take (Z.to_nat n) all
           /\ ((0 < n /\ r = n) \/ (n = 0 /\ r <= 0))
  | Pend w' =>
      reader_before m0 w'
      /\ exists n, 0 <= n <= len
           /\ sent_data (trace w') = sent0 ++ take (Z.to_nat n) all
  end.
Proof.
  intros len Hlen. revert buf offset written ret w.
  assert (Hexit : forall written ret w,
    reader_before m0 w -> 0 <= written <= len ->
    sent_data (trace w) = sent0 ++ take (Z.to_nat written) all ->
    (written = 0 -> ret <= 0) ->
    reader_before m0 w
    /\ exists n, 0 <= n <= len
         /\ sent_data (trace w) = sent0 ++ take (Z.to_nat n) all
         /\ ((0 < n /\ written_or written ret = n)
             \/ (n = 0 /\ written_or written ret <= 0))).
  { intros written ret w Hr Hw Ht Hret. split; [done|].
    exists written. split; [done|]. split; [done|].
    apply written_or_spec; [lia|done]. }
  induction env as [|it env IH];
    intros buf offset written ret w Hr Hv Ho Hh Hw Hrest Ht Hk.
  - cbn [send_continuous_loop].
    destruct (Z.ltb_spec written len) as [Hlt|Hge].
    + destruct (_ =? 0).
      * destruct (negb nonblock).
        -- split; [done|]. by exists written.
        -- exit_now Hexit.
      * split; [done|]. by exists written.
    + exit_now Hexit.
  - cbn [send_continuous_loop].
    destruct (Z.ltb_spec written len) as [Hlt|Hge]; [|exit_now Hexit].
    destruct (_ =? 0).
    + destruct (negb nonblock); [|exit_now Hexit].
      destruct (sem_wait sendsem set_sendsem it w) as [[r w1]|] eqn:E.
      * destruct (sem_wait_quiet sendsem set_sendsem it w w1 r m0
                    ltac:(done) E Hr) as (Hr1 & Ht1 & Hr0).
        rewrite Ht in Ht1.
        destruct (negb (ept_alive (conn w1))).
        -- change (- ECONNRESET <? 0) with true. cbn iota.
           exit_now Hexit.
        -- destruct (Z.ltb_spec r 0); [exit_now Hexit|].
           apply IH; try done. left. lia.
      * split; [by apply run_events_reader_before|].
        exists written. split; [done|]. by rewrite run_events_sent_data.
    + cbn zeta.
      pose proof (run_events_reader_before m0 (ev it) w Hr) as Hr1.
      pose proof (run_events_sent_data (ev it) w) as Ht1. rewrite Ht in Ht1.
      set (w1 := run_events (ev it) w) in *.
      destruct (txbuf it) as [ipcsize|];
        [|exit_now Hexit].
      unfold send_continuous_tx. cbn zeta.
      assert (Hsub : U32.sub len written = len - written).
      { unfold U32.sub. apply u32_wrap_small. unfold U32.in_range, U32.modulus. lia. }
      rewrite Hsub.
      set (block := Z.min (Z.min (len - written) (rpmsg_socket_get_space (conn w1)))
                      (U32.sub ipcsize sizeof_data_s)).
      assert (Hblock : 0 <= block <= len - written).
      { subst block.
        pose proof (u32_sub_range ipcsize sizeof_data_s) as H1.
        pose proof (u32_sub_range (sendsize (conn w1))
                      (U32.sub (sendpos (conn w1)) (ackpos (conn w1)))) as H2.
        unfold U32.in_range, rpmsg_socket_get_space in *. lia. }
      destruct Hr1 as (Hq1 & Hd1 & Hm1). rewrite Hm1.
      destruct (send_gather_spec m0 buf offset block Hv Ho Hh)
        as (buf' & offset' & Hg & Hrest' & Hv' & Ho' & Hh').
      { rewrite Hrest, length_drop. lia. }
      rewrite Hg. cbn [fst snd].
      assert (Hadd : U32.add written block = written + block).
      { unfold U32.add. apply u32_wrap_small. unfold U32.in_range, U32.modulus. lia. }
      destruct (Z.ltb_spec (cret it) 0).
      * apply Hexit; [|lia|by rewrite sent_data_emit|lia].
        split; [done|]. split; [done|]. cbn. done.
      * rewrite Hadd. apply IH; try done.
        -- lia.
        -- rewrite Hrest', Hrest, drop_drop. f_equal. lia.
        -- cbn [emit set_trace trace upd set_conn]. rewrite sent_data_app, Ht1.
           cbn [sent_data]. rewrite app_nil_r, <- app_assoc. f_equal.
           rewrite Hrest.
           replace (Z.to_nat (written + block))
             with (Z.to_nat written + Z.to_nat block)%nat by lia.
           by rewrite take_take_drop.
        -- left. lia.
Qed.

Lemma iov_len_bound (m : gmap N (list byte)) (buf : list iovec) :
  Forall (fun b => 0 <= iov_len b) buf ->
  Forall (fun b => 0 <= iov_len b <= Z.of_nat (length (iov_bytes m buf))) buf.
Proof.
  induction buf as [|b buf IH]; intros H; [constructor|].
  inversion H as [|? ? Hb Hbuf]; subst.
  change (iov_bytes m (b :: buf))
    with (mem_read (iov_base b) 0 (iov_len b) m ++ iov_bytes m buf).
  rewrite length_app, mem_read_length. constructor; [lia|].
  eapply Forall_impl; [apply (IH Hbuf)|]. cbn. intros b0 Hb0. lia.
Qed.

Lemma get_iovlen_bytes (m : gmap N (list byte)) (buf : list iovec) :
  Forall (fun b => 0 <= iov_len b) buf ->
  Z.of_nat (length (iov_bytes m buf)) < U32.modulus ->
  rpmsg_socket_get_iovlen buf (Z.of_nat (length buf))
  = Z.of_nat (length (iov_bytes m buf)).
Proof.
  intros Hv Hlt. unfold rpmsg_socket_get_iovlen.
  rewrite Nat2Z.id, firstn_all.
  pose proof (iov_bytes_length m buf 0 Hv) as Hsum. rewrite Z.add_0_l in Hsum.
  rewrite fold_add32_exact; [done|lia|done|lia].
Qed.

(** [sendmsg] on a connected stream socket, whatever the script: the DATA
    frames it hands to the endpoint carry, in order, the first [n] bytes of
    the scatter list and nothing else; if [n] is positive the call returns
    [n], otherwise it returns 0 or an error.  A frame whose transmission
    failed is not among them.  If the script ends while the call waits, the
    frames sent so far carry such a prefix as well. *)
Theorem stream_sendmsg_sends_prefix `{cfg : config}
    (msg : msghdr) (flags : Z) (env : list env_item) (w : world) :
  _SS_ISCONNECTED (s_flags (conn w)) = true ->
  ept_alive (conn w) = true ->
  recvdata (conn w) = None ->
  Forall (fun c => recvdata c = None) (next w) ->
  msg_iovlen msg = Z.of_nat (length (msg_iov msg)) ->
  Forall (fun b => 0 <= iov_len b) (msg_iov msg) ->
  Z.of_nat (length (iov_bytes (mem w) (msg_iov msg))) < 2 ^ 31 ->
  let data := iov_bytes (mem w) (msg_iov msg) in
  match rpmsg_socket_sendmsg SOCK_STREAM msg flags env w with
  | Ret r w' _ =>
      mem w' = mem w
      /\ exists n, 0 <= n <= Z.of_nat (length data)
           /\ sent_data (trace w') = sent_data (trace w) ++ take (Z.to_nat n) data
           /\ ((0 < n /\ r = n) \/ (n = 0 /\ r <= 0))
  | Pend w' =>
      mem w' = mem w
      /\ exists n, 0 <= n <= Z.of_nat (length data)
           /\ sent_data (trace w') = sent_data (trace w) ++ take (Z.to_nat n) data
  end.
Proof.
  intros Hc Ha Hd Hq Hcnt Hv Hlen data.
  rewrite sendmsg_connected_alive by done.
  change (SOCK_STREAM =? SOCK_STREAM) with true. cbn iota.
  unfold rpmsg_socket_send_continuous. rewrite Hcnt.
  rewrite (get_iovlen_bytes (mem w)) by (unfold U32.modulus; first [done|lia]).
  fold data.
  pose proof (send_continuous_loop_prefix
                (_SS_ISNONBLOCK (s_flags (conn w))
                 || negb (Z.land flags MSG_DONTWAIT =? 0))
                (mem w) data (sent_data (trace w)) env (msg_iov msg) 0 0 0 w) as H.
  cbn zeta in H.
  assert (Hvalid : Forall (fun b => 0 <= iov_len b < U32.modulus) (msg_iov msg)).
  { eapply Forall_impl; [apply (iov_len_bound (mem w) _ Hv)|].
    cbn. intros b Hb. unfold U32.modulus. lia. }
  specialize (H Hlen ltac:(done) Hvalid ltac:(lia)).
  assert (Hhead : forall b r, msg_iov msg = b :: r -> 0 <= iov_len b).
  { intros b r E. rewrite E in Hv. by inversion Hv. }
  specialize (H Hhead ltac:(lia) (iov_rest_0 _ _)).
  rewrite app_nil_r in H. specialize (H eq_refl ltac:(right; lia)).
  destruct (send_continuous_loop _ _ _ _ _ _ env w) as [r w' env'|w'].
  - destruct H as ((_ & _ & Hm) & Hn). done.
  - destruct H as ((_ & _ & Hm) & Hn). done.
Qed.

Lemma stream_sendmsg_sends_prefix_witness :
  match rpmsg_socket_sendmsg (cfg := nucleo) SOCK_STREAM hello_msg 0 one_tx
          hello_sender with
  | Ret r w' _ =>
      mem w' = mem hello_sender
      /\ exists n, 0 <= n <= 5
           /\ sent_data (trace w') = take (Z.to_nat n) hello
           /\ ((0 < n /\ r = n) \/ (n = 0 /\ r <= 0))
  | Pend w' =>
      mem w' = mem hello_sender
      /\ exists n, 0 <= n <= 5
           /\ sent_data (trace w') = take (Z.to_nat n) hello
  end.
Proof.
  apply (stream_sendmsg_sends_prefix (cfg := nucleo) hello_msg 0 one_tx
           hello_sender);
    [reflexivity|reflexivity|reflexivity|constructor|reflexivity| |reflexivity].
  constructor; [cbn; lia|constructor].
Defined.

(** ** What the receive path delivers *)

(** A DATA frame that meets no waiting reader and fits the receive buffer
    is appended to it whole; nothing else of the receive side moves. *)
Lemma ept_cb_buffers `{cfg : config} (pos mlen : Z) (data : list byte) (w : world) :
  recvdata (conn w) = None ->
  Z.of_nat (length (cb_data (recvbuf (conn w)))) + Z.of_nat (length data)
    <= cb_size (recvbuf (conn w)) ->
  let w' := rpmsg_socket_ept_cb (DATA pos mlen data) w in
  cb_data (recvbuf (conn w')) = cb_data (recvbuf (conn w)) ++ data
  /\ cb_size (recvbuf (conn w')) = cb_size (recvbuf (conn w))
  /\ recvdata (conn w') = None
  /\ recvpos (conn w') = recvpos (conn w)
  /\ lastpos (conn w') = lastpos (conn w)
  /\ mem w' = mem w
  /\ s_flags (conn w') = s_flags (conn w)
  /\ ept_alive (conn w') = ept_alive (conn w).
Proof.
  intros Hd Hfit. cbn zeta. unfold rpmsg_socket_ept_cb.
  set (w1 := ept_cb_ack pos w).
  assert (H1 : recvbuf (conn w1) = recvbuf (conn w)
               /\ recvdata (conn w1) = None
               /\ recvpos (conn w1) = recvpos (conn w)
               /\ lastpos (conn w1) = lastpos (conn w)
               /\ mem w1 = mem w
               /\ s_flags (conn w1) = s_flags (conn w)
               /\ ept_alive (conn w1) = ept_alive (conn w)).
  { subst w1. unfold ept_cb_ack, rpmsg_socket_poll_notify, ept_alive.
    destruct (0 <? _); cbn; done. }
  destruct H1 as (Hb & Hd1 & Hp & Hl & Hm & Hf & Ha).
  destruct (Z.ltb_spec 0 (Z.of_nat (length data))) as [Hpos|Hnil].
  - rewrite Hd1. cbn [fst snd]. unfold ept_cb_store, rpmsg_socket_poll_notify.
    destruct (Z.ltb_spec 0 (Z.of_nat (length data))); [|lia].
    unfold circbuf_write, circbuf_space, circbuf_size, circbuf_used, ept_alive.
    rewrite Hb. cbn.
    rewrite Z.min_l by lia. rewrite Nat2Z.id, firstn_all.
    rewrite Hd1, Hp, Hl, Hm, Hf. unfold ept_alive in Ha. by rewrite Ha.
  - assert (data = []) as -> by (destruct data; [done|cbn in Hnil; lia]).
    rewrite app_nil_r, Hb. done.
Qed.

Lemma frames_buffer `{cfg : config} (fs : list frame) (w : world) :
  recvdata (conn w) = None ->
  Forall stream_frame fs ->
  Z.of_nat (length (cb_data (recvbuf (conn w))))
    + Z.of_nat (length (concat (map frame_payload fs)))
    <= cb_size (recvbuf (conn w)) ->
  let w' := run_events (map EvRecv fs) w in
  cb_data (recvbuf (conn w'))
    = cb_data (recvbuf (conn w)) ++ concat (map frame_payload fs)
  /\ recvdata (conn w') = None
  /\ recvpos (conn w') = recvpos (conn w)
  /\ lastpos (conn w') = lastpos (conn w)
  /\ mem w' = mem w
  /\ s_flags (conn w') = s_flags (conn w)
  /\ ept_alive (conn w') = ept_alive (conn w).
Proof.
  revert w. induction fs as [|f fs IH]; intros w Hd Hs Hfit.
  - cbn. by rewrite app_nil_r.
  - inversion Hs as [|? ? Hf Hfs]; subst.
    destruct f as [size p u g | pos mlen data]; [done|].
    cbn [map concat frame_payload] in *. rewrite length_app in Hfit.
    cbn [run_events fold_left].
    fold (run_events (map EvRecv fs) (handle_event (EvRecv (DATA pos mlen data)) w)).
    destruct (ept_cb_buffers pos mlen data w Hd ltac:(lia))
      as (Hb & Hsz & Hd1 & Hp & Hl & Hm & Hfl & Ha).
    cbn zeta in *.
    set (w1 := handle_event (EvRecv (DATA pos mlen data)) w).
    assert (Hw1 : conn w1 = conn (rpmsg_socket_ept_cb (DATA pos mlen data) w)
                  /\ mem w1 = mem (rpmsg_socket_ept_cb (DATA pos mlen data) w))
      by done.
    destruct Hw1 as (Hc1 & Hm1).
    destruct (IH w1) as (Hb' & Hd' & Hp' & Hl' & Hm' & Hfl' & Ha'); [| done | |].
    + by rewrite Hc1.
    + rewrite Hc1, Hb, Hsz, length_app. lia.
    + cbn zeta in *. rewrite Hb', Hd', Hp', Hl', Hm', Hfl', Ha', Hc1, Hm1.
      rewrite Hb, Hp, Hl, Hm, Hfl, Ha, app_assoc. done.
Qed.

(** [recvmsg] on a connected stream socket with bytes in its buffer takes
    the oldest of them, as many as the caller's buffer holds. *)
Lemma stream_recvmsg_buffered `{cfg : config}
    (ubuf : N) (ulen flags : Z) (env : list env_item) (w : world) :
  _SS_ISCONNECTED (s_flags (conn w)) = true ->
  cb_data (recvbuf (conn w)) <> [] ->
  0 < ulen ->
  let all := cb_data (recvbuf (conn w)) in
  let n := Z.min ulen (Z.of_nat (length all)) in
  exists msg' w',
    rpmsg_socket_recvmsg SOCK_STREAM (mk_msghdr None 0 [mk_iovec ubuf ulen] 1)
      flags env w
    = Ret (n, msg') w' env
    /\ mem w' = mem_write ubuf (take (Z.to_nat n) all) (mem w)
    /\ recvbuf (conn w') = mk_circbuf (cb_size (recvbuf (conn w))) (drop (Z.to_nat n) all)
    /\ recvpos (conn w') = U32.add (recvpos (conn w)) n.
Proof.
  intros Hc Hne Hu all n.
  rewrite recvmsg_connected by done.
  unfold recvmsg_body. cbn [msg_iov0 msg_iov hd iov_base iov_len].
  unfold recvmsg_read. change (negb (SOCK_STREAM =? SOCK_STREAM)) with false.
  cbn iota. unfold circbuf_read. fold all. cbn zeta.
  assert (Hn : Z.of_nat (length (take (Z.to_nat ulen) all)) = n).
  { rewrite length_take. subst n. lia. }
  rewrite Hn.
  assert (Hpos : 0 < n).
  { assert (0 < Z.of_nat (length all)); [|lia]. subst all.
    destruct (cb_data (recvbuf (conn w))); [done|cbn [length]; lia]. }
  destruct (Z.ltb_spec 0 n); [|lia]. cbn iota.
  destruct (Z.ltb_spec 0 n); [|lia].
  eexists _, _. split; [reflexivity|].
  pose proof (wakeup_spec
    (upd (fun c => set_recvpos (U32.add (recvpos c) n) c)
       (upd (set_recvbuf (mk_circbuf (cb_size (recvbuf (conn w)))
                            (drop (Z.to_nat ulen) all)))
          (set_mem (mem_write ubuf (take (Z.to_nat ulen) all) (mem w)) w))))
    as (Hrp & Hmem & _ & _).
  cbn zeta in Hrp, Hmem.
  assert (Htake : take (Z.to_nat n) all = take (Z.to_nat ulen) all).
  { subst n. destruct (Z.le_gt_cases ulen (Z.of_nat (length all))).
    - by rewrite Z.min_l.
    - rewrite Z.min_r by lia. rewrite Nat2Z.id, firstn_all.
      rewrite take_ge; [done|lia]. }
  assert (Hdrop : drop (Z.to_nat n) all = drop (Z.to_nat ulen) all).
  { subst n. destruct (Z.le_gt_cases ulen (Z.of_nat (length all))).
    - by rewrite Z.min_l.
    - rewrite Z.min_r by lia. rewrite Nat2Z.id.
      rewrite !drop_ge; [done|lia|lia]. }
  rewrite Hmem, Hrp, Htake, Hdrop. cbn.
  split; [done|]. split; [|done].
  unfold rpmsg_socket_wakeup. repeat break_if; cbn; done.
Qed.

(** The bytes of the stream frames that arrive while no reader waits come
    out of [recvmsg] in the order in which they arrived, behind what was
    buffered before: the call returns as many bytes as the buffer of the
    caller takes, stores exactly these, leaves the rest buffered in order,
    and advances [recvpos] by the bytes delivered. *)
Theorem stream_recvmsg_in_arrival_order `{cfg : config}
    (fs : list frame) (ubuf : N) (ulen flags : Z) (env : list env_item)
    (w : world) :
  _SS_ISCONNECTED (s_flags (conn w)) = true ->
  recvdata (conn w) = None ->
  Forall stream_frame fs ->
  let all := cb_data (recvbuf (conn w)) ++ concat (map frame_payload fs) in
  Z.of_nat (length all) <= cb_size (recvbuf (conn w)) ->
  all <> [] ->
  0 < ulen ->
  let n := Z.min ulen (Z.of_nat (length all)) in
  exists msg' w',
    rpmsg_socket_recvmsg SOCK_STREAM (mk_msghdr None 0 [mk_iovec ubuf ulen] 1)
      flags env (run_events (map EvRecv fs) w)
    = Ret (n, msg') w' env
    /\ mem w' = mem_write ubuf (take (Z.to_nat n) all) (mem w)
    /\ cb_data (recvbuf (conn w')) = drop (Z.to_nat n) all
    /\ recvpos (conn w') = U32.add (recvpos (conn w)) n.
Proof.
  intros Hc Hd Hs all Hfit Hne Hu n.
  destruct (frames_buffer fs w Hd Hs) as (Hb & Hd1 & Hp & Hl & Hm & Hf & Ha).
  { subst all. rewrite length_app in Hfit. lia. }
  cbn zeta in *. fold all in Hb.
  destruct (stream_recvmsg_buffered ubuf ulen flags env
              (run_events (map EvRecv fs) w))
    as (msg' & w' & Hr & Hmem & Hbuf & Hpos);
    [by rewrite Hf|by rewrite Hb|done|].
  cbn zeta in *. rewrite Hb in Hr, Hmem, Hbuf, Hpos. rewrite Hm in Hmem.
  rewrite Hp in Hpos.
  exists msg', w'. split; [exact Hr|]. split; [exact Hmem|].
  split; [by rewrite Hbuf|exact Hpos].
Qed.

Lemma stream_recvmsg_in_arrival_order_witness :
  exists msg' w',
    rpmsg_socket_recvmsg (cfg := nucleo) SOCK_STREAM
      (mk_msghdr None 0 [mk_iovec 1 12] 1) 0 []
      (run_events (cfg := nucleo) (map EvRecv [DATA 0 3 [x61; x62; x63]])
         alive_reader)
    = Ret (12, msg') w' []
    /\ cb_data (recvbuf (conn w')) = [x63].
Proof.
  destruct (stream_recvmsg_in_arrival_order (cfg := nucleo)
              [DATA 0 3 [x61; x62; x63]] 1 12 0 [] alive_reader)
    as (msg' & w' & H1 & _ & H2 & _);
    [reflexivity|reflexivity|by repeat constructor|cbn; lia|discriminate|lia|].
  exists msg', w'. split; [exact H1|exact H2].
Defined.

(** ** Datagrams from end to end *)




(** ** ioctl *)

(** [FIONREAD] reports what a stream [recvmsg] can take: on a connected
    stream socket that holds [used > 0] buffered bytes, [FIONREAD] stores
    [used]; a [recvmsg] with room for [ulen] bytes then returns
    [min ulen used] without looking at the script, and [FIONREAD]
    afterwards stores [used] less what was delivered. *)
Theorem fionread_counts_what_recvmsg_takes `{cfg : config} (PATH_MAX : nat)
    (ubuf : N) (ulen flags : Z) (env : list env_item) (w : world) :
  _SS_ISCONNECTED (s_flags (conn w)) = true ->
  0 < ulen ->
  let used := circbuf_used (recvbuf (conn w)) in
  0 < used < 2 ^ 31 ->
  exists msg' w',
    rpmsg_socket_ioctl PATH_MAX FIONREAD w = (OK, OutInt used)
    /\ rpmsg_socket_recvmsg SOCK_STREAM (mk_msghdr None 0 [mk_iovec ubuf ulen] 1)
         flags env w
       = Ret (Z.min ulen used, msg') w' env
    /\ rpmsg_socket_ioctl PATH_MAX FIONREAD w'
       = (OK, OutInt (used - Z.min ulen used)).
Proof.
  intros Hc Hu used Hused. unfold circbuf_used in used.
  destruct (stream_recvmsg_buffered ubuf ulen flags env w)
    as (msg' & w' & Hr & _ & Hbuf & _); [done| |done|].
  { subst used. destruct (cb_data (recvbuf (conn w))); [cbn in Hused; lia|done]. }
  cbn zeta in *. exists msg', w'.
  assert (Hss : forall x, 0 <= x < 2 ^ 31 -> U32.to_ssize x = x).
  { intros x Hx. unfold U32.to_ssize. destruct (Z.ltb_spec x (2 ^ 31)); lia. }
  split; [|split; [exact Hr|]].
  - unfold rpmsg_socket_ioctl, circbuf_used. fold used. by rewrite Hss by lia.
  - unfold rpmsg_socket_ioctl, circbuf_used. rewrite Hbuf. cbn [cb_data].
    rewrite length_drop. fold used.
    rewrite Hss by lia. do 2 f_equal. lia.
Qed.

Lemma fionread_counts_what_recvmsg_takes_witness :
  exists msg' w',
    rpmsg_socket_ioctl (cfg := nucleo) 256 FIONREAD alive_reader = (OK, OutInt 10)
    /\ rpmsg_socket_recvmsg (cfg := nucleo) SOCK_STREAM
         (mk_msghdr None 0 [mk_iovec 1 4] 1) 0 [] alive_reader
       = Ret (4, msg') w' []
    /\ rpmsg_socket_ioctl (cfg := nucleo) 256 FIONREAD w' = (OK, OutInt 6).
Proof.
  apply (fionread_counts_what_recvmsg_takes (cfg := nucleo) 256 1 4 0 []
           alive_reader); [reflexivity|lia|split; reflexivity].
Defined.

(** ** Connection establishment *)

Lemma islistening_lor (f : Z) :
  _SS_ISLISTENING (Z.lor f _SF_CONNECTED) = _SS_ISLISTENING f.
Proof.
  unfold _SS_ISLISTENING. rewrite Z.land_lor_distr_l.
  change (Z.land _SF_CONNECTED _SF_LISTENING) with 0. by rewrite Z.lor_0_r.
Qed.

Lemma isnonblock_lor (f : Z) :
  _SS_ISNONBLOCK (Z.lor f _SF_CONNECTED) = _SS_ISNONBLOCK f.
Proof.
  unfold _SS_ISNONBLOCK. rewrite Z.land_lor_distr_l.
  change (Z.land _SF_CONNECTED _SF_NONBLOCK) with 0. by rewrite Z.lor_0_r.
Qed.

(** The SYNC frame that one side sends when its endpoint is bound makes the
    other side a connected socket: the window it may send into is the
    receive-buffer size of the sender of the SYNC, all of it free when
    nothing is in flight; [getsockopt(SO_PEERCRED)] returns the credentials
    the SYNC was sent with; and a [poll] set up afterwards reports the
    socket writable. *)
Theorem sync_makes_socket_writable `{cfg : config} (me : ucred)
    (c : rpmsg_socket_conn_s) (slots : list (option N)) (fds : N)
    (priv : option nat) (i : nat) (w : world) :
  U32.in_range (circbuf_size (recvbuf c)) ->
  0 < circbuf_size (recvbuf c) ->
  U32.sub (sendpos (conn w)) (ackpos (conn w)) = 0 ->
  _SS_ISLISTENING (s_flags (conn w)) = false ->
  poll_free_slot slots = Some i ->
  let w' := handle_event (EvRecv (rpmsg_socket_ns_bound me c)) w in
  _SS_ISCONNECTED (s_flags (conn w')) = true
  /\ sendsize (conn w') = circbuf_size (recvbuf c)
  /\ rpmsg_socket_get_space (conn w') = circbuf_size (recvbuf c)
  /\ rpmsg_socket_getsockopt SOL_SOCKET SO_PEERCRED sizeof_ucred w' = (OK, Some me)
  /\ exists e,
       rpmsg_socket_poll slots fds priv true w'
       = (0, (<[i := Some fds]> slots, Some i), emit (PollNotify e) w')
       /\ Z.land e POLLOUT <> 0.
Proof.
  intros Hr Hpos Hfl Hl Hf. cbn zeta.
  set (w' := handle_event (EvRecv (rpmsg_socket_ns_bound me c)) w).
  assert (Hflags : s_flags (conn w') = Z.lor (s_flags (conn w)) _SF_CONNECTED)
    by done.
  assert (Hsize : sendsize (conn w') = circbuf_size (recvbuf c)) by done.
  assert (Hsp : rpmsg_socket_get_space (conn w') = circbuf_size (recvbuf c)).
  { unfold rpmsg_socket_get_space. rewrite Hsize.
    change (sendpos (conn w')) with (sendpos (conn w)).
    change (ackpos (conn w')) with (ackpos (conn w)). rewrite Hfl.
    unfold U32.sub. rewrite Z.sub_0_r. by apply u32_wrap_small. }
  split; [rewrite Hflags; apply isconnected_lor|]. split; [done|].
  split; [done|]. split.
  - unfold rpmsg_socket_getsockopt. rewrite !Z.eqb_refl. cbn. by destruct me.
  - unfold rpmsg_socket_poll, rpmsg_socket_poll_notify. rewrite Hf.
    rewrite Hflags, islistening_lor, Hl, isconnected_lor. cbn zeta.
    rewrite Hsp. destruct (Z.ltb_spec 0 (circbuf_size (recvbuf c))); [|lia].
    destruct (negb (ept_alive (conn w')));
      destruct (negb (circbuf_is_empty (recvbuf (conn w'))));
      (eexists; split; [reflexivity|vm_compute; discriminate]).
Qed.

Lemma sync_makes_socket_writable_witness :
  let w' := handle_event (cfg := nucleo)
              (EvRecv (rpmsg_socket_ns_bound (mk_ucred 7 1 2)
                         (connected_conn []))) fresh_socket in
  sendsize (conn w') = 16
  /\ rpmsg_socket_getsockopt (cfg := nucleo) 1 19 12 w'
     = (OK, Some (mk_ucred 7 1 2)).
Proof.
  destruct (sync_makes_socket_writable (cfg := nucleo) (mk_ucred 7 1 2)
              (connected_conn []) two_slots 9%N None 1 fresh_socket)
    as (_ & H1 & _ & H2 & _);
    [split; vm_compute; congruence|reflexivity|reflexivity|reflexivity
    |reflexivity|].
  split; [exact H1|exact H2].
Defined.

(** A blocking [connect] on a fresh socket returns 0 once the device of the
    peer has appeared and the peer's SYNC frame has arrived: by then it has
    stored the address, allocated the receive buffer in its configured
    size, registered its callbacks, created the endpoint named ["sk:"]
    followed by the service name (with the next free suffix on a stream
    socket, none on a datagram socket), and the socket is connected with
    the window and the credentials of the SYNC frame. *)
Theorem connect_completes_on_sync `{cfg : config}
    (s_type : Z) (addr : sockaddr_rpmsg) (addrlen : Z) (size p u g : Z)
    (it1 it2 : env_item) (env : list env_item) (w : world) :
  _SS_ISCONNECTED (s_flags (conn w)) = false ->
  _SS_ISNONBLOCK (s_flags (conn w)) = false ->
  rp_family addr = AF_RPMSG ->
  sizeof_sockaddr_rpmsg <= addrlen ->
  ept_rdev (conn w) = None ->
  sendsize (conn w) = 0 ->
  0 <= sendsem (conn w) ->
  alloc_ok it1 = true -> ev it1 = [] -> 0 <= cret it1 ->
  ev it2 = [EvDeviceCreated (rp_cpu addr) true; EvRecv (SYNC size p u g)] ->
  exists w',
    rpmsg_socket_connect s_type addr addrlen (it1 :: it2 :: env) w = Ret 0 w' env
    /\ _SS_ISCONNECTED (s_flags (conn w')) = true
    /\ sendsize (conn w') = size
    /\ cred (conn w') = mk_ucred p u g
    /\ ept_rdev (conn w') = Some (rp_cpu addr)
    /\ rpaddr (conn w') = addr
    /\ circbuf_size (recvbuf (conn w')) = CONFIG_NET_RPMSG_RXBUF_SIZE
    /\ trace w'
       = trace w
         ++ [Register CB_CLIENT;
             CreateEpt ("sk:" ++ rp_name addr)
               (if s_type =? SOCK_STREAM then Some (g_rpmsg_id w) else None);
             PollNotify POLLOUT].
Proof.
  intros Hc Hnb Hfam Hlen Hept Hss Hsem Hal Hev1 Hcr Hev2.
  unfold rpmsg_socket_connect. unfold_m. rewrite Hc.
  unfold rpmsg_socket_setaddr. rewrite Hfam, Z.eqb_refl. cbn [negb orb].
  destruct (Z.ltb_spec addrlen sizeof_sockaddr_rpmsg); [lia|].
  set (w0 := upd (set_rpaddr addr) w).
  set (w1 := if s_type =? SOCK_STREAM
             then set_g_rpmsg_id ((g_rpmsg_id w0 + 1) mod 2 ^ 64)
                    (upd (set_nameid (Some (g_rpmsg_id w0))) w0)
             else upd (set_nameid None) w0).
  assert (Hw1 : (if s_type =? SOCK_STREAM
                 then (0, set_g_rpmsg_id ((g_rpmsg_id w0 + 1) mod 2 ^ 64)
                            (upd (set_nameid (Some (g_rpmsg_id w0))) w0))
                 else (0, upd (set_nameid None) w0)) = (0, w1)).
  { subst w1. by destruct (s_type =? SOCK_STREAM). }
  rewrite Hw1. change (0 <? 0) with false. cbn iota.
  assert (Hf1 : s_flags (conn w1) = s_flags (conn w)
                /\ ept_rdev (conn w1) = None
                /\ sendsize (conn w1) = 0
                /\ sendsem (conn w1) = sendsem (conn w)
                /\ rpaddr (conn w1) = addr
                /\ trace w1 = trace w
                /\ nameid (conn w1)
                   = (if s_type =? SOCK_STREAM then Some (g_rpmsg_id w) else None)).
  { subst w1 w0. destruct (s_type =? SOCK_STREAM); cbn; done. }
  destruct Hf1 as (Hfl1 & Hept1 & Hss1 & Hsem1 & Haddr1 & Htr1 & Hid1).
  unfold rpmsg_socket_connect_internal. unfold_m. unfold interact.
  rewrite Hal.
  destruct (resize_ok (recvbuf (conn w1))) as (rb & -> & Hrb).
  change (0 <? 0) with false. cbn iota. rewrite Hev1. cbn [run_events fold_left].
  destruct (Z.ltb_spec (cret it1) 0); [lia|].
  cbn [emit set_trace upd set_conn conn sendsize set_recvbuf s_flags].
  rewrite Hss1, Hfl1, Hnb. cbn [Z.eqb]. cbn iota.
  unfold wait_on, sem_wait. rewrite Hev2.
  cbn [run_events fold_left handle_event].
  unfold rpmsg_socket_device_created.
  cbn [emit set_trace upd set_conn conn ept_rdev set_recvbuf rpaddr].
  rewrite Hept1, Haddr1, String.eqb_refl.
  cbn [emit set_trace upd set_conn conn ept_rdev set_recvbuf rpaddr set_ept_rdev
       set_peer_ok rpmsg_socket_ept_cb rpmsg_socket_poll_notify sendsem
       set_sendsize set_cred set_s_flags set_s_error set_sendsem trace].
  rewrite Hsem1.
  assert (Hpost : 0 < rpmsg_socket_post (sendsem (conn w))).
  { unfold rpmsg_socket_post. destruct (Z.ltb_spec (sendsem (conn w)) 1); lia. }
  destruct (Z.ltb_spec 0 (rpmsg_socket_post (sendsem (conn w)))); [|lia].
  change (0 <? 0) with false. cbn iota.
  eexists. split; [reflexivity|]. cbn.
  rewrite Hfl1, Haddr1, Htr1, Hid1.
  split; [apply isconnected_lor|]. split; [done|]. split; [done|].
  split; [done|]. split; [done|]. split; [exact Hrb|].
  unfold ept_name, RPMSG_SOCKET_NAME_PREFIX. cbn [rpaddr set_recvbuf].
  rewrite Haddr1, <- !app_assoc. done.
Qed.

Lemma connect_completes_on_sync_witness :
  exists w',
    rpmsg_socket_connect (cfg := nucleo) SOCK_STREAM (mk_sockaddr 45 "cp" "svc") 34
      [quiet;
       mk_item [EvDeviceCreated "cp" true; EvRecv (SYNC 4096 7 0 0)] None true 0 None]
      (world_of rpmsg_socket_alloc)
    = Ret 0 w' []
    /\ sendsize (conn w') = 4096
    /\ trace w'
       = [Register CB_CLIENT; CreateEpt "sk:svc" (Some 0); PollNotify POLLOUT].
Proof.
  destruct (connect_completes_on_sync (cfg := nucleo) SOCK_STREAM
              (mk_sockaddr 45 "cp" "svc") 34 4096 7 0 0 quiet
              (mk_item [EvDeviceCreated "cp" true; EvRecv (SYNC 4096 7 0 0)]
                 None true 0 None)
              [] (world_of rpmsg_socket_alloc))
    as (w' & H1 & _ & H2 & _ & _ & _ & _ & H3);
    [reflexivity|reflexivity|reflexivity|cbn; lia|reflexivity|reflexivity
    |cbn; lia|reflexivity|reflexivity|cbn; lia|reflexivity|].
  exists w'. split; [exact H1|]. split; [exact H2|exact H3].
Defined.

(** A [connect] that does not see the SYNC frame: on a non-blocking socket
    it returns [EINPROGRESS] and leaves its callbacks registered, so that
    the connection can still come up; on a blocking socket whose wait ends
    with an error (a timeout or a signal) it returns that error and has
    unregistered its callbacks again.  The address given stays stored in
    both cases. *)
Theorem connect_without_sync `{cfg : config}
    (s_type : Z) (addr : sockaddr_rpmsg) (addrlen : Z) (e : positive)
    (it1 it2 : env_item) (env : list env_item) (w : world) :
  _SS_ISCONNECTED (s_flags (conn w)) = false ->
  rp_family addr = AF_RPMSG ->
  sizeof_sockaddr_rpmsg <= addrlen ->
  sendsize (conn w) = 0 ->
  alloc_ok it1 = true -> ev it1 = [] -> 0 <= cret it1 ->
  (_SS_ISNONBLOCK (s_flags (conn w)) = true ->
   exists w',
     rpmsg_socket_connect s_type addr addrlen (it1 :: env) w
     = Ret (- EINPROGRESS) w' env
     /\ rpaddr (conn w') = addr
     /\ trace w' = trace w ++ [Register CB_CLIENT])
  /\ (_SS_ISNONBLOCK (s_flags (conn w)) = false ->
      sendsem (conn w) <= 0 -> ev it2 = [] -> werr it2 = Some e ->
      exists w',
        rpmsg_socket_connect s_type addr addrlen (it1 :: it2 :: env) w
        = Ret (Z.neg e) w' env
        /\ rpaddr (conn w') = addr
        /\ trace w' = trace w ++ [Register CB_CLIENT; Unregister CB_CLIENT]).
Proof.
  intros Hc Hfam Hlen Hss Hal Hev1 Hcr.
  assert (Hstart : forall env0,
    exists w1 rb,
      rpmsg_socket_connect s_type addr addrlen (it1 :: env0) w
      = (if _SS_ISNONBLOCK (s_flags (conn w)) then Ret (- EINPROGRESS)
         else fun w2 env2 =>
           match wait_on sendsem set_sendsem env2 w2 with
           | Ret ret w3 env3 =>
               if ret <? 0 then Ret ret (emit (Unregister CB_CLIENT) w3) env3
               else Ret ret w3 env3
           | Pend w3 => Pend w3
           end)
          (emit (Register CB_CLIENT) (upd (set_recvbuf rb) w1)) env0
      /\ rpaddr (conn w1) = addr /\ trace w1 = trace w
      /\ sendsem (conn w1) = sendsem (conn w)).
  { intros env0.
    unfold rpmsg_socket_connect. unfold_m. rewrite Hc.
    unfold rpmsg_socket_setaddr. rewrite Hfam, Z.eqb_refl. cbn [negb orb].
    destruct (Z.ltb_spec addrlen sizeof_sockaddr_rpmsg); [lia|].
    set (w0 := upd (set_rpaddr addr) w).
    set (w1 := if s_type =? SOCK_STREAM
               then set_g_rpmsg_id ((g_rpmsg_id w0 + 1) mod 2 ^ 64)
                      (upd (set_nameid (Some (g_rpmsg_id w0))) w0)
               else upd (set_nameid None) w0).
    assert (Hw1 : (if s_type =? SOCK_STREAM
                   then (0, set_g_rpmsg_id ((g_rpmsg_id w0 + 1) mod 2 ^ 64)
                              (upd (set_nameid (Some (g_rpmsg_id w0))) w0))
                   else (0, upd (set_nameid None) w0)) = (0, w1)).
    { subst w1. by destruct (s_type =? SOCK_STREAM). }
    rewrite Hw1. change (0 <? 0) with false. cbn iota.
    assert (Hf1 : s_flags (conn w1) = s_flags (conn w)
                  /\ sendsize (conn w1) = 0
                  /\ sendsem (conn w1) = sendsem (conn w)
                  /\ rpaddr (conn w1) = addr
                  /\ trace w1 = trace w).
    { subst w1 w0. destruct (s_type =? SOCK_STREAM); cbn; done. }
    destruct Hf1 as (Hfl1 & Hss1 & Hsem1 & Haddr1 & Htr1).
    unfold rpmsg_socket_connect_internal. unfold_m. unfold interact.
    rewrite Hal.
    destruct (resize_ok (recvbuf (conn w1))) as (rb & -> & Hrb).
    change (0 <? 0) with false. cbn iota. rewrite Hev1.
    cbn [run_events fold_left].
    destruct (Z.ltb_spec (cret it1) 0); [lia|].
    cbn [emit set_trace upd set_conn conn sendsize set_recvbuf s_flags].
    rewrite Hss1, Hfl1. cbn [Z.eqb]. cbn iota.
    exists w1, rb. split; [|done].
    destruct (_SS_ISNONBLOCK (s_flags (conn w))); [done|].
    destruct (wait_on sendsem set_sendsem env0 _) as [ret w3 env3|w3]; [|done].
    by destruct (ret <? 0). }
  split.
  - intros Hnb. destruct (Hstart env) as (w1 & rb & -> & Ha & Ht & _).
    rewrite Hnb. eexists. split; [reflexivity|]. cbn. by rewrite Ht.
  - intros Hnb Hsem Hev2 Hwerr.
    destruct (Hstart (it2 :: env)) as (w1 & rb & -> & Ha & Ht & Hs).
    rewrite Hnb. unfold wait_on, sem_wait. rewrite Hev2, Hwerr.
    cbn [run_events fold_left emit set_trace upd set_conn conn sendsem set_recvbuf].
    rewrite Hs. destruct (Z.ltb_spec 0 (sendsem (conn w))); [lia|].
    change (Z.neg e <? 0) with true. cbn iota.
    eexists. split; [reflexivity|]. cbn. rewrite Ht, <- app_assoc. done.
Qed.

Lemma connect_without_sync_witness :
  exists w',
    rpmsg_socket_connect (cfg := nucleo) SOCK_STREAM (mk_sockaddr 45 "cp" "svc") 34
      [quiet; mk_item [] (Some 110%positive) true 0 None]
      (world_of rpmsg_socket_alloc)
    = Ret (-110) w' []
    /\ trace w' = [Register CB_CLIENT; Unregister CB_CLIENT].
Proof.
  destruct (connect_without_sync (cfg := nucleo) SOCK_STREAM
              (mk_sockaddr 45 "cp" "svc") 34 110%positive quiet
              (mk_item [] (Some 110%positive) true 0 None) []
              (world_of rpmsg_socket_alloc))
    as (_ & H);
    [reflexivity|reflexivity|cbn; lia|reflexivity|reflexivity|reflexivity
    |cbn; lia|].
  destruct H as (w' & H1 & _ & H2);
    [reflexivity|cbn; lia|reflexivity|reflexivity|].
  exists w'. split; [exact H1|exact H2].
Defined.

(** ** The link goes down under a blocked call *)




Lemma recvmsg_read_empty `{cfg : config} (s_type : Z) (buf : N) (len : Z)
    (w : world) :
  cb_data (recvbuf (conn w)) = [] ->
  fst (recvmsg_read s_type buf len w) = 0
  /\ mem (snd (recvmsg_read s_type buf len w)) = mem w
  /\ recvbuf (conn (snd (recvmsg_read s_type buf len w))) = recvbuf (conn w)
  /\ trace (snd (recvmsg_read s_type buf len w)) = trace w
  /\ rpaddr (conn (snd (recvmsg_read s_type buf len w))) = rpaddr (conn w).
Proof.
  intros Hb. unfold recvmsg_read.
  destruct (negb (s_type =? SOCK_STREAM));
    rewrite (circbuf_read_empty _ _ Hb); cbn; done.
Qed.



(** ** A frame arrives while the reader waits *)

Lemma ept_cb_ack_reader_side (pos : Z) (w : world) :
  let w1 := ept_cb_ack pos w in
  recvbuf (conn w1) = recvbuf (conn w)
  /\ recvdata (conn w1) = recvdata (conn w)
  /\ recvlen (conn w1) = recvlen (conn w)
  /\ recvsem (conn w1) = recvsem (conn w)
  /\ recvpos (conn w1) = recvpos (conn w)
  /\ mem w1 = mem w
  /\ s_flags (conn w1) = s_flags (conn w)
  /\ ept_alive (conn w1) = ept_alive (conn w).
Proof.
  unfold ept_cb_ack, rpmsg_socket_poll_notify, ept_alive.
  destruct (0 <? _); cbn; done.
Qed.

Lemma ept_cb_store_reader_side (buf : list byte) (w : world) :
  let w1 := ept_cb_store buf w in
  recvdata (conn w1) = recvdata (conn w)
  /\ recvlen (conn w1) = recvlen (conn w)
  /\ recvsem (conn w1) = recvsem (conn w)
  /\ recvpos (conn w1) = recvpos (conn w)
  /\ mem w1 = mem w
  /\ s_flags (conn w1) = s_flags (conn w)
  /\ ept_alive (conn w1) = ept_alive (conn w)
  /\ cb_data (recvbuf (conn w1))
     = cb_data (recvbuf (conn w))
       ++ take (Z.to_nat (Z.min (Z.of_nat (length buf))
                            (Z.max 0 (circbuf_space (recvbuf (conn w)))))) buf.
Proof.
  unfold ept_cb_store, rpmsg_socket_poll_notify, ept_alive.
  destruct (Z.ltb_spec 0 (Z.of_nat (length buf))); cbn; [done|].
  repeat split; try done.
  destruct buf; [|cbn [length] in *; lia].
  by rewrite take_nil, app_nil_r.
Qed.

(** A frame that arrives while a blocking [recvmsg] waits goes to the
    reader's buffer directly: the call returns the smaller of the buffer
    length and the payload length and has copied that many bytes of the
    payload.  On a stream socket the bytes beyond the reader's buffer are
    kept for the next call and the receive position advances by what was
    delivered; on a datagram socket they are dropped and the receive position
    advances by the whole datagram with its length prefix. *)
Theorem waiting_reader_gets_frame_directly `{cfg : config}
    (s_type : Z) (ubuf : N) (ulen flags pos : Z) (payload : list byte)
    (it : env_item) (env : list env_item) (w : world) :
  _SS_ISCONNECTED (s_flags (conn w)) = true ->
  ept_alive (conn w) = true ->
  _SS_ISNONBLOCK (s_flags (conn w)) = false ->
  Z.land flags MSG_DONTWAIT = 0 ->
  cb_data (recvbuf (conn w)) = [] ->
  0 < ulen < 2 ^ 31 ->
  payload <> [] ->
  (s_type = SOCK_STREAM ->
   Z.of_nat (length payload) <= cb_size (recvbuf (conn w))) ->
  ev it = [EvRecv (DATA pos (Z.of_nat (length payload))
                     (if s_type =? SOCK_STREAM then payload
                      else le32_bytes (Z.of_nat (length payload)) ++ payload))] ->
  let n := Z.min ulen (Z.of_nat (length payload)) in
  exists msg' w',
    rpmsg_socket_recvmsg s_type (mk_msghdr None 0 [mk_iovec ubuf ulen] 1) flags
      (it :: env) w
    = Ret (n, msg') w' env
    /\ mem w' = mem_write ubuf (take (Z.to_nat n) payload) (mem w)
    /\ cb_data (recvbuf (conn w'))
       = (if s_type =? SOCK_STREAM then drop (Z.to_nat n) payload else [])
    /\ recvpos (conn w')
       = U32.add (recvpos (conn w))
           (if s_type =? SOCK_STREAM then n
            else Z.of_nat (length payload) + sizeof_uint32)
    /\ recvdata (conn w') = None.
Proof.
  intros Hc Ha Hnb Hfl Hb Hu Hne Hfit Hev n.
  assert (Hlp : 0 < Z.of_nat (length payload)).
  { destruct payload; [done|cbn [length]; lia]. }
  rewrite (recvmsg_connected _ _ _ _ _ Hc). unfold recvmsg_body.
  cbn [msg_iov0 msg_iov hd iov_base iov_len].
  pose proof (recvmsg_read_empty s_type ubuf ulen w Hb) as (Hr0 & Hm0 & Hb0 & _ & _).
  pose proof (recvmsg_read_alive s_type ubuf ulen w) as Ha0.
  pose proof (recvmsg_read_keeps s_type ubuf ulen w) as (Hf0 & _).
  cbn zeta in Hf0.
  assert (Hp0 : U32.wrap (recvpos (conn (snd (recvmsg_read s_type ubuf ulen w))))
                = U32.wrap (recvpos (conn w))).
  { unfold recvmsg_read.
    destruct (negb (s_type =? SOCK_STREAM));
      rewrite (circbuf_read_empty _ _ Hb); cbn; [done|].
    unfold U32.add. rewrite Z.add_0_r. unfold U32.wrap.
    by rewrite Z.mod_mod by (unfold U32.modulus; lia). }
  destruct (recvmsg_read s_type ubuf ulen w) as [ret w0]. cbn [fst snd] in *.
  subst ret. change (0 <? 0) with false. cbn iota.
  rewrite Ha0, Ha, Hf0, Hnb, Hfl. cbn [negb orb Z.eqb]. cbn iota.
  set (w1 := upd (set_recvsem 0) (upd (set_recvlen ulen)
               (upd (set_recvdata (Some ubuf)) w0))).
  set (data := if s_type =? SOCK_STREAM then payload
               else le32_bytes (Z.of_nat (length payload)) ++ payload) in *.
  set (mlen := Z.of_nat (length payload)) in *.
  assert (Hld : 0 < Z.of_nat (length data)).
  { subst data. destruct (s_type =? SOCK_STREAM); [done|].
    rewrite length_app. lia. }
  (* the callback *)
  set (w2 := handle_event (EvRecv (DATA pos mlen data)) w1).
  assert (H2 : recvdata (conn w2) = None
               /\ recvsem (conn w2) = 1
               /\ recvlen (conn w2) = n
               /\ ept_alive (conn w2) = true
               /\ mem w2 = mem_write ubuf (take (Z.to_nat n) payload) (mem w)
               /\ cb_data (recvbuf (conn w2))
                  = (if s_type =? SOCK_STREAM then drop (Z.to_nat n) payload else [])
               /\ recvpos (conn w2)
                  = U32.add (recvpos (conn w))
                      (if s_type =? SOCK_STREAM then n else mlen + sizeof_uint32)).
  { subst w2. cbn [handle_event]. cbn [set_peer_ok conn mem].
    unfold rpmsg_socket_ept_cb.
    destruct (Z.ltb_spec 0 (Z.of_nat (length data))); [|lia].
    pose proof (ept_cb_ack_reader_side pos w1) as (Kb & Kd & Kl & Ks & Kp & Km & _ & Ka).
    cbn zeta in *.
    set (wa := ept_cb_ack pos w1) in *.
    replace (recvdata (conn wa)) with (Some ubuf) by (rewrite Kd; subst w1; done).
    pose proof (ept_cb_store_reader_side (snd (ept_cb_direct ubuf mlen data wa))
                  (fst (ept_cb_direct ubuf mlen data wa)))
      as (Sd & Sl & Ss & Sp & Sm & _ & Sa & Sb).
    cbn zeta in *. rewrite Sd, Ss, Sl, Sa, Sm, Sb, Sp. clear Sd Sl Ss Sp Sm Sa Sb.
    unfold ept_cb_direct. cbn [fst snd].
    assert (Hrl : Z.min (recvlen (conn wa)) mlen = n).
    { rewrite Kl. subst w1 n. cbn. done. }
    rewrite Hrl.
    assert (Hsem : recvsem (conn wa) = 0) by (rewrite Ks; subst w1; done).
    assert (Hal : ept_alive (conn wa) = true).
    { rewrite Ka, <- Ha, <- Ha0. subst w1. unfold ept_alive. cbn. done. }
    assert (Hmem : mem wa = mem w) by (rewrite Km; subst w1; cbn; done).
    assert (Hbuf : recvbuf (conn wa) = recvbuf (conn w))
      by (rewrite Kb; subst w1; cbn; done).
    assert (Hpos : U32.wrap (recvpos (conn wa)) = U32.wrap (recvpos (conn w)))
      by (rewrite Kp; subst w1; cbn; done).
    assert (Hadd : forall k, U32.add (recvpos (conn wa)) k
                             = U32.add (recvpos (conn w)) k).
    { intros k. unfold U32.add, U32.wrap in *.
      rewrite <- (Zplus_mod_idemp_l (recvpos (conn wa))), Hpos,
        Zplus_mod_idemp_l. done. }
    subst data.
    destruct (Z.eqb_spec s_type SOCK_STREAM) as [Hst|Hst].
    - rewrite Z.eqb_refl. cbn [fst snd].
      split; [done|]. split; [cbn; by rewrite Hsem|]. split; [done|].
      split; [exact Hal|]. split; [cbn; by rewrite Hmem|].
      split; [|cbn; apply Hadd].
      cbn [upd set_conn conn recvbuf set_recvsem set_recvdata set_recvpos
           set_recvlen set_mem].
      rewrite Hbuf, Hb. cbn [app].
      apply take_ge. rewrite length_drop.
      unfold circbuf_space, circbuf_size, circbuf_used.
      rewrite Hb. cbn [length]. specialize (Hfit Hst).
      subst n mlen. lia.
    - assert (Hneq : (Z.of_nat (length (le32_bytes mlen ++ payload)) =? mlen) = false).
      { apply Z.eqb_neq. rewrite length_app. unfold le32_bytes. cbn [length].
        subst mlen. lia. }
      rewrite Hneq. cbn [fst snd].
      split; [done|]. split; [cbn; by rewrite Hsem|]. split; [done|].
      split; [exact Hal|].
      split.
      { cbn. rewrite Hmem. unfold le32_bytes. cbn. done. }
      split.
      { cbn [upd set_conn conn recvbuf set_recvsem set_recvdata set_recvpos
             set_recvlen set_mem].
        rewrite take_nil, app_nil_r, Hbuf, Hb. done. }
      cbn [upd set_conn conn recvpos set_recvsem set_recvdata set_recvpos
           set_recvlen set_mem].
      rewrite Hadd. f_equal. rewrite length_app. unfold le32_bytes.
      cbn [length]. unfold sizeof_uint32. subst mlen. lia. }
  destruct H2 as (Hd2 & Hs2 & Hl2 & Ha2 & Hm2 & Hb2 & Hp2).
  unfold_m. unfold wait_on, sem_wait, gets, modify. rewrite Hev.
  cbn [run_events fold_left]. fold w2. rewrite Hs2.
  change (0 <? 1) with true. cbn iota.
  cbn [upd set_conn conn].
  replace (ept_alive (set_recvsem (1 - 1) (conn w2))) with true
    by (symmetry; exact Ha2).
  cbn [negb]. cbn [recvdata set_recvsem recvlen]. rewrite Hd2, Hl2.
  assert (Hn : 0 < n < 2 ^ 31) by (subst n mlen; lia).
  assert (Hss : U32.to_ssize n = n).
  { unfold U32.to_ssize. destruct (Z.ltb_spec n (2 ^ 31)); lia. }
  rewrite Hss. destruct (Z.ltb_spec 0 n); [|lia].
  eexists _, _. split; [reflexivity|].
  match goal with |- context [rpmsg_socket_wakeup ?x] =>
    pose proof (wakeup_spec x) as (Wp & Wm & _);
    assert (Wb : recvbuf (conn (rpmsg_socket_wakeup x)) = recvbuf (conn x)
                 /\ recvdata (conn (rpmsg_socket_wakeup x)) = recvdata (conn x))
  end.
  { unfold rpmsg_socket_wakeup. destruct (negb _); [done|].
    destruct (_ <? _); cbn; done. }
  cbn zeta in *. destruct Wb as (Wb & Wd).
  rewrite Wm, Wb, Wp, Wd. cbn. done.
Qed.

Lemma waiting_reader_gets_frame_directly_witness :
  exists msg' w',
    rpmsg_socket_recvmsg (cfg := nucleo) SOCK_STREAM
      (mk_msghdr None 0 [mk_iovec 1 3] 1) 0
      [mk_item [EvRecv (DATA 0 5 hello)] None true 0 None]
      (world_of (connected_conn []))
    = Ret (3, msg') w' []
    /\ mem w' = mem_write 1 [x68; x65; x6c] ∅
    /\ cb_data (recvbuf (conn w')) = [x6c; x6f].
Proof.
  destruct (waiting_reader_gets_frame_directly (cfg := nucleo) SOCK_STREAM 1 3 0 0
              hello (mk_item [EvRecv (DATA 0 5 hello)] None true 0 None) []
              (world_of (connected_conn [])))
    as (msg' & w' & H1 & H2 & H3 & _);
    [reflexivity|reflexivity|reflexivity|reflexivity|reflexivity|lia
    |discriminate|intros _; cbn; lia|reflexivity|].
  exists msg', w'. split; [exact H1|]. split; [exact H2|exact H3].
Defined.

(** ** The send window seen from outside *)


Lemma u32_sub_0_r a : U32.in_range a -> U32.sub a 0 = a.
Proof. intros H. unfold U32.sub. rewrite Z.sub_0_r. by apply u32_wrap_small. Qed.



(** What [FIONSPACE] reports can be written at once.  On a connected stream
    socket [FIONSPACE] stores the free part of the peer's window.  A message
    no longer than that, with a TX buffer that holds it, goes out in one DATA
    frame: [sendmsg] returns its length, and [FIONSPACE] reports that much
    less afterwards.  When [FIONSPACE] reports 0, a non-blocking [sendmsg]
    returns [EAGAIN] and changes nothing. *)
Theorem fionspace_bytes_go_out_at_once `{cfg : config} (PATH_MAX : nat)
    (msg : msghdr) (flags ipcsize : Z) (it : env_item) (env : list env_item)
    (w : world) :
  _SS_ISCONNECTED (s_flags (conn w)) = true ->
  ept_alive (conn w) = true ->
  flow_inv (conn w) ->
  sendsize (conn w) < 2 ^ 31 ->
  msg_iovlen msg = Z.of_nat (length (msg_iov msg)) ->
  Forall (fun b => 0 <= iov_len b) (msg_iov msg) ->
  let data := iov_bytes (mem w) (msg_iov msg) in
  let n := Z.of_nat (length data) in
  0 < n < 2 ^ 31 ->
  exists space,
    rpmsg_socket_ioctl PATH_MAX FIONSPACE w = (OK, OutInt space)
    /\ 0 <= space <= sendsize (conn w)
    /\ (n <= space -> ev it = [] -> txbuf it = Some ipcsize ->
        n + sizeof_data_s <= ipcsize < U32.modulus -> 0 <= cret it ->
        exists w',
          rpmsg_socket_sendmsg SOCK_STREAM msg flags (it :: env) w = Ret n w' env
          /\ trace w' = trace w ++ [Tx (DATA (recvpos (conn w)) n data)]
          /\ rpmsg_socket_ioctl PATH_MAX FIONSPACE w' = (OK, OutInt (space - n)))
    /\ (space = 0 ->
        _SS_ISNONBLOCK (s_flags (conn w)) || negb (Z.land flags MSG_DONTWAIT =? 0)
        = true ->
        rpmsg_socket_sendmsg SOCK_STREAM msg flags env w = Ret (- EAGAIN) w env).
Proof.
  intros Hc Ha Hinv Hss Hcnt Hv data n Hn.
  pose proof (get_space_exact (conn w) Hinv) as (Hsp & Hfl).
  assert (Hssz : forall x, 0 <= x < 2 ^ 31 -> U32.to_ssize x = x).
  { intros x Hx. unfold U32.to_ssize. destruct (Z.ltb_spec x (2 ^ 31)); lia. }
  assert (Hlen : rpmsg_socket_get_iovlen (msg_iov msg) (msg_iovlen msg) = n).
  { rewrite Hcnt. apply get_iovlen_bytes; [done|].
    fold data. fold n. unfold U32.modulus. lia. }
  exists (rpmsg_socket_get_space (conn w)).
  split; [cbn; rewrite Hssz; [done|lia]|].
  split; [lia|].
  rewrite (sendmsg_connected_alive _ _ _ _ _ Hc Ha).
  change (SOCK_STREAM =? SOCK_STREAM) with true. cbn iota.
  unfold rpmsg_socket_send_continuous. rewrite Hlen.
  assert (Hn0 : U32.sub n 0 = n).
  { apply u32_sub_0_r. unfold U32.in_range, U32.modulus. lia. }
  split.
  - intros Hfit Hev Htx Hipc Hret.
    cbn [send_continuous_loop].
    destruct (Z.ltb_spec 0 n); [|lia].
    rewrite Hn0, Z.min_l by lia.
    destruct (Z.eqb_spec n 0); [lia|].
    rewrite Hev, Htx. cbn [run_events fold_left].
    unfold send_continuous_tx.
    rewrite Hn0, (Z.min_l n (rpmsg_socket_get_space (conn w))) by lia.
    assert (Hs : U32.sub ipcsize sizeof_data_s = ipcsize - sizeof_data_s).
    { unfold U32.sub. apply u32_wrap_small.
      unfold U32.in_range, sizeof_data_s, U32.modulus in *. lia. }
    rewrite Hs, Z.min_l by lia.
    destruct (send_gather_spec (mem w) (msg_iov msg) 0 n)
      as (buf' & offset' & Hg & _).
    { eapply Forall_impl; [apply (iov_len_bound (mem w) _ Hv)|].
      cbn. fold data. fold n. intros b Hb. unfold U32.modulus. lia. }
    { lia. }
    { intros b r Hbr. rewrite Hbr in Hv. inversion Hv; subst. lia. }
    { rewrite iov_rest_0. fold data. fold n. lia. }
    rewrite Hg, iov_rest_0. fold data.
    assert (Htk : take (Z.to_nat n) data = data).
    { apply take_ge. subst n. lia. }
    rewrite Htk.
    destruct (Z.ltb_spec (cret it) 0); [lia|].
    cbn [fst snd].
    assert (Ha0 : U32.add 0 n = n).
    { unfold U32.add. apply u32_wrap_small.
      unfold U32.in_range, U32.modulus. lia. }
    rewrite Ha0.
    assert (Hdone : forall nb buf o r e ww,
              send_continuous_loop nb n buf o n r e ww = Ret n ww e).
    { intros nb buf o r e ww.
      assert (Hw : written_or n r = n).
      { unfold written_or. destruct (Z.eqb_spec n 0); [lia|]. apply Hssz. lia. }
      destruct e; cbn [send_continuous_loop]; rewrite Z.ltb_irrefl, Hw; done. }
    rewrite Hdone.
    eexists. split; [reflexivity|]. split; [done|].
    cbn [rpmsg_socket_ioctl]. do 2 f_equal.
    unfold rpmsg_socket_get_space in *.
    cbn [emit set_trace upd set_conn conn sendsize sendpos ackpos set_sendpos
         set_lastpos].
    rewrite u32_sub_add_l by (unfold U32.modulus; lia).
    assert (Hw : U32.sub (sendsize (conn w))
                   (U32.sub (sendpos (conn w)) (ackpos (conn w)) + n)
                 = sendsize (conn w)
                   - (U32.sub (sendpos (conn w)) (ackpos (conn w)) + n)).
    { unfold U32.sub at 1. apply u32_wrap_small.
      unfold U32.in_range, U32.modulus. lia. }
    rewrite Hw, Hssz by lia. lia.
  - intros H0 Hnb.
    rewrite (sendmsg_connected_alive _ _ _ _ _ Hc Ha), Hnb.
    change (SOCK_STREAM =? SOCK_STREAM) with true. cbn iota.
    unfold rpmsg_socket_send_continuous. rewrite Hlen.
    destruct env; cbn [send_continuous_loop].
    all: destruct (Z.ltb_spec 0 n); [|lia].
    all: rewrite Hn0, H0, Z.min_r by lia; cbn [Z.eqb negb]; done.
Qed.

Lemma fionspace_bytes_go_out_at_once_witness :
  exists w',
    rpmsg_socket_ioctl (cfg := nucleo) 32 FIONSPACE hello_sender = (OK, OutInt 4096)
    /\ rpmsg_socket_sendmsg (cfg := nucleo) SOCK_STREAM hello_msg 0 [tx_item]
         hello_sender
       = Ret 5 w' []
    /\ rpmsg_socket_ioctl (cfg := nucleo) 32 FIONSPACE w' = (OK, OutInt 4091).
Proof.
  destruct (fionspace_bytes_go_out_at_once (cfg := nucleo) 32 hello_msg 0 496
              tx_item [] hello_sender)
    as (space & H0 & _ & H & _);
    [reflexivity|reflexivity
    |repeat split; vm_compute; congruence
    |reflexivity|reflexivity
    |constructor; [cbn; lia|constructor]
    |split; reflexivity|].
  assert (Hs : space = 4096).
  { change (rpmsg_socket_ioctl 32 FIONSPACE hello_sender) with (OK, OutInt 4096) in H0.
    congruence. }
  subst space.
  destruct H as (w' & H1 & _ & H2);
    [vm_compute; congruence|reflexivity|reflexivity
    |split; [vm_compute; congruence|reflexivity]
    |vm_compute; congruence|].
  exists w'. split; [reflexivity|]. split; [exact H1|exact H2].
Defined.
